(** * Gopa: a shallow embedding of the interpreter's core

    The development follows the Python sources module by module:

    - [PyStr]        the [str] methods the sources call ([lower], [strip],
                     [split], [endswith], [isdigit], ...);
    - [Permissions]  permissions.py;
    - [Lexer]        lexer.py;
    - [Parser]       parser.py;
    - [Runtime]      runtime.py;
    - [Interp]       interpreter.py;
    - [Builtins]     the builtins of builtin_stdlib.py on the values of
                     the fragment;
    - [Scheduler]    the [Scheduler] class of graphics_stub.py;
    - [Gopa]         the lex, parse and execute pipeline of gopa.py;
    - [Examples]     the programs and states the theorems run;
    - [Grammar], [Invariant], [Samples]
                     the token kinds, the invariants and the further
                     programs the later theorems name.

    Conventions.  A Python [str] is a [string] whose characters are read as
    code points below 256.  A Python [int] is a [Z], a Python [float] a
    binary64 [float].  Python exceptions and the interpreter's control
    signals are the constructors of [exn]; a method that may raise returns
    an [outcome].  Lists are mutable and shared by reference in Python, so
    a list value is a location into a heap.  Recursion that Python leaves
    unbounded (loops, calls, the parser's statement loop) takes a fuel
    argument and answers [OutOfFuel] when it is exhausted.

    Fragment.  The expressions are the literals other than floats and
    [pi], identifiers, binary and unary operators, index access, list
    literals, calls, filter and map; the statements are assignment,
    mutation, say, print, if, the four loops, break, continue, stop,
    function definition, return, list add and a call in statement
    position.  Floats as values (float literals, [pi], the quotient of a
    true division), dictionaries, objects, property access, the string
    and find expressions, match, the other list statements, the timer
    statements and the external collaborators (network, files, graphics,
    Python bridge, packages, server) are outside the embedding: where the
    sources would reach one of them the embedding answers [Unmodelled].
    The scheduler is embedded in virtual time; its registrations and
    [wait] answer [Unmodelled] where they would read the wall clock.

    Limits of Python.  The conversions between [int] and [str] raise
    [ValueError] past 4300 digits ([PyStr.int_max_str_digits]).  The
    recursion limit is a parameter where the sources recurse over data,
    in the deep copy of [child_scope] ([Runtime.Stack]); the depth of
    the interpreter's own recursion is not modelled. *)

From Stdlib Require Import ZArith Ascii String List Bool Lia PrimFloat.
From stdpp Require Import base option list strings gmap pretty.

Local Open Scope Z_scope.

(** ** Python strings *)

Module PyStr.

Definition ord (c : ascii) : N := N_of_ascii c.

Definition between (lo hi : N) (c : ascii) : bool :=
  ((lo <=? ord c) && (ord c <=? hi))%N.

(** [str.isspace] on one character. *)
Definition isspace (c : ascii) : bool :=
  between 9 13 c || between 28 32 c || (ord c =? 133)%N || (ord c =? 160)%N.

(** [str.isdigit] on one character (the superscripts count). *)
Definition isdigit (c : ascii) : bool :=
  between 48 57 c || between 178 179 c || (ord c =? 185)%N.

(** [str.isalpha] on one character. *)
Definition isalpha (c : ascii) : bool :=
  between 65 90 c || between 97 122 c
  || (ord c =? 170)%N || (ord c =? 181)%N || (ord c =? 186)%N
  || between 192 214 c || between 216 246 c || between 248 255 c.

(** [str.isalnum] on one character. *)
Definition isalnum (c : ascii) : bool :=
  isalpha c || isdigit c || between 188 190 c.

Definition lower_char (c : ascii) : ascii :=
  if between 65 90 c || between 192 214 c || between 216 222 c
  then ascii_of_N (ord c + 32) else c.

(** [s.lower()] *)
Fixpoint lower (s : string) : string :=
  match s with
  | EmptyString => EmptyString
  | String c s' => String (lower_char c) (lower s')
  end.

Fixpoint lstrip (s : string) : string :=
  match s with
  | EmptyString => EmptyString
  | String c s' => if isspace c then lstrip s' else s
  end.

Fixpoint rstrip (s : string) : string :=
  match s with
  | EmptyString => EmptyString
  | String c s' =>
      match rstrip s' with
      | EmptyString => if isspace c then EmptyString else String c EmptyString
      | r => String c r
      end
  end.

(** [s.strip()] *)
Definition strip (s : string) : string := rstrip (lstrip s).

(** [s.split(sep)] for a one-character separator: every occurrence
    cuts, so the result has one entry more than there are separators. *)
Fixpoint split (sep : ascii) (s : string) : list string :=
  match s with
  | EmptyString => [EmptyString]
  | String c s' =>
      if Ascii.eqb c sep then EmptyString :: split sep s'
      else match split sep s' with
           | [] => [String c EmptyString]
           | w :: ws => String c w :: ws
           end
  end.

(** [x in l] for a list of strings. *)
Fixpoint contains (x : string) (l : list string) : bool :=
  match l with
  | [] => false
  | y :: l' => String.eqb x y || contains x l'
  end.

(** [s.endswith(suffix)] *)
Definition endswith (s suffix : string) : bool :=
  let n := String.length s in
  let m := String.length suffix in
  (m <=? n)%nat && String.eqb (String.substring (n - m) m s) suffix.

(** [s.endswith((a, b, ...))] *)
Definition endswith_any (s : string) (suffixes : list string) : bool :=
  existsb (endswith s) suffixes.

(** [s.startswith(prefix)] *)
Definition startswith (s prefix : string) : bool := String.prefix prefix s.

(** [s[a:b]] for [0 <= a]. *)
Definition slice (s : string) (a b : nat) : string :=
  String.substring a (b - a) s.

(** [sys.get_int_max_str_digits()]: CPython (3.11 and later, which
    setup.py asks for) converts no [str] of more decimal digits to an
    [int] and no [int] of more decimal digits to a [str]; it raises
    [ValueError]. *)
Definition int_max_str_digits : nat := 4300.

(** The least natural number of more than [int_max_str_digits] digits,
    [10 ^ 4300]. *)
Definition int_str_bound : Z := Eval vm_compute in 10 ^ Z.of_nat int_max_str_digits.

(** The white space [int] accepts around the digits: [str.isspace]
    without the separators 28 to 31. *)
Definition int_space (c : ascii) : bool :=
  between 9 13 c || (ord c =? 32)%N || (ord c =? 133)%N || (ord c =? 160)%N.

Fixpoint int_lstrip (s : string) : string :=
  match s with
  | EmptyString => EmptyString
  | String c s' => if int_space c then int_lstrip s' else s
  end.

Fixpoint int_rstrip (s : string) : string :=
  match s with
  | EmptyString => EmptyString
  | String c s' =>
      match int_rstrip s' with
      | EmptyString => if int_space c then EmptyString else String c EmptyString
      | r => String c r
      end
  end.

(** The decimal digits of [s], which the limit counts (leading zeros
    included, underscores not). *)
Fixpoint count_digits (s : string) : nat :=
  match s with
  | EmptyString => O
  | String c s' => if between 48 57 c then S (count_digits s') else count_digits s'
  end.

(** [int(s)] for a [str]: white space around, an optional sign, decimal
    digits with single underscores between them, at most
    [int_max_str_digits] digits. *)
Fixpoint int_digits (acc : Z) (after_digit : bool) (s : string) : option Z :=
  match s with
  | EmptyString => if after_digit then Some acc else None
  | String c s' =>
      if between 48 57 c
      then int_digits (10 * acc + Z.of_N (ord c - 48)) true s'
      else if Ascii.eqb c "_" && after_digit
           then match s' with
                | String d _ =>
                    if between 48 57 d then int_digits acc false s' else None
                | EmptyString => None
                end
           else None
  end.

Definition to_int (s : string) : option Z :=
  let r := int_rstrip (int_lstrip s) in
  if (int_max_str_digits <? count_digits r)%nat then None
  else match r with
       | String "-" r => option_map Z.opp (int_digits 0 false r)
       | String "+" r => int_digits 0 false r
       | r => int_digits 0 false r
       end.

(** [s.split()]: the runs of characters that are not white space. *)
Fixpoint words_from (cur : string) (s : string) : list string :=
  match s with
  | EmptyString => match cur with EmptyString => [] | _ => [cur] end
  | String c s' =>
      if isspace c
      then match cur with
           | EmptyString => words_from EmptyString s'
           | _ => cur :: words_from EmptyString s'
           end
      else words_from (cur +:+ String c EmptyString) s'
  end.

Definition words (s : string) : list string := words_from EmptyString s.

End PyStr.

(** ** Values, exceptions and outcomes *)

Definition loc := nat.

(** The values of the fragment.  [VList l] is a reference to the list
    object stored at [l]. *)
Inductive value : Type :=
| VNone
| VBool (b : bool)
| VInt (n : Z)
| VStr (s : string)
| VList (l : loc).

(** Python exceptions the sources raise or let escape.  The four control
    signals of interpreter.py are exceptions too ([ControlSignal] derives
    from [Exception]). *)
Inductive exn : Type :=
| RuntimeError (msg : string)
| NameError (msg : string)
| TypeError
| ValueError
| SyntaxError
| ReturnSignal (v : value)
| BreakSignal
| ContinueSignal
| StopSignal.

Inductive outcome (A : Type) : Type :=
| Ok (a : A)
| Raise (e : exn)
| Unmodelled (what : string)
| OutOfFuel.
Arguments Ok {A} a.
Arguments Raise {A} e.
Arguments Unmodelled {A} what.
Arguments OutOfFuel {A}.

(** ** permissions.py *)

Module Permissions.
Import PyStr.

Record t : Type := mk {
  network : bool;
  files : bool;
  graphics : bool;
  sound : bool;
  packages : bool;
  python_ffi : bool;
  server : bool;
  timers : bool;
  cron : bool;
  state : bool
}.

(** The values [__init__] assigns before it looks at [perm_string]. *)
Definition defaults : t :=
  {| network := false; files := false; graphics := false; sound := false;
     packages := true; python_ffi := false; server := false;
     timers := false; cron := false; state := false |}.

(** [perms = [p.strip().lower() for p in perm_string.split(',')]] *)
Definition perms_of (perm_string : string) : list string :=
  map (fun p => lower (strip p)) (split "," perm_string).

(** [Permissions.__init__] *)
Definition init (perm_string : string) : t :=
  match perm_string with
  | EmptyString => defaults
  | _ =>
      let perms := perms_of perm_string in
      {| network := contains "network" perms;
         files := contains "files" perms;
         graphics := contains "graphics" perms;
         sound := contains "sound" perms;
         packages := contains "packages" perms;
         python_ffi := contains "python" perms || contains "python_ffi" perms;
         server := contains "server" perms;
         timers := contains "timers" perms;
         cron := contains "cron" perms;
         state := contains "state" perms |}
  end.

(** An entry of the comma-separated list names [cap] when trimming its
    white space and lowering its case gives [cap]. *)
Definition listed (cap perm_string : string) : Prop :=
  exists entry, In entry (split "," perm_string) /\ lower (strip entry) = cap.

Definition check_network (p : t) : outcome unit :=
  if negb (network p) then Raise (RuntimeError "Network access not allowed")
  else Ok tt.

Definition check_files (p : t) : outcome unit :=
  if negb (files p) then Raise (RuntimeError "File access not allowed")
  else Ok tt.

Definition check_graphics (p : t) : outcome unit :=
  if negb (graphics p) then Raise (RuntimeError "Graphics access not allowed")
  else Ok tt.

Definition check_sound (p : t) : outcome unit :=
  if negb (sound p) then Raise (RuntimeError "Sound access not allowed")
  else Ok tt.

Definition check_packages (p : t) : outcome unit :=
  if negb (packages p) then Raise (RuntimeError "Package access not allowed")
  else Ok tt.

Definition check_python_ffi (p : t) : outcome unit :=
  if negb (python_ffi p) then Raise (RuntimeError "Python interop not allowed")
  else Ok tt.

Definition check_server (p : t) : outcome unit :=
  if negb (server p) then Raise (RuntimeError "Server access not allowed")
  else Ok tt.

Definition check_timers (p : t) : outcome unit :=
  if negb (timers p) && negb (graphics p)
  then Raise (RuntimeError "Timer access not allowed")
  else Ok tt.

Definition check_cron (p : t) : outcome unit :=
  if negb (cron p) && negb (timers p)
  then Raise (RuntimeError "Cron access not allowed")
  else Ok tt.

End Permissions.

(** ** tokens.py and lexer.py *)

(** Modelled from the spec: tokens.py, which declares [TokenType] and
    [Token], is not among the sources.  The kinds are the members the
    lexer and the parser name; a token is (kind, optional literal payload,
    line, column). *)
Inductive TokenType : Type :=
| NUMBER | STRING | IDENTIFIER | NEWLINE | EOF
| DOT | LBRACKET | RBRACKET | COMMA
| TIMES | TIMES_OP | DIVIDED
| DOES_NOT_EQUAL | IS_GREATER_THAN | IS_LESS_THAN | IS_AT_LEAST | IS_AT_MOST
| IS | BECOMES | SAY | PRINT | CLEAR | SHOW | ASK | FOR | IF | THEN
| OTHERWISE | REPEAT | FOREVER | UNTIL | DO | BREAK | CONTINUE | STOP
| DEFINE | WITH | RETURN | END | WHEN | MATCH | TO | ADD | REMOVE | FROM
| AT | SORT | REVERSE | SHUFFLE | FIND | IN | FILTER | WHERE | MAP | USING
| ITEM | DICTIONARY | OBJECT | SPLIT | BY | JOIN | REPLACE | GET | WRITE
| READ | FILE | CREATE | CANVAS | DRAW | CIRCLE | RECTANGLE | LINE | TEXT
| COLOR | SIZE | MOUSE | CLICKS | ON | WAIT | SECONDS | AFTER | EVERY
| AND | OR | NOT | PLUS | MINUS | INCREASE | DECREASE | YES | NO
| NUMBER_TYPE | SCREEN | TABLE | HEADERS | DATA | ROWS | USE | INSTALL
| PYTHON | CALL | SERVER | PORT | JOB | CRON | TRUE | FALSE | NOTHING | PI
| EQUALS | WITH_JOIN | TO_FILE.

(** A number for every kind, to compare kinds by. *)
Definition TokenType_code (ty : TokenType) : N :=
  match ty with
  | NUMBER => 0 | STRING => 1 | IDENTIFIER => 2 | NEWLINE => 3 | EOF => 4
  | DOT => 5 | LBRACKET => 6 | RBRACKET => 7 | COMMA => 8 | TIMES => 9
  | TIMES_OP => 10 | DIVIDED => 11 | DOES_NOT_EQUAL => 12
  | IS_GREATER_THAN => 13 | IS_LESS_THAN => 14 | IS_AT_LEAST => 15
  | IS_AT_MOST => 16 | IS => 17 | BECOMES => 18 | SAY => 19 | PRINT => 20
  | CLEAR => 21 | SHOW => 22 | ASK => 23 | FOR => 24 | IF => 25
  | THEN => 26 | OTHERWISE => 27 | REPEAT => 28 | FOREVER => 29
  | UNTIL => 30 | DO => 31 | BREAK => 32 | CONTINUE => 33 | STOP => 34
  | DEFINE => 35 | WITH => 36 | RETURN => 37 | END => 38 | WHEN => 39
  | MATCH => 40 | TO => 41 | ADD => 42 | REMOVE => 43 | FROM => 44
  | AT => 45 | SORT => 46 | REVERSE => 47 | SHUFFLE => 48 | FIND => 49
  | IN => 50 | FILTER => 51 | WHERE => 52 | MAP => 53 | USING => 54
  | ITEM => 55 | DICTIONARY => 56 | OBJECT => 57 | SPLIT => 58 | BY => 59
  | JOIN => 60 | REPLACE => 61 | GET => 62 | WRITE => 63 | READ => 64
  | FILE => 65 | CREATE => 66 | CANVAS => 67 | DRAW => 68 | CIRCLE => 69
  | RECTANGLE => 70 | LINE => 71 | TEXT => 72 | COLOR => 73 | SIZE => 74
  | MOUSE => 75 | CLICKS => 76 | ON => 77 | WAIT => 78 | SECONDS => 79
  | AFTER => 80 | EVERY => 81 | AND => 82 | OR => 83 | NOT => 84
  | PLUS => 85 | MINUS => 86 | INCREASE => 87 | DECREASE => 88 | YES => 89
  | NO => 90 | NUMBER_TYPE => 91 | SCREEN => 92 | TABLE => 93
  | HEADERS => 94 | DATA => 95 | ROWS => 96 | USE => 97 | INSTALL => 98
  | PYTHON => 99 | CALL => 100 | SERVER => 101 | PORT => 102 | JOB => 103
  | CRON => 104 | TRUE => 105 | FALSE => 106 | NOTHING => 107 | PI => 108
  | EQUALS => 109 | WITH_JOIN => 110 | TO_FILE => 111
  end%N.

Definition TokenType_eqb (a b : TokenType) : bool :=
  (TokenType_code a =? TokenType_code b)%N.

(** The literal a token carries: nothing, an [int] or a [str]. *)
Inductive payload : Type :=
| PNone
| PInt (n : Z)
| PStr (s : string).

Record Token : Type := mkToken {
  type : TokenType;
  tvalue : payload;
  tline : nat;
  tcolumn : nat
}.

Module Lexer.
Import PyStr.

(** The lexer's cursor: [self.pos], [self.line], [self.column].  The
    text is fixed and passed alongside. *)
Record t : Type := mk { pos : nat; line : nat; column : nat }.

Definition start : t := {| pos := 0; line := 1; column := 1 |}.

Definition current_char (text : string) (lx : t) : option ascii :=
  String.get (pos lx) text.

Definition peek (text : string) (lx : t) (n : nat) : option ascii :=
  if (String.length text <=? pos lx + n)%nat then None
  else String.get (pos lx + n) text.

Definition advance (text : string) (lx : t) : t :=
  match String.get (pos lx) text with
  | Some "010"%char =>
      {| pos := S (pos lx); line := S (line lx); column := 1 |}
  | _ => {| pos := S (pos lx); line := line lx; column := S (column lx) |}
  end.

(** [self.pos += n; self.column += n] *)
Definition jump (n : nat) (lx : t) : t :=
  {| pos := pos lx + n; line := line lx; column := column lx + n |}.

(** The characters still ahead: every loop below consumes one character
    per round, so it makes at most this many rounds. *)
Definition remaining (text : string) (lx : t) : nat :=
  S (String.length text - pos lx).

(** [while p(current_char()): advance()] *)
Fixpoint advance_while (n : nat) (p : ascii -> bool) (text : string) (lx : t) : t :=
  match n with
  | O => lx
  | S n' =>
      match current_char text lx with
      | Some c => if p c then advance_while n' p text (advance text lx) else lx
      | None => lx
      end
  end.

Definition is_blank (c : ascii) : bool :=
  Ascii.eqb c " " || Ascii.eqb c "009" || Ascii.eqb c "013".

Definition skip_whitespace (text : string) (lx : t) : t :=
  advance_while (remaining text lx) is_blank text lx.

Definition skip_comment (text : string) (lx : t) : t :=
  match current_char text lx with
  | Some "#"%char =>
      advance_while (remaining text lx)
        (fun c => negb (Ascii.eqb c "010")) text lx
  | _ => lx
  end.

(** The value of a run of decimal digits; [None] at a character that
    passed [isdigit] and is no decimal digit. *)
Fixpoint digits_value (acc : Z) (s : string) : option Z :=
  match s with
  | EmptyString => Some acc
  | String c s' =>
      if between 48 57 c
      then digits_value (10 * acc + Z.of_N (ord c - 48)) s'
      else None
  end.

(** [int(num_str)] for a run of characters that passed [isdigit]: it
    raises [ValueError] on a digit that is no decimal digit and on more
    than [int_max_str_digits] digits. *)
Definition int_of_digits (num_str : string) : option Z :=
  if (int_max_str_digits <? String.length num_str)%nat then None
  else digits_value 0 num_str.

Fixpoint read_number_loop (n : nat) (text : string) (has_dot : bool) (lx : t)
  : bool * t :=
  match n with
  | O => (has_dot, lx)
  | S n' =>
      match current_char text lx with
      | Some c =>
          if isdigit c then read_number_loop n' text has_dot (advance text lx)
          else if Ascii.eqb c "."
               then if has_dot then (has_dot, lx)
                    else read_number_loop n' text true (advance text lx)
               else (has_dot, lx)
      | None => (has_dot, lx)
      end
  end.

Definition read_number (text : string) (lx : t) : outcome (Token * t) :=
  let start_pos := pos lx in
  let start_col := column lx in
  let '(has_dot, lx') := read_number_loop (remaining text lx) text false lx in
  let num_str := slice text start_pos (pos lx') in
  if has_dot then Unmodelled "float literal"
  else match int_of_digits num_str with
       | Some v => Ok (mkToken NUMBER (PInt v) (line lx') start_col, lx')
       | None => Raise ValueError
       end.

Fixpoint read_string_loop (n : nat) (text : string) (quote : ascii)
    (value : string) (lx : t) : outcome (string * t) :=
  match n with
  | O => Ok (value, lx)
  | S n' =>
      match current_char text lx with
      | None => Ok (value, lx)
      | Some c =>
          if Ascii.eqb c quote then Ok (value, lx)
          else if Ascii.eqb c "\"
          then
            let lx1 := advance text lx in
            match current_char text lx1 with
            | None => Raise TypeError
            | Some e =>
                let add :=
                  if Ascii.eqb e "n" then "010"%char
                  else if Ascii.eqb e "t" then "009"%char
                  else e in
                read_string_loop n' text quote
                  (value +:+ String add EmptyString) (advance text lx1)
            end
          else read_string_loop n' text quote
                 (value +:+ String c EmptyString) (advance text lx)
      end
  end.

Definition read_string (text : string) (lx : t) : outcome (Token * t) :=
  let start_col := column lx in
  match current_char text lx with
  | None => Raise TypeError
  | Some quote =>
      let lx1 := advance text lx in
      match read_string_loop (remaining text lx1) text quote EmptyString lx1 with
      | Ok (value, lx2) =>
          let lx3 :=
            match current_char text lx2 with
            | Some c => if Ascii.eqb c quote then advance text lx2 else lx2
            | None => lx2
            end in
          Ok (mkToken STRING (PStr value) (line lx3) start_col, lx3)
      | Raise e => Raise e
      | Unmodelled w => Unmodelled w
      | OutOfFuel => OutOfFuel
      end
  end.

Definition keyword_map : list (string * TokenType) :=
  [ ("is", IS); ("becomes", BECOMES); ("say", SAY); ("print", PRINT);
    ("clear", CLEAR); ("show", SHOW); ("ask", ASK); ("for", FOR);
    ("if", IF); ("then", THEN); ("otherwise", OTHERWISE);
    ("repeat", REPEAT); ("forever", FOREVER); ("times", TIMES);
    ("until", UNTIL); ("do", DO); ("break", BREAK);
    ("continue", CONTINUE); ("stop", STOP); ("define", DEFINE);
    ("with", WITH); ("return", RETURN); ("end", END); ("when", WHEN);
    ("match", MATCH); ("to", TO); ("add", ADD); ("remove", REMOVE);
    ("from", FROM); ("at", AT); ("sort", SORT); ("reverse", REVERSE);
    ("shuffle", SHUFFLE); ("find", FIND); ("in", IN); ("filter", FILTER);
    ("where", WHERE); ("map", MAP); ("using", USING); ("item", ITEM);
    ("dictionary", DICTIONARY); ("object", OBJECT); ("split", SPLIT);
    ("by", BY); ("join", JOIN); ("replace", REPLACE); ("get", GET);
    ("write", WRITE); ("read", READ); ("file", FILE); ("create", CREATE);
    ("canvas", CANVAS); ("draw", DRAW); ("circle", CIRCLE);
    ("rectangle", RECTANGLE); ("line", LINE); ("text", TEXT);
    ("color", COLOR); ("size", SIZE); ("mouse", MOUSE);
    ("clicks", CLICKS); ("on", ON); ("wait", WAIT); ("seconds", SECONDS);
    ("after", AFTER); ("every", EVERY); ("and", AND); ("or", OR);
    ("not", NOT); ("plus", PLUS); ("minus", MINUS);
    ("increase", INCREASE); ("decrease", DECREASE); ("yes", YES);
    ("no", NO); ("number", NUMBER_TYPE); ("screen", SCREEN);
    ("table", TABLE); ("headers", HEADERS); ("data", DATA);
    ("rows", ROWS); ("use", USE); ("install", INSTALL);
    ("python", PYTHON); ("call", CALL); ("server", SERVER);
    ("port", PORT); ("job", JOB); ("cron", CRON); ("true", TRUE);
    ("false", FALSE); ("nothing", NOTHING); ("pi", PI);
    ("equals", EQUALS) ].

Fixpoint lookup_keyword (word : string) (m : list (string * TokenType))
  : option TokenType :=
  match m with
  | [] => None
  | (k, ty) :: m' => if String.eqb word k then Some ty else lookup_keyword word m'
  end.

(** The suffixes that make a preceding context announce a loop count. *)
Definition times_contexts : list string :=
  ["repeat"; "0"; "1"; "2"; "3"; "4"; "5"; "6"; "7"; "8"; "9"].

(** The [word == "times"] case of [read_identifier_or_keyword]. *)
Definition times_token (text : string) (start_pos start_col : nat) (lx : t)
  : Token :=
  let peek_char := current_char text lx in
  let at_gap :=
    match peek_char with
    | None => true
    | Some c => Ascii.eqb c " " || Ascii.eqb c "010"
    end in
  let lookback_start := (start_pos - 20)%nat in
  let context_before := strip (lower (slice text lookback_start start_pos)) in
  if at_gap && endswith_any context_before times_contexts
  then mkToken TIMES PNone (line lx) start_col
  else mkToken TIMES_OP PNone (line lx) start_col.

(** [self.pos = saved_pos; self.column = saved_col]: what a lookahead
    that fails puts back.  [self.line] stays as the lookahead left it. *)
Definition restore (saved : t) (lx : t) : t :=
  {| pos := pos saved; line := line lx; column := column saved |}.

(** The [word == "does"] lookahead: the token and the cursor after it,
    or the cursor it restores.  Its [advance] steps over the character
    after the word, which is a newline when [does] ends a line: the
    restored cursor is then one line further. *)
Definition does_not_equal (text : string) (start_col : nat) (lx : t)
  : Token * t + t :=
  match peek text lx 1 with
  | Some " "%char =>
      let lx1 := advance text lx in
      if String.eqb (lower (slice text (pos lx1) (pos lx1 + 3))) "not"
      then
        let lx2 := jump 3 lx1 in
        if String.eqb (slice text (pos lx2) (pos lx2 + 1)) " "
        then
          let lx3 := jump 1 lx2 in
          if String.eqb (lower (slice text (pos lx3) (pos lx3 + 5))) "equal"
          then
            let lx4 := jump 5 lx3 in
            inl (mkToken DOES_NOT_EQUAL PNone (line lx4) start_col, lx4)
          else inr (restore lx lx3)
        else inr (restore lx lx2)
      else inr (restore lx lx1)
  | _ => inr lx
  end.

(** The inner loop of the [word == "is"] lookahead: it gathers
    [next_word], skipping the spaces before it. *)
Fixpoint next_word_loop (n : nat) (text : string) (next_word : string) (lx : t)
  : string * t :=
  match n with
  | O => (next_word, lx)
  | S n' =>
      match current_char text lx with
      | Some c =>
          if isalnum c || Ascii.eqb c " " then
            if Ascii.eqb c " " then
              match next_word with
              | EmptyString => next_word_loop n' text next_word (advance text lx)
              | _ => (next_word, lx)
              end
            else next_word_loop n' text
                   (next_word +:+ String c EmptyString) (advance text lx)
          else (next_word, lx)
      | None => (next_word, lx)
      end
  end.

(** The [word == "is"] lookahead; [None] when it restores the cursor. *)
Definition is_comparison (text : string) (start_col : nat) (lx : t)
  : option (Token * t) :=
  match current_char text lx with
  | Some " "%char =>
      let lx1 := advance text lx in
      let '(next_word, lx2) :=
        next_word_loop (remaining text lx1) text EmptyString lx1 in
      let ahead n := lower (slice text (pos lx2) (pos lx2 + n)) in
      if String.eqb next_word "greater" then
        if String.eqb (ahead 5%nat) " than"
        then let lx3 := jump 5 lx2 in
             Some (mkToken IS_GREATER_THAN PNone (line lx3) start_col, lx3)
        else None
      else if String.eqb next_word "less" then
        if String.eqb (ahead 5%nat) " than"
        then let lx3 := jump 5 lx2 in
             Some (mkToken IS_LESS_THAN PNone (line lx3) start_col, lx3)
        else None
      else if String.eqb next_word "at" then
        if String.eqb (ahead 6%nat) " least"
        then let lx3 := jump 6 lx2 in
             Some (mkToken IS_AT_LEAST PNone (line lx3) start_col, lx3)
        else if String.eqb (ahead 4%nat) " most"
        then let lx3 := jump 4 lx2 in
             Some (mkToken IS_AT_MOST PNone (line lx3) start_col, lx3)
        else None
      else None
  | _ => None
  end.

(** The [word == "divided"] lookahead; [None] when it restores. *)
Definition divided_by (text : string) (start_col : nat) (lx : t)
  : option (Token * t) :=
  match current_char text lx with
  | Some " "%char =>
      let lx1 := advance text lx in
      if String.eqb (lower (slice text (pos lx1) (pos lx1 + 3))) "by "
      then let lx2 := jump 3 lx1 in
           Some (mkToken DIVIDED PNone (line lx2) start_col, lx2)
      else None
  | _ => None
  end.

Definition or_else {A} (o : option A) (k : option A) : option A :=
  match o with Some a => Some a | None => k end.

Definition is_word_char (c : ascii) : bool := isalnum c || Ascii.eqb c "_".

Definition read_identifier_or_keyword (text : string) (lx0 : t) : Token * t :=
  let start_pos := pos lx0 in
  let start_col := column lx0 in
  let lx := advance_while (remaining text lx0) is_word_char text lx0 in
  let word := lower (slice text start_pos (pos lx)) in
  if String.eqb word "times" then (times_token text start_pos start_col lx, lx)
  else
    match (if String.eqb word "does"
           then does_not_equal text start_col lx else inr lx) with
    | inl r => r
    | inr lx =>
        let special :=
          or_else (if String.eqb word "is"
                   then is_comparison text start_col lx else None)
                  (if String.eqb word "divided"
                   then divided_by text start_col lx else None) in
        match special with
        | Some r => r
        | None =>
            match lookup_keyword word keyword_map with
            | Some ty => (mkToken ty PNone (line lx) start_col, lx)
            | None => (mkToken IDENTIFIER (PStr word) (line lx) start_col, lx)
            end
        end
    end.

(** The punctuation marks [tokenize] turns into tokens of their own. *)
Definition punctuation (c : ascii) : option TokenType :=
  if Ascii.eqb c "." then Some DOT
  else if Ascii.eqb c "[" then Some LBRACKET
  else if Ascii.eqb c "]" then Some RBRACKET
  else if Ascii.eqb c "," then Some COMMA
  else None.

(** The [while self.pos < len(self.text)] loop of [tokenize]; [tokens]
    is [self.tokens]. *)
Fixpoint tokenize_loop (fuel : nat) (text : string) (tokens : list Token) (lx0 : t)
  : outcome (list Token * t) :=
  match fuel with
  | O => OutOfFuel
  | S fuel' =>
      if (String.length text <=? pos lx0)%nat then Ok (tokens, lx0)
      else
        let lx := skip_whitespace text lx0 in
        match current_char text lx with
        | None => Ok (tokens, lx)
        | Some c =>
            if Ascii.eqb c "#"
            then tokenize_loop fuel' text tokens (skip_comment text lx)
            else if Ascii.eqb c "010"
            then tokenize_loop fuel' text
                   (tokens ++ [mkToken NEWLINE PNone (line lx) (column lx)])
                   (advance text lx)
            else if isdigit c
            then match read_number text lx with
                 | Ok (tok, lx') => tokenize_loop fuel' text (tokens ++ [tok]) lx'
                 | Raise e => Raise e
                 | Unmodelled w => Unmodelled w
                 | OutOfFuel => OutOfFuel
                 end
            else if Ascii.eqb c "034" || Ascii.eqb c "'"
            then match read_string text lx with
                 | Ok (tok, lx') => tokenize_loop fuel' text (tokens ++ [tok]) lx'
                 | Raise e => Raise e
                 | Unmodelled w => Unmodelled w
                 | OutOfFuel => OutOfFuel
                 end
            else match punctuation c with
                 | Some ty =>
                     tokenize_loop fuel' text
                       (tokens ++ [mkToken ty PNone (line lx) (column lx)])
                       (advance text lx)
                 | None =>
                     if Ascii.eqb c "="
                     then tokenize_loop fuel' text tokens (advance text lx)
                     else if isalpha c || Ascii.eqb c "_"
                     then let '(tok, lx') := read_identifier_or_keyword text lx in
                          tokenize_loop fuel' text (tokens ++ [tok]) lx'
                     else tokenize_loop fuel' text tokens (advance text lx)
                 end
        end
  end.

(** [Lexer(text).tokenize()].  Every round of the loop consumes at least
    one character, so the length of the text bounds the rounds. *)
Definition tokenize (text : string) : outcome (list Token) :=
  match tokenize_loop (S (String.length text)) text [] start with
  | Ok (tokens, lx) => Ok (tokens ++ [mkToken EOF PNone (line lx) (column lx)])
  | Raise e => Raise e
  | Unmodelled w => Unmodelled w
  | OutOfFuel => OutOfFuel
  end.

End Lexer.

(** ** ast_nodes.py *)

Set Warnings "-register-all".

(** The expression nodes of the fragment.  Operators are the strings the
    parser stores in [node.op]. *)
Inductive expr : Type :=
| NumberLiteral (value : Z)
| StringLiteral (value : string)
| BooleanLiteral (value : bool)
| NothingLiteral
| Identifier (name : string)
| BinaryOp (left : expr) (op : string) (right : expr)
| UnaryOp (op : string) (operand : expr)
| IndexAccess (obj : expr) (index : expr)
| ListLiteral (elements : list expr)
| FunctionCall (name : string) (args : list expr)
| FilterExpression (list_expr : expr) (condition : expr)
| MapExpression (list_expr : expr) (transform : expr).

(** The statement nodes of the fragment.  [CallStatement] is a
    [FunctionCall] node in statement position, as
    [parse_assignment_or_mutation] returns it. *)
Inductive stmt : Type :=
| Assignment (target : expr) (value : expr)
| Mutation (target : expr) (op : string) (value : expr)
| SayStatement (parts : list expr)
| PrintStatement (e : expr)
| IfStatement (condition : expr) (then_block : list stmt)
    (else_block : option (list stmt))
| RepeatForever (body : list stmt)
| RepeatTimes (count : expr) (body : list stmt)
| RepeatUntil (condition : expr) (body : list stmt)
| DoUntil (body : list stmt) (condition : expr)
| BreakStatement
| ContinueStatement
| StopStatement
| FunctionDef (name : string) (params : list string) (body : list stmt)
| ReturnStatement (value : option expr)
| ListAdd (list_expr : expr) (value : expr)
| CallStatement (name : string) (args : list expr).

Definition Program := list stmt.

(** ** The outcome monad *)

Global Instance outcome_ret : MRet outcome := fun A a => Ok a.

Global Instance outcome_bind : MBind outcome := fun A B k m =>
  match m with
  | Ok a => k a
  | Raise e => Raise e
  | Unmodelled w => Unmodelled w
  | OutOfFuel => OutOfFuel
  end.

(** ** parser.py *)

Module Parser.

Section WithTokens.
(** [self.tokens]; the cursor [self.pos] is threaded through. *)
Variable tokens : list Token.

Definition current_token (pos : nat) : option Token := nth_error tokens pos.

Definition advance (pos : nat) : nat :=
  if (pos <? length tokens)%nat then S pos else pos.

(** [self.match(...)] with the given token types *)
Definition match_ (pos : nat) (token_types : list TokenType) : bool :=
  match current_token pos with
  | None => false
  | Some token => existsb (TokenType_eqb (type token)) token_types
  end.

Definition expect (token_type : TokenType) (pos : nat) : outcome (Token * nat) :=
  match current_token pos with
  | Some token =>
      if TokenType_eqb (type token) token_type
      then Ok (token, advance pos) else Raise SyntaxError
  | None => Raise SyntaxError
  end.

(** [self.expect(token_type).value] where the payload is a [str]. *)
Definition expect_str (token_type : TokenType) (pos : nat)
  : outcome (string * nat) :=
  '(token, pos') ← expect token_type pos;
  match tvalue token with
  | PStr s => Ok (s, pos')
  | _ => Unmodelled "token payload"
  end.

Fixpoint skip_newlines_loop (n : nat) (pos : nat) : nat :=
  match n with
  | O => pos
  | S n' => if match_ pos [NEWLINE] then skip_newlines_loop n' (advance pos)
            else pos
  end.

(** [while self.match(NEWLINE): self.advance()]: past the last token
    [match] is false, so the tokens lhs bound the rounds. *)
Definition skip_newlines (pos : nat) : nat :=
  skip_newlines_loop (length tokens - pos) pos.

(** The parameter names of [parse_function_def]. *)
Fixpoint params_loop (n : nat) (params : list string) (pos : nat)
  : outcome (list string * nat) :=
  match n with
  | O => Ok (params, pos)
  | S n' =>
      if match_ pos [IDENTIFIER]
      then '(name, pos') ← expect_str IDENTIFIER pos;
           params_loop n' (params ++ [name]) pos'
      else Ok (params, pos)
  end.

(** Token kinds that open an argument of a call without parentheses. *)
Definition opens_value : list TokenType :=
  [NUMBER; STRING; IDENTIFIER; TRUE; FALSE; NOTHING; PI; NOT].

(** Token kinds that end the arguments of a call in an expression. *)
Definition ends_call : list TokenType :=
  [NEWLINE; EOF; END; AND; OR; THEN; OTHERWISE; UNTIL; TIMES; DO; FROM;
   AT; TO; WHERE; USING; BY; WITH].

Definition comparison_ops : list (TokenType * string) :=
  [(EQUALS, "equals"); (DOES_NOT_EQUAL, "does_not_equal");
   (IS_GREATER_THAN, "is_greater_than"); (IS_LESS_THAN, "is_less_than");
   (IS_AT_LEAST, "is_at_least"); (IS_AT_MOST, "is_at_most")].

Fixpoint comparison_op (pos : nat) (ops : list (TokenType * string))
  : option string :=
  match ops with
  | [] => None
  | (ty, op) :: ops' =>
      if match_ pos [ty] then Some op else comparison_op pos ops'
  end.

(** Leading keywords of statements outside the fragment. *)
Definition unmodelled_statements : list TokenType :=
  [CLEAR; SHOW; ASK; MATCH; REMOVE; SORT; REVERSE; SHUFFLE; WRITE; DRAW;
   WHEN; WAIT; AFTER; EVERY; USE; INSTALL; SERVER; JOB; CRON].

(** Leading keywords of expressions outside the fragment. *)
Definition unmodelled_factors : list TokenType :=
  [PI; DICTIONARY; OBJECT; FIND; SPLIT; JOIN; REPLACE; GET; READ; CREATE;
   PYTHON].

Fixpoint parse_expression (fuel : nat) (pos : nat) {struct fuel}
  : outcome (expr * nat) :=
  match fuel with
  | O => OutOfFuel
  | S f => parse_or f pos
  end

with parse_or (fuel : nat) (pos : nat) {struct fuel} : outcome (expr * nat) :=
  match fuel with
  | O => OutOfFuel
  | S f => '(lhs, pos1) ← parse_and f pos; parse_or_loop f lhs pos1
  end

with parse_or_loop (fuel : nat) (lhs : expr) (pos : nat) {struct fuel}
  : outcome (expr * nat) :=
  match fuel with
  | O => OutOfFuel
  | S f =>
      if match_ pos [OR] then
        '(rhs, pos1) ← parse_and f (advance pos);
        parse_or_loop f (BinaryOp lhs "or" rhs) pos1
      else Ok (lhs, pos)
  end

with parse_and (fuel : nat) (pos : nat) {struct fuel} : outcome (expr * nat) :=
  match fuel with
  | O => OutOfFuel
  | S f => '(lhs, pos1) ← parse_not f pos; parse_and_loop f lhs pos1
  end

with parse_and_loop (fuel : nat) (lhs : expr) (pos : nat) {struct fuel}
  : outcome (expr * nat) :=
  match fuel with
  | O => OutOfFuel
  | S f =>
      if match_ pos [AND] then
        '(rhs, pos1) ← parse_not f (advance pos);
        parse_and_loop f (BinaryOp lhs "and" rhs) pos1
      else Ok (lhs, pos)
  end

with parse_not (fuel : nat) (pos : nat) {struct fuel} : outcome (expr * nat) :=
  match fuel with
  | O => OutOfFuel
  | S f =>
      if match_ pos [NOT] then
        '(operand, pos1) ← parse_comparison f (advance pos);
        Ok (UnaryOp "not" operand, pos1)
      else parse_comparison f pos
  end

with parse_comparison (fuel : nat) (pos : nat) {struct fuel}
  : outcome (expr * nat) :=
  match fuel with
  | O => OutOfFuel
  | S f =>
      '(lhs, pos1) ← parse_arithmetic f pos;
      match comparison_op pos1 comparison_ops with
      | Some op =>
          '(rhs, pos2) ← parse_arithmetic f (advance pos1);
          Ok (BinaryOp lhs op rhs, pos2)
      | None => Ok (lhs, pos1)
      end
  end

with parse_arithmetic (fuel : nat) (pos : nat) {struct fuel}
  : outcome (expr * nat) :=
  match fuel with
  | O => OutOfFuel
  | S f => '(lhs, pos1) ← parse_term f pos; parse_arithmetic_loop f lhs pos1
  end

with parse_arithmetic_loop (fuel : nat) (lhs : expr) (pos : nat) {struct fuel}
  : outcome (expr * nat) :=
  match fuel with
  | O => OutOfFuel
  | S f =>
      if match_ pos [PLUS; MINUS] then
        let op := if match_ pos [PLUS] then "plus" else "minus" in
        '(rhs, pos1) ← parse_term f (advance pos);
        parse_arithmetic_loop f (BinaryOp lhs op rhs) pos1
      else Ok (lhs, pos)
  end

with parse_term (fuel : nat) (pos : nat) {struct fuel} : outcome (expr * nat) :=
  match fuel with
  | O => OutOfFuel
  | S f => '(lhs, pos1) ← parse_factor f pos; parse_term_loop f lhs pos1
  end

with parse_term_loop (fuel : nat) (lhs : expr) (pos : nat) {struct fuel}
  : outcome (expr * nat) :=
  match fuel with
  | O => OutOfFuel
  | S f =>
      if match_ pos [TIMES_OP; DIVIDED] then
        if match_ pos [TIMES_OP] then
          '(rhs, pos1) ← parse_factor f (advance pos);
          parse_term_loop f (BinaryOp lhs "times" rhs) pos1
        else
          '(_, pos1) ← expect BY (advance pos);
          '(rhs, pos2) ← parse_factor f pos1;
          parse_term_loop f (BinaryOp lhs "divided_by" rhs) pos2
      else Ok (lhs, pos)
  end

with parse_factor (fuel : nat) (pos : nat) {struct fuel} : outcome (expr * nat) :=
  match fuel with
  | O => OutOfFuel
  | S f =>
      match current_token pos with
      | None => Raise SyntaxError
      | Some token =>
          if match_ pos [NUMBER] then
            match tvalue token with
            | PInt n => Ok (NumberLiteral n, advance pos)
            | _ => Unmodelled "token payload"
            end
          else if match_ pos [STRING] then
            match tvalue token with
            | PStr s => Ok (StringLiteral s, advance pos)
            | _ => Unmodelled "token payload"
            end
          else if match_ pos [TRUE] then Ok (BooleanLiteral true, advance pos)
          else if match_ pos [FALSE] then Ok (BooleanLiteral false, advance pos)
          else if match_ pos [NOTHING] then Ok (NothingLiteral, advance pos)
          else if match_ pos [PI] then Unmodelled "pi"
          else if match_ pos [IDENTIFIER] then
            match tvalue token with
            | PStr name =>
                let pos1 := advance pos in
                if match_ pos1 [DOT] then Unmodelled "property access"
                else if match_ pos1 [LBRACKET] then
                  '(index, pos2) ← parse_expression f (advance pos1);
                  '(_, pos3) ← expect RBRACKET pos2;
                  parse_postfix f (IndexAccess (Identifier name) index) pos3
                else if match_ pos1 [AT] then
                  '(index, pos2) ← parse_expression f (advance pos1);
                  parse_postfix f (IndexAccess (Identifier name) index) pos2
                else if match_ pos1 opens_value then
                  '(args, pos2) ← parse_call_args f [] pos1;
                  Ok (FunctionCall name args, pos2)
                else parse_postfix f (Identifier name) pos1
            | _ => Unmodelled "token payload"
            end
          else if match_ pos [LBRACKET] then parse_list_literal f pos
          else if match_ pos [DICTIONARY; OBJECT; FIND] then
            Unmodelled "expression"
          else if match_ pos [FILTER] then parse_filter f pos
          else if match_ pos [MAP] then parse_map f pos
          else if match_ pos unmodelled_factors then Unmodelled "expression"
          else Raise SyntaxError
      end
  end

(** The argument loop of a call in [parse_factor]. *)
with parse_call_args (fuel : nat) (args : list expr) (pos : nat) {struct fuel}
  : outcome (list expr * nat) :=
  match fuel with
  | O => OutOfFuel
  | S f =>
      if match_ pos ends_call then Ok (args, pos)
      else if match_ pos opens_value then
        '(arg, pos1) ← parse_expression f pos;
        parse_call_args f (args ++ [arg]) pos1
      else Ok (args, pos)
  end

(** The trailing [while True] of [parse_factor]: [.prop], [[idx]],
    [at idx]. *)
with parse_postfix (fuel : nat) (e : expr) (pos : nat) {struct fuel}
  : outcome (expr * nat) :=
  match fuel with
  | O => OutOfFuel
  | S f =>
      if match_ pos [DOT] then Unmodelled "property access"
      else if match_ pos [LBRACKET] then
        '(index, pos1) ← parse_expression f (advance pos);
        '(_, pos2) ← expect RBRACKET pos1;
        parse_postfix f (IndexAccess e index) pos2
      else if match_ pos [AT] then
        '(index, pos1) ← parse_expression f (advance pos);
        parse_postfix f (IndexAccess e index) pos1
      else Ok (e, pos)
  end

with parse_list_literal (fuel : nat) (pos : nat) {struct fuel}
  : outcome (expr * nat) :=
  match fuel with
  | O => OutOfFuel
  | S f =>
      '(_, pos1) ← expect LBRACKET pos;
      '(elements, pos2) ←
        (if match_ pos1 [RBRACKET] then Ok ([], pos1)
         else '(e, p) ← parse_expression f pos1; parse_elements f [e] p);
      '(_, pos3) ← expect RBRACKET pos2;
      Ok (ListLiteral elements, pos3)
  end

with parse_elements (fuel : nat) (elements : list expr) (pos : nat)
    {struct fuel} : outcome (list expr * nat) :=
  match fuel with
  | O => OutOfFuel
  | S f =>
      if match_ pos [COMMA] then
        '(e, pos1) ← parse_expression f (advance pos);
        parse_elements f (elements ++ [e]) pos1
      else Ok (elements, pos)
  end

with parse_filter (fuel : nat) (pos : nat) {struct fuel} : outcome (expr * nat) :=
  match fuel with
  | O => OutOfFuel
  | S f =>
      '(_, pos1) ← expect FILTER pos;
      '(list_expr, pos2) ← parse_expression f pos1;
      '(_, pos3) ← expect WHERE pos2;
      '(condition, pos4) ← parse_expression f pos3;
      Ok (FilterExpression list_expr condition, pos4)
  end

with parse_map (fuel : nat) (pos : nat) {struct fuel} : outcome (expr * nat) :=
  match fuel with
  | O => OutOfFuel
  | S f =>
      '(_, pos1) ← expect MAP pos;
      '(list_expr, pos2) ← parse_expression f pos1;
      '(_, pos3) ← expect USING pos2;
      '(transform, pos4) ← parse_expression f pos3;
      Ok (MapExpression list_expr transform, pos4)
  end.

(** The [.prop] / [[idx]] chain of an assignment target. *)
Fixpoint parse_target (fuel : nat) (target : expr) (pos : nat) {struct fuel}
  : outcome (expr * nat) :=
  match fuel with
  | O => OutOfFuel
  | S f =>
      if match_ pos [DOT] then Unmodelled "property access"
      else if match_ pos [LBRACKET] then
        '(index, pos1) ← parse_expression f (advance pos);
        '(_, pos2) ← expect RBRACKET pos1;
        parse_target f (IndexAccess target index) pos2
      else Ok (target, pos)
  end.

(** The argument loop of a call in statement position. *)
Fixpoint parse_statement_args (fuel : nat) (args : list expr) (pos : nat)
    {struct fuel} : outcome (list expr * nat) :=
  match fuel with
  | O => OutOfFuel
  | S f =>
      if match_ pos [NEWLINE; EOF; END] then Ok (args, pos)
      else if match_ pos (opens_value ++ [LBRACKET]) then
        '(arg, pos1) ← parse_expression f pos;
        parse_statement_args f (args ++ [arg]) pos1
      else Ok (args, pos)
  end.

Definition parse_assignment_or_mutation (fuel : nat) (pos : nat)
  : outcome (stmt * nat) :=
  match fuel with
  | O => OutOfFuel
  | S f =>
      '(name, pos1) ← expect_str IDENTIFIER pos;
      '(target, pos2) ← parse_target f (Identifier name) pos1;
      if match_ pos2 [IS] then
        let pos3 := advance pos2 in
        if match_ pos3 [ADD] then Unmodelled "post request"
        else if match_ pos3 [DICTIONARY] then Unmodelled "dictionary literal"
        else if match_ pos3 [OBJECT] then Unmodelled "object literal"
        else '(value, pos4) ← parse_expression f pos3;
             Ok (Assignment target value, pos4)
      else if match_ pos2 [BECOMES] then
        '(value, pos3) ← parse_expression f (advance pos2);
        Ok (Mutation target "becomes" value, pos3)
      else if match_ pos2 [INCREASE] then
        '(_, pos3) ← expect BY (advance pos2);
        '(value, pos4) ← parse_expression f pos3;
        Ok (Mutation target "increase" value, pos4)
      else if match_ pos2 [DECREASE] then
        '(_, pos3) ← expect BY (advance pos2);
        '(value, pos4) ← parse_expression f pos3;
        Ok (Mutation target "decrease" value, pos4)
      else
        '(args, pos3) ← parse_statement_args f [] pos2;
        Ok (CallStatement name args, pos3)
  end.

Fixpoint parse_say_parts (fuel : nat) (parts : list expr) (pos : nat)
    {struct fuel} : outcome (list expr * nat) :=
  match fuel with
  | O => OutOfFuel
  | S f =>
      if match_ pos [AND] then
        '(e, pos1) ← parse_expression f (advance pos);
        parse_say_parts f (parts ++ [e]) pos1
      else Ok (parts, pos)
  end.

Definition parse_say (fuel : nat) (pos : nat) : outcome (stmt * nat) :=
  match fuel with
  | O => OutOfFuel
  | S f =>
      '(_, pos1) ← expect SAY pos;
      '(e, pos2) ← parse_expression f pos1;
      '(parts, pos3) ← parse_say_parts f [e] pos2;
      Ok (SayStatement parts, pos3)
  end.

Definition parse_print (fuel : nat) (pos : nat) : outcome (stmt * nat) :=
  match fuel with
  | O => OutOfFuel
  | S f =>
      '(_, pos1) ← expect PRINT pos;
      '(e, pos2) ← parse_expression f pos1;
      Ok (PrintStatement e, pos2)
  end.

Definition parse_return (fuel : nat) (pos : nat) : outcome (stmt * nat) :=
  match fuel with
  | O => OutOfFuel
  | S f =>
      '(_, pos1) ← expect RETURN pos;
      if negb (match_ pos1 [NEWLINE; END; EOF]) then
        '(value, pos2) ← parse_expression f pos1;
        Ok (ReturnStatement (Some value), pos2)
      else Ok (ReturnStatement None, pos1)
  end.

Definition parse_list_add (fuel : nat) (pos : nat)
  : outcome (stmt * nat) :=
  match fuel with
  | O => OutOfFuel
  | S f =>
      '(_, pos1) ← expect ADD pos;
      '(value, pos2) ← parse_expression f pos1;
      '(_, pos3) ← expect TO pos2;
      '(list_expr, pos4) ← parse_expression f pos3;
      Ok (ListAdd list_expr value, pos4)
  end.

Fixpoint parse_statement (fuel : nat) (pos0 : nat) {struct fuel}
  : outcome (option stmt * nat) :=
  match fuel with
  | O => OutOfFuel
  | S f =>
      let pos := skip_newlines pos0 in
      if match_ pos [SAY] then
        '(s, p) ← parse_say f pos; Ok (Some s, p)
      else if match_ pos [PRINT] then
        '(s, p) ← parse_print f pos; Ok (Some s, p)
      else if match_ pos [CLEAR; SHOW; ASK] then Unmodelled "statement"
      else if match_ pos [IF] then
        '(s, p) ← parse_if f pos; Ok (Some s, p)
      else if match_ pos [REPEAT] then
        '(s, p) ← parse_repeat f pos; Ok (Some s, p)
      else if match_ pos [DO] then
        '(s, p) ← parse_do_until f pos; Ok (Some s, p)
      else if match_ pos [BREAK] then Ok (Some BreakStatement, advance pos)
      else if match_ pos [CONTINUE] then Ok (Some ContinueStatement, advance pos)
      else if match_ pos [STOP] then Ok (Some StopStatement, advance pos)
      else if match_ pos [DEFINE] then
        '(s, p) ← parse_function_def f pos; Ok (Some s, p)
      else if match_ pos [RETURN] then
        '(s, p) ← parse_return f pos; Ok (Some s, p)
      else if match_ pos [MATCH] then Unmodelled "statement"
      else if match_ pos [ADD] then
        '(s, p) ← parse_list_add f pos; Ok (Some s, p)
      else if match_ pos unmodelled_statements then Unmodelled "statement"
      else if match_ pos [IDENTIFIER] then
        '(s, p) ← parse_assignment_or_mutation f pos; Ok (Some s, p)
      else Ok (None, pos)
  end

(** [while not self.match(stops): stmt = self.parse_statement(); ...;
    self.skip_newlines()], the body loop of every block and of [parse]. *)
with parse_block (fuel : nat) (stops : list TokenType) (body : list stmt)
    (pos : nat) {struct fuel} : outcome (list stmt * nat) :=
  match fuel with
  | O => OutOfFuel
  | S f =>
      if match_ pos stops then Ok (body, pos)
      else
        '(st, pos1) ← parse_statement f pos;
        let body' := match st with Some s => body ++ [s] | None => body end in
        parse_block f stops body' (skip_newlines pos1)
  end

with parse_if (fuel : nat) (pos : nat) {struct fuel} : outcome (stmt * nat) :=
  match fuel with
  | O => OutOfFuel
  | S f =>
      '(_, pos1) ← expect IF pos;
      '(condition, pos2) ← parse_expression f pos1;
      '(_, pos3) ← expect THEN pos2;
      '(then_block, pos4) ←
        parse_block f [OTHERWISE; END] [] (skip_newlines pos3);
      '(else_block, pos5) ←
        (if match_ pos4 [OTHERWISE] then
           '(b, p) ← parse_block f [END] [] (skip_newlines (advance pos4));
           Ok (Some b, p)
         else Ok (None, pos4));
      '(_, pos6) ← expect END pos5;
      Ok (IfStatement condition then_block else_block, pos6)
  end

with parse_repeat (fuel : nat) (pos : nat) {struct fuel} : outcome (stmt * nat) :=
  match fuel with
  | O => OutOfFuel
  | S f =>
      '(_, pos1) ← expect REPEAT pos;
      if match_ pos1 [FOREVER] then
        '(body, pos2) ← parse_block f [END] [] (skip_newlines (advance pos1));
        '(_, pos3) ← expect END pos2;
        Ok (RepeatForever body, pos3)
      else if match_ pos1 [UNTIL] then
        '(condition, pos2) ← parse_expression f (advance pos1);
        '(body, pos3) ← parse_block f [END] [] (skip_newlines pos2);
        '(_, pos4) ← expect END pos3;
        Ok (RepeatUntil condition body, pos4)
      else
        '(count, pos2) ← parse_expression f pos1;
        '(_, pos3) ← expect TIMES pos2;
        '(body, pos4) ← parse_block f [END] [] (skip_newlines pos3);
        '(_, pos5) ← expect END pos4;
        Ok (RepeatTimes count body, pos5)
  end

with parse_do_until (fuel : nat) (pos : nat) {struct fuel}
  : outcome (stmt * nat) :=
  match fuel with
  | O => OutOfFuel
  | S f =>
      '(_, pos1) ← expect DO pos;
      '(body, pos2) ← parse_block f [UNTIL] [] (skip_newlines pos1);
      '(_, pos3) ← expect UNTIL pos2;
      '(condition, pos4) ← parse_expression f pos3;
      Ok (DoUntil body condition, pos4)
  end

with parse_function_def (fuel : nat) (pos : nat) {struct fuel}
  : outcome (stmt * nat) :=
  match fuel with
  | O => OutOfFuel
  | S f =>
      '(_, pos1) ← expect DEFINE pos;
      '(name, pos2) ← expect_str IDENTIFIER pos1;
      '(_, pos3) ← expect WITH pos2;
      '(params, pos4) ← params_loop (length tokens - pos3) [] pos3;
      '(body, pos5) ← parse_block f [END] [] (skip_newlines pos4);
      '(_, pos6) ← expect END pos5;
      Ok (FunctionDef name params body, pos6)
  end.

(** [Parser(tokens).parse()] *)
Definition parse (fuel : nat) : outcome Program :=
  '(statements, _) ← parse_block fuel [EOF] [] (skip_newlines 0);
  Ok statements.

End WithTokens.

End Parser.

(** ** runtime.py *)

Module Runtime.

(** A stored function: the [FunctionDef] object [execute_function_def]
    builds, with the snapshot of the variables taken at definition. *)
Record function : Type := mkFunction {
  name : string;
  params : list string;
  body : list stmt;
  closure_env : gmap string value
}.

(** A [Runtime] object.  The interpreter reaches a scope only through
    [self.runtime] and the [parent] links, and writes only to
    [self.runtime]; a parent is therefore never changed while a child of
    it is alive, and holding it by value is the same as holding the
    reference. *)
Inductive t : Type :=
| mk (variables : gmap string value) (functions : gmap string function)
     (parent : option t).

Definition variables (r : t) : gmap string value :=
  match r with mk v _ _ => v end.
Definition functions (r : t) : gmap string function :=
  match r with mk _ f _ => f end.
Definition parent (r : t) : option t :=
  match r with mk _ _ p => p end.

(** [Runtime()] *)
Definition new (parent : option t) : t := mk ∅ ∅ parent.

Fixpoint get (r : t) (name : string) : outcome value :=
  match r with
  | mk vars _ parent =>
      match vars !! name with
      | Some v => Ok v
      | None =>
          match parent with
          | Some p => get p name
          | None => Raise (NameError ("Variable '" +:+ name +:+ "' not defined"))
          end
      end
  end.

Definition set (r : t) (name : string) (v : value) : t :=
  mk (<[name := v]> (variables r)) (functions r) (parent r).

(** [self.variables.pop(name, None)] *)
Definition pop (r : t) (name : string) : t :=
  mk (delete name (variables r)) (functions r) (parent r).

Definition define_function (r : t) (name : string) (func : function) : t :=
  mk (variables r) (<[name := func]> (functions r)) (parent r).

Fixpoint get_function (r : t) (name : string) : outcome function :=
  match r with
  | mk _ funcs parent =>
      match funcs !! name with
      | Some f => Ok f
      | None =>
          match parent with
          | Some p => get_function p name
          | None => Raise (NameError ("Function '" +:+ name +:+ "' not defined"))
          end
      end
  end.

(** Python's stack, as far as [deepcopy] meets it.  [deepcopy] walks
    all that a function table reaches (every stored function, its body
    and the values of its [closure_env], through the lists of the heap
    they refer to) by recursion, and raises [RecursionError] where that
    takes more frames than the stack has left: a list nested about 500
    deep in a [closure_env] is enough.  How many frames are left at a
    call is outside the embedding, so the answer is a parameter:
    [recursion_error heap functions] is the message of the
    [RecursionError], or [None] when the copy completes. *)
Class Stack : Type :=
  recursion_error : list (list value) -> gmap string function -> option string.

(** [deepcopy(functions)].  [RecursionError] is a [RuntimeError].  A
    stored function is never written to and its [closure_env] never
    read, and the embedding holds the table by value: a copy that
    completes is the table itself. *)
Definition deepcopy {stack : Stack} (heap : list (list value))
    (functions : gmap string function) : outcome (gmap string function) :=
  match recursion_error heap functions with
  | Some msg => Raise (RuntimeError msg)
  | None => Ok functions
  end.

(** [child_scope]: a new scope whose parent is [self], with a deep copy
    of [self.functions]; [heap] is the Python heap the copy walks. *)
Definition child_scope {stack : Stack} (heap : list (list value)) (r : t)
  : outcome t :=
  functions' ← deepcopy heap (functions r);
  Ok (mk ∅ functions' (Some r)).

Fixpoint has (r : t) (name : string) : bool :=
  match r with
  | mk vars _ parent =>
      match vars !! name with
      | Some _ => true
      | None => match parent with Some p => has p name | None => false end
      end
  end.

End Runtime.

(** ** interpreter.py *)

Module Interp.
Import PyStr.

(** The [Interpreter] object together with the Python heap holding the
    list objects.  [output_stream] is the sequence of texts handed to
    [print(..., file=self.output_stream)], each of which the stream
    receives followed by a newline. *)
Record t : Type := mk {
  runtime : Runtime.t;
  heap : list (list value);
  output_stream : list string;
  debug : bool
}.

(** [Interpreter(permissions, output_stream, debug=debug)].  The
    builtins [__init__] registers in the function table are never looked
    up there ([evaluate_function_call] tests [BUILTINS] first), so the
    table starts empty. *)
Definition init (debug : bool) : t :=
  {| runtime := Runtime.new None; heap := []; output_stream := [];
     debug := debug |}.

Definition with_runtime (r : Runtime.t) (st : t) : t :=
  {| runtime := r; heap := heap st; output_stream := output_stream st;
     debug := debug st |}.

Definition with_heap (h : list (list value)) (st : t) : t :=
  {| runtime := runtime st; heap := h; output_stream := output_stream st;
     debug := debug st |}.

(** A computation on the interpreter: it may raise, and what it changed
    before raising stays changed. *)
Definition M (A : Type) : Type := t -> outcome A * t.

Global Instance M_ret : MRet M := fun A a st => (Ok a, st).

Global Instance M_bind : MBind M := fun A B k m st =>
  match m st with
  | (Ok a, st') => k a st'
  | (Raise e, st') => (Raise e, st')
  | (Unmodelled w, st') => (Unmodelled w, st')
  | (OutOfFuel, st') => (OutOfFuel, st')
  end.

Definition raise {A} (e : exn) : M A := fun st => (Raise e, st).
Definition unmodelled {A} (w : string) : M A := fun st => (Unmodelled w, st).
Definition out_of_fuel {A} : M A := fun st => (OutOfFuel, st).
Definition lift {A} (o : outcome A) : M A := fun st => (o, st).
Definition read : M t := fun st => (Ok st, st).
Definition set_runtime (r : Runtime.t) : M unit :=
  fun st => (Ok tt, with_runtime r st).

(** [try: m except ...: handler] *)
Definition try_except {A} (m : M A) (handler : exn -> M A) : M A := fun st =>
  match m st with
  | (Raise e, st') => handler e st'
  | r => r
  end.

(** [try: m finally: cleanup] *)
Definition try_finally {A} (m : M A) (cleanup : M unit) : M A := fun st =>
  let '(r, st') := m st in
  match cleanup st' with
  | (Ok _, st'') => (r, st'')
  | (Raise e, st'') => (Raise e, st'')
  | (Unmodelled w, st'') => (Unmodelled w, st'')
  | (OutOfFuel, st'') => (OutOfFuel, st'')
  end.

(** The interpreter once [s] has been written to its output stream. *)
Definition emit (s : string) (st : t) : t :=
  {| runtime := runtime st; heap := heap st;
     output_stream := output_stream st ++ [s]; debug := debug st |}.

(** [print(s, file=self.output_stream)] *)
Definition print (s : string) : M unit := fun st => (Ok tt, emit s st).

(** A new list object. *)
Definition alloc (xs : list value) : M value := fun st =>
  (Ok (VList (length (heap st))), with_heap (heap st ++ [xs]) st).

(** The content of a list object. *)
Definition deref (l : loc) : M (list value) := fun st =>
  match heap st !! l with
  | Some xs => (Ok xs, st)
  | None => (Unmodelled "dangling list reference", st)
  end.

Definition store (l : loc) (xs : list value) : M unit := fun st =>
  (Ok tt, with_heap (<[l := xs]> (heap st)) st).

(** *** Python's operations on the values of the fragment *)

(** [isinstance(v, int)]: an [int] or a [bool], as a number. *)
Definition as_int (v : value) : option Z :=
  match v with
  | VInt n => Some n
  | VBool b => Some (if b then 1 else 0)
  | _ => None
  end.

(** [bool(v)] *)
Definition truthy (h : list (list value)) (v : value) : bool :=
  match v with
  | VNone => false
  | VBool b => b
  | VInt n => negb (n =? 0)
  | VStr s => negb (String.eqb s EmptyString)
  | VList l => match h !! l with Some [] => false | _ => true end
  end.

Definition truth (v : value) : M bool := fun st => (Ok (truthy (heap st) v), st).

(** [str(v)], also as an f-string formats [v]; an [int] of more than
    [int_max_str_digits] digits raises [ValueError].  The [repr] of the
    elements of a list is not modelled. *)
Definition str (v : value) : M string :=
  match v with
  | VNone => mret "None"
  | VBool b => mret (if b then "True" else "False")
  | VInt n =>
      if int_str_bound <=? Z.abs n then raise ValueError else mret (pretty n)
  | VStr s => mret s
  | VList _ => unmodelled "str of a list"
  end.

(** [type(v)] as an f-string shows it. *)
Definition type_repr (v : value) : string :=
  match v with
  | VNone => "<class 'NoneType'>"
  | VBool _ => "<class 'bool'>"
  | VInt _ => "<class 'int'>"
  | VStr _ => "<class 'str'>"
  | VList _ => "<class 'list'>"
  end.

(** [type(node)] of an expression node as an f-string shows it. *)
Definition class_repr (node : expr) : string :=
  "<class 'gopa_lang.ast_nodes." +:+
  match node with
  | NumberLiteral _ => "NumberLiteral"
  | StringLiteral _ => "StringLiteral"
  | BooleanLiteral _ => "BooleanLiteral"
  | NothingLiteral => "NothingLiteral"
  | Identifier _ => "Identifier"
  | BinaryOp _ _ _ => "BinaryOp"
  | UnaryOp _ _ => "UnaryOp"
  | IndexAccess _ _ => "IndexAccess"
  | ListLiteral _ => "ListLiteral"
  | FunctionCall _ _ => "FunctionCall"
  | FilterExpression _ _ => "FilterExpression"
  | MapExpression _ _ => "MapExpression"
  end +:+ "'>".

(** [a == b]; lists compare by identity first, then element by
    element.  [None] when the fuel does not reach the bottom of the
    nesting. *)
Fixpoint py_eq (fuel : nat) (h : list (list value)) (a b : value) : option bool :=
  match fuel with
  | O => None
  | S f =>
      match a, b with
      | VNone, VNone => Some true
      | VStr x, VStr y => Some (String.eqb x y)
      | VList x, VList y =>
          if (x =? y)%nat then Some true
          else match h !! x, h !! y with
               | Some xs, Some ys =>
                   if (length xs =? length ys)%nat then
                     (fix all (xs ys : list value) : option bool :=
                        match xs, ys with
                        | x' :: xs', y' :: ys' =>
                            match py_eq f h x' y' with
                            | Some true => all xs' ys'
                            | r => r
                            end
                        | _, _ => Some true
                        end) xs ys
                   else Some false
               | _, _ => Some false
               end
      | _, _ =>
          match as_int a, as_int b with
          | Some x, Some y => Some (x =? y)
          | _, _ => Some false
          end
      end
  end.

Definition equal (fuel : nat) (a b : value) : M bool := fun st =>
  match py_eq fuel (heap st) a b with
  | Some r => (Ok r, st)
  | None => (OutOfFuel, st)
  end.

Fixpoint repeat_string (n : nat) (s : string) : string :=
  match n with O => EmptyString | S n' => s +:+ repeat_string n' s end.

Fixpoint repeat_list (n : nat) (xs : list value) : list value :=
  match n with O => [] | S n' => xs ++ repeat_list n' xs end.

(** [a + b] *)
Definition add (a b : value) : M value :=
  match as_int a, as_int b with
  | Some x, Some y => mret (VInt (x + y))
  | _, _ =>
      match a, b with
      | VStr x, VStr y => mret (VStr (x +:+ y))
      | VList x, VList y => xs ← deref x; ys ← deref y; alloc (xs ++ ys)
      | _, _ => raise TypeError
      end
  end.

(** [a - b] *)
Definition sub (a b : value) : M value :=
  match as_int a, as_int b with
  | Some x, Some y => mret (VInt (x - y))
  | _, _ => raise TypeError
  end.

(** [a * b] *)
Definition mul (a b : value) : M value :=
  match as_int a, as_int b with
  | Some x, Some y => mret (VInt (x * y))
  | _, _ =>
      match a, as_int b, as_int a, b with
      | VStr s, Some n, _, _ => mret (VStr (repeat_string (Z.to_nat n) s))
      | _, _, Some n, VStr s => mret (VStr (repeat_string (Z.to_nat n) s))
      | VList l, Some n, _, _ => xs ← deref l; alloc (repeat_list (Z.to_nat n) xs)
      | _, _, Some n, VList l => xs ← deref l; alloc (repeat_list (Z.to_nat n) xs)
      | _, _, _, _ => raise TypeError
      end
  end.

(** [a / b] once [b == 0] has been ruled out: the quotient of two
    numbers is a float. *)
Definition truediv (a b : value) : M value :=
  match as_int a, as_int b with
  | Some _, Some _ => unmodelled "float"
  | _, _ => raise TypeError
  end.

(** [a < b], [a > b], [a <= b], [a >= b], given the test on numbers and
    the test on strings. *)
Definition compare_with (on_int : Z -> Z -> bool)
    (on_str : string -> string -> bool) (a b : value) : M value :=
  match as_int a, as_int b with
  | Some x, Some y => mret (VBool (on_int x y))
  | _, _ =>
      match a, b with
      | VStr x, VStr y => mret (VBool (on_str x y))
      | VList _, VList _ => unmodelled "ordering of lists"
      | _, _ => raise TypeError
      end
  end.

(** [int(v)] *)
Definition int (v : value) : M Z :=
  match v with
  | VInt n => mret n
  | VBool b => mret (if b then 1 else 0)
  | VStr s => match to_int s with
              | Some n => mret n
              | None => raise ValueError
              end
  | VNone | VList _ => raise TypeError
  end.

(** The names of [BUILTINS] (builtin_stdlib.py). *)
Definition BUILTINS : list string :=
  ["random"; "random_int"; "floor"; "ceil"; "round"; "abs"; "sqrt"; "sin";
   "cos"; "tan"; "pow"; "log"; "max"; "min"; "sum"; "len"; "range";
   "type_of"; "to_string"; "to_number"; "print_table"].

(** [left <op> right] for the operator strings of [evaluate_binary_op]. *)
Definition binary (fuel : nat) (op : string) (lhs rhs : value) : M value :=
  if String.eqb op "plus" then add lhs rhs
  else if String.eqb op "minus" then sub lhs rhs
  else if String.eqb op "times" then mul lhs rhs
  else if String.eqb op "divided_by" then
    z ← equal fuel rhs (VInt 0);
    if z : bool then raise (RuntimeError "Division by zero")
    else truediv lhs rhs
  else if String.eqb op "equals" then
    r ← equal fuel lhs rhs; mret (VBool r)
  else if String.eqb op "does_not_equal" then
    r ← equal fuel lhs rhs; mret (VBool (negb r))
  else if String.eqb op "is_greater_than" then
    compare_with Z.gtb (fun x y => String.ltb y x) lhs rhs
  else if String.eqb op "is_less_than" then
    compare_with Z.ltb String.ltb lhs rhs
  else if String.eqb op "is_at_least" then
    compare_with Z.geb (fun x y => String.leb y x) lhs rhs
  else if String.eqb op "is_at_most" then
    compare_with Z.leb String.leb lhs rhs
  else if String.eqb op "and" then
    b ← truth lhs; mret (if b : bool then rhs else lhs)
  else if String.eqb op "or" then
    b ← truth lhs; mret (if b : bool then lhs else rhs)
  else raise (RuntimeError ("Unknown binary operator: " +:+ op)).

(** What Python's [lhs and rhs] and [lhs or rhs] give once both values
    are known: the left one when its truth settles the result, else
    the right one. *)
Definition and_or (op : string) (h : list (list value)) (lhs rhs : value)
  : value :=
  if String.eqb op "and"
  then (if truthy h lhs then rhs else lhs)
  else (if truthy h lhs then lhs else rhs).

(** The handler that closes [evaluate]:
    [except RuntimeError as e: if self.debug: raise;
     print(str(e), file=self.output_stream); return None]. *)
Definition on_runtime_error {A} (default : A) (e : exn) : M A :=
  match e with
  | RuntimeError msg =>
      st ← read;
      if debug st then raise e else (_ ← print msg; mret default)
  | _ => raise e
  end.

(** [execute_function_def] *)
Definition execute_function_def (name : string) (params : list string)
    (body : list stmt) : M unit :=
  st ← read;
  let closure_env := Runtime.variables (runtime st) in
  let func := Runtime.mkFunction name params body closure_env in
  set_runtime (Runtime.define_function (runtime st) name func).

(** The parameter loop of [evaluate_function_call]:
    [func_runtime.set(param, args[i] if i < len(args) else None)]. *)
Fixpoint bind_params (params : list string) (args : list value)
    (r : Runtime.t) : Runtime.t :=
  match params with
  | [] => r
  | p :: ps =>
      match args with
      | a :: args' => bind_params ps args' (Runtime.set r p a)
      | [] => bind_params ps [] (Runtime.set r p VNone)
      end
  end.

(** [isinstance(index, int) and 0 <= index < len(xs)] *)
Definition in_bounds (xs : list value) (index : value) : bool :=
  match as_int index with
  | Some i => (0 <=? i) && (i <? Z.of_nat (length xs))
  | None => false
  end.

(** [xs[index]] when the index is within the bounds, else [None]: the
    read of [evaluate] and [get_target]. *)
Definition list_item (xs : list value) (index : value) : value :=
  if in_bounds xs index
  then default VNone (xs !! Z.to_nat (default 0 (as_int index)))
  else VNone.

Section WithStack.
Context {stack : Runtime.Stack}.

Fixpoint evaluate (fuel : nat) (node : expr) {struct fuel} : M value :=
  match fuel with
  | O => out_of_fuel
  | S f =>
      try_except
        (match node with
         | NumberLiteral v => mret (VInt v)
         | StringLiteral v => mret (VStr v)
         | BooleanLiteral v => mret (VBool v)
         | NothingLiteral => mret VNone
         | Identifier name =>
             st ← read; lift (Runtime.get (runtime st) name)
         | BinaryOp l op r => evaluate_binary_op f l op r
         | UnaryOp op operand => evaluate_unary_op f op operand
         | IndexAccess obj index =>
             o ← evaluate f obj;
             i ← evaluate f index;
             match o with
             | VList l => xs ← deref l; mret (list_item xs i)
             | _ => raise (RuntimeError ("Cannot index " +:+ type_repr o))
             end
         | ListLiteral elements =>
             vs ← evaluate_all f elements; alloc vs
         | FunctionCall name args => evaluate_function_call f name args
         | FilterExpression list_expr condition =>
             evaluate_filter f list_expr condition
         | MapExpression list_expr transform =>
             evaluate_map f list_expr transform
         end)
        (on_runtime_error VNone)
  end

(** [[self.evaluate(e) for e in nodes]] *)
with evaluate_all (fuel : nat) (nodes : list expr) {struct fuel}
  : M (list value) :=
  match fuel with
  | O => out_of_fuel
  | S f =>
      match nodes with
      | [] => mret []
      | e :: es => v ← evaluate f e; vs ← evaluate_all f es; mret (v :: vs)
      end
  end

with evaluate_binary_op (fuel : nat) (l : expr) (op : string) (r : expr)
    {struct fuel} : M value :=
  match fuel with
  | O => out_of_fuel
  | S f =>
      lhs ← evaluate f l;
      rhs ← evaluate f r;
      binary f op lhs rhs
  end

with evaluate_unary_op (fuel : nat) (op : string) (operand : expr)
    {struct fuel} : M value :=
  match fuel with
  | O => out_of_fuel
  | S f =>
      v ← evaluate f operand;
      if String.eqb op "not" then b ← truth v; mret (VBool (negb b))
      else raise (RuntimeError ("Unknown unary operator: " +:+ op))
  end

with evaluate_function_call (fuel : nat) (name : string) (args : list expr)
    {struct fuel} : M value :=
  match fuel with
  | O => out_of_fuel
  | S f =>
      if contains name BUILTINS then
        _ ← evaluate_all f args; unmodelled "builtin function"
      else
        try_except
          (st0 ← read;
           func ← lift (Runtime.get_function (runtime st0) name);
           args ← evaluate_all f args;
           st1 ← read;
           func_runtime ← lift (Runtime.child_scope (heap st1) (runtime st1));
           let old_runtime := runtime st1 in
           _ ← set_runtime
                 (bind_params (Runtime.params func) args func_runtime);
           try_finally
             (try_except
                (_ ← execute_block f (Runtime.body func); mret VNone)
                (fun e => match e with
                          | ReturnSignal v => mret v
                          | _ => raise e
                          end))
             (set_runtime old_runtime))
          (fun e => match e with
                    | NameError _ =>
                        raise (RuntimeError
                                 ("Function '" +:+ name +:+ "' not defined"))
                    | _ => raise e
                    end)
  end

with evaluate_filter (fuel : nat) (list_expr condition : expr) {struct fuel}
  : M value :=
  match fuel with
  | O => out_of_fuel
  | S f =>
      v ← evaluate f list_expr;
      match v with
      | VList l => result ← alloc []; filter_loop f l 0 condition result
      | _ => raise (RuntimeError "filter expects a list")
      end
  end

(** [for item in list_expr: ...] of [evaluate_filter], from index [i] on;
    [result] is the list being built. *)
with filter_loop (fuel : nat) (l : loc) (i : nat) (condition : expr)
    (result : value) {struct fuel} : M value :=
  match fuel with
  | O => out_of_fuel
  | S f =>
      xs ← deref l;
      match xs !! i with
      | None => mret result
      | Some item =>
          st ← read;
          let old_item := Runtime.variables (runtime st) !! "item" in
          _ ← set_runtime (Runtime.set (runtime st) "item" item);
          c ← evaluate f condition;
          st' ← read;
          _ ← match old_item with
              | Some VNone | None =>
                  set_runtime (Runtime.pop (runtime st') "item")
              | Some old =>
                  set_runtime (Runtime.set (runtime st') "item" old)
              end;
          keep ← truth c;
          _ ← (if keep : bool then
                 match result with
                 | VList r => ys ← deref r; store r (ys ++ [item])
                 | _ => mret tt
                 end
               else mret tt);
          filter_loop f l (S i) condition result
      end
  end

with evaluate_map (fuel : nat) (list_expr transform : expr) {struct fuel}
  : M value :=
  match fuel with
  | O => out_of_fuel
  | S f =>
      v ← evaluate f list_expr;
      match v with
      | VList l => result ← alloc []; map_loop f l 0 transform result
      | _ => raise (RuntimeError "map expects a list")
      end
  end

with map_loop (fuel : nat) (l : loc) (i : nat) (transform : expr)
    (result : value) {struct fuel} : M value :=
  match fuel with
  | O => out_of_fuel
  | S f =>
      xs ← deref l;
      match xs !! i with
      | None => mret result
      | Some item =>
          st ← read;
          let old_item := Runtime.variables (runtime st) !! "item" in
          _ ← set_runtime (Runtime.set (runtime st) "item" item);
          transformed ← evaluate f transform;
          st' ← read;
          _ ← match old_item with
              | Some VNone | None =>
                  set_runtime (Runtime.pop (runtime st') "item")
              | Some old =>
                  set_runtime (Runtime.set (runtime st') "item" old)
              end;
          _ ← match result with
              | VList r => ys ← deref r; store r (ys ++ [transformed])
              | _ => mret tt
              end;
          map_loop f l (S i) transform result
      end
  end

with execute (fuel : nat) (node : stmt) {struct fuel} : M unit :=
  match fuel with
  | O => out_of_fuel
  | S f =>
      try_except
        (match node with
         | Assignment target value =>
             v ← evaluate f value; set_target f target v
         | Mutation target op value => execute_mutation f target op value
         | SayStatement parts =>
             texts ← say_parts f parts; print (String.concat EmptyString texts)
         | PrintStatement e => v ← evaluate f e; s ← str v; print s
         | IfStatement condition then_block else_block =>
             c ← evaluate f condition;
             b ← truth c;
             if b : bool then execute_block f then_block
             else match else_block with
                  | Some (s :: ss) => execute_block f (s :: ss)
                  | _ => mret tt
                  end
         | RepeatForever body => execute_repeat_forever f body
         | RepeatTimes count body =>
             c ← evaluate f count;
             n ← int c;
             execute_repeat_times f (Z.to_nat n) body
         | RepeatUntil condition body => execute_repeat_until f condition body
         | DoUntil body condition => execute_do_until f body condition
         | BreakStatement => raise BreakSignal
         | ContinueStatement => raise ContinueSignal
         | StopStatement => raise StopSignal
         | FunctionDef name params body => execute_function_def name params body
         | ReturnStatement value =>
             v ← match value with
                 | Some e => evaluate f e
                 | None => mret VNone
                 end;
             raise (ReturnSignal v)
         | ListAdd list_expr value =>
             lv ← evaluate f list_expr;
             match lv with
             | VList l =>
                 v ← evaluate f value;
                 xs ← deref l;
                 store l (xs ++ [v])
             | _ => raise (RuntimeError "add expects a list")
             end
         | CallStatement name args =>
             _ ← evaluate_function_call f name args; mret tt
         end)
        (fun e =>
           match e with
           | BreakSignal | ContinueSignal | StopSignal | ReturnSignal _ =>
               raise e
           | _ => on_runtime_error tt e
           end)
  end

(** [for stmt in block: self.execute(stmt)] *)
with execute_block (fuel : nat) (block : list stmt) {struct fuel} : M unit :=
  match fuel with
  | O => out_of_fuel
  | S f =>
      match block with
      | [] => mret tt
      | s :: ss => _ ← execute f s; execute_block f ss
      end
  end

(** [[str(self.evaluate(part)) for part in node.parts]] *)
with say_parts (fuel : nat) (parts : list expr) {struct fuel}
  : M (list string) :=
  match fuel with
  | O => out_of_fuel
  | S f =>
      match parts with
      | [] => mret []
      | e :: es =>
          v ← evaluate f e; s ← str v; ss ← say_parts f es; mret (s :: ss)
      end
  end

with execute_mutation (fuel : nat) (target : expr) (op : string) (value : expr)
    {struct fuel} : M unit :=
  match fuel with
  | O => out_of_fuel
  | S f =>
      if String.eqb op "becomes" then
        v ← evaluate f value; set_target f target v
      else if String.eqb op "increase" then
        increment ← evaluate f value;
        current ← get_target f target;
        v ← add current increment;
        set_target f target v
      else if String.eqb op "decrease" then
        decrement ← evaluate f value;
        current ← get_target f target;
        v ← sub current decrement;
        set_target f target v
      else mret tt
  end

with get_target (fuel : nat) (target : expr) {struct fuel} : M value :=
  match fuel with
  | O => out_of_fuel
  | S f =>
      match target with
      | Identifier name => st ← read; lift (Runtime.get (runtime st) name)
      | IndexAccess obj index =>
          o ← evaluate f obj;
          i ← evaluate f index;
          match o with
          | VList l => xs ← deref l; mret (list_item xs i)
          | _ => mret VNone
          end
      | _ => raise (RuntimeError
                      ("Cannot get from target: " +:+ class_repr target))
      end
  end

with set_target (fuel : nat) (target : expr) (v : value) {struct fuel}
  : M unit :=
  match fuel with
  | O => out_of_fuel
  | S f =>
      match target with
      | Identifier name =>
          st ← read; set_runtime (Runtime.set (runtime st) name v)
      | IndexAccess obj index =>
          o ← evaluate f obj;
          i ← evaluate f index;
          match o with
          | VList l =>
              xs ← deref l;
              if in_bounds xs i
              then store l (<[Z.to_nat (default 0 (as_int i)) := v]> xs)
              else s ← str i;
                   raise (RuntimeError ("Index " +:+ s +:+ " out of range"))
          | _ => raise (RuntimeError ("Cannot index " +:+ type_repr o))
          end
      | _ => raise (RuntimeError
                      ("Cannot assign to target: " +:+ class_repr target))
      end
  end

(** [while True: try: <body> except BreakSignal: break
    except ContinueSignal: continue except StopSignal: raise] *)
with execute_repeat_forever (fuel : nat) (body : list stmt) {struct fuel}
  : M unit :=
  match fuel with
  | O => out_of_fuel
  | S f =>
      go_on ← try_except
                (_ ← execute_block f body; mret true)
                (fun e => match e with
                          | BreakSignal => mret false
                          | ContinueSignal => mret true
                          | _ => raise e
                          end);
      if go_on : bool then execute_repeat_forever f body else mret tt
  end

with execute_repeat_times (fuel : nat) (count : nat) (body : list stmt)
    {struct fuel} : M unit :=
  match fuel with
  | O => out_of_fuel
  | S f =>
      match count with
      | O => mret tt
      | S count' =>
          go_on ← try_except
                    (_ ← execute_block f body; mret true)
                    (fun e => match e with
                              | BreakSignal => mret false
                              | ContinueSignal => mret true
                              | _ => raise e
                              end);
          if go_on : bool then execute_repeat_times f count' body else mret tt
      end
  end

with execute_repeat_until (fuel : nat) (condition : expr) (body : list stmt)
    {struct fuel} : M unit :=
  match fuel with
  | O => out_of_fuel
  | S f =>
      c ← evaluate f condition;
      b ← truth c;
      if b : bool then mret tt
      else
        go_on ← try_except
                  (_ ← execute_block f body; mret true)
                  (fun e => match e with
                            | BreakSignal => mret false
                            | ContinueSignal => mret true
                            | _ => raise e
                            end);
        if go_on : bool then execute_repeat_until f condition body else mret tt
  end

with execute_do_until (fuel : nat) (body : list stmt) (condition : expr)
    {struct fuel} : M unit :=
  match fuel with
  | O => out_of_fuel
  | S f =>
      step ← try_except
               (_ ← execute_block f body; mret (Some true))
               (fun e => match e with
                         | BreakSignal => mret None
                         | ContinueSignal => mret (Some false)
                         | _ => raise e
                         end);
      match step with
      | None => mret tt
      | Some false => execute_do_until f body condition
      | Some true =>
          c ← evaluate f condition;
          b ← truth c;
          if b : bool then mret tt else execute_do_until f body condition
      end
  end.

(** The driver loop of gopa.py: [for stmt in ast.statements:
    interpreter.execute(stmt)]. *)
Definition run (fuel : nat) (program : Program) : M unit :=
  execute_block fuel program.

End WithStack.

End Interp.

(** ** builtin_stdlib.py *)

(** The builtins that stay within the values of the fragment.  They are
    what [evaluate_function_call] applies to the evaluated arguments
    when the name is in [BUILTINS]. *)
Module Builtins.
Import Interp.

(** [builtin_len]; dictionaries are outside the fragment. *)
Definition builtin_len (v : value) : M value :=
  match v with
  | VStr s => mret (VInt (Z.of_nat (String.length s)))
  | VList l => xs ← deref l; mret (VInt (Z.of_nat (length xs)))
  | _ => raise TypeError
  end.

(** [builtin_range]: [list(range(start, end))]; [range] takes an [int]
    or a [bool] and refuses anything else. *)
Definition builtin_range (start stop : value) : M value :=
  match as_int start, as_int stop with
  | Some a, Some b => alloc (VInt <$> seqZ a (b - a))
  | _, _ => raise TypeError
  end.

(** [builtin_abs] *)
Definition builtin_abs (x : value) : M value :=
  match as_int x with
  | Some n => mret (VInt (Z.abs n))
  | None => raise TypeError
  end.

(** [max(values)] from the first item on: a later item replaces the
    best one when [item > best]. *)
Fixpoint max_loop (best : value) (rest : list value) : M value :=
  match rest with
  | [] => mret best
  | x :: rest' =>
      gt ← compare_with Z.gtb (fun a b => String.ltb b a) x best;
      b ← truth gt;
      max_loop (if b : bool then x else best) rest'
  end.

(** [min(values)]: a later item replaces the best one when
    [item < best]. *)
Fixpoint min_loop (best : value) (rest : list value) : M value :=
  match rest with
  | [] => mret best
  | x :: rest' =>
      lt ← compare_with Z.ltb String.ltb x best;
      b ← truth lt;
      min_loop (if b : bool then x else best) rest'
  end.

(** [builtin_max]: [None] for every falsy argument; a number is not
    iterable; the largest character of a string is not modelled. *)
Definition builtin_max (values : value) : M value :=
  nonempty ← truth values;
  if negb nonempty then mret VNone
  else match values with
       | VList l =>
           xs ← deref l;
           match xs with
           | x :: rest => max_loop x rest
           | [] => mret VNone
           end
       | VStr _ => unmodelled "max of a string"
       | _ => raise TypeError
       end.

(** [builtin_min] *)
Definition builtin_min (values : value) : M value :=
  nonempty ← truth values;
  if negb nonempty then mret VNone
  else match values with
       | VList l =>
           xs ← deref l;
           match xs with
           | x :: rest => min_loop x rest
           | [] => mret VNone
           end
       | VStr _ => unmodelled "min of a string"
       | _ => raise TypeError
       end.

(** [sum(values)]: [acc = 0; for x in values: acc = acc + x]. *)
Fixpoint sum_loop (acc : value) (rest : list value) : M value :=
  match rest with
  | [] => mret acc
  | x :: rest' => acc' ← add acc x; sum_loop acc' rest'
  end.

(** [builtin_sum]; the characters of a string cannot be added to 0, and
    nothing but a list or a string can be iterated. *)
Definition builtin_sum (values : value) : M value :=
  match values with
  | VList l => xs ← deref l; sum_loop (VInt 0) xs
  | VStr EmptyString => mret (VInt 0)
  | _ => raise TypeError
  end.

(** [builtin_type_of] *)
Definition builtin_type_of (v : value) : string :=
  match v with
  | VNone => "nothing"
  | VBool _ => "boolean"
  | VInt _ => "number"
  | VStr _ => "string"
  | VList _ => "list"
  end.

(** [builtin_to_string] *)
Definition builtin_to_string (v : value) : M value :=
  match v with
  | VNone => mret (VStr EmptyString)
  | _ => s ← str v; mret (VStr s)
  end.

(** The call of [BUILTINS[name]] on the unpacked arguments, for the
    builtins above: Python refuses a wrong number of arguments with a
    [TypeError]. *)
Definition call (name : string) (args : list value) : M value :=
  if String.eqb name "len" then
    match args with [v] => builtin_len v | _ => raise TypeError end
  else if String.eqb name "range" then
    match args with [a; b] => builtin_range a b | _ => raise TypeError end
  else if String.eqb name "abs" then
    match args with [v] => builtin_abs v | _ => raise TypeError end
  else if String.eqb name "max" then
    match args with [v] => builtin_max v | _ => raise TypeError end
  else if String.eqb name "min" then
    match args with [v] => builtin_min v | _ => raise TypeError end
  else if String.eqb name "sum" then
    match args with [v] => builtin_sum v | _ => raise TypeError end
  else if String.eqb name "type_of" then
    match args with
    | [v] => mret (VStr (builtin_type_of v))
    | _ => raise TypeError
    end
  else if String.eqb name "to_string" then
    match args with [v] => builtin_to_string v | _ => raise TypeError end
  else unmodelled "builtin function".

End Builtins.

(** ** graphics_stub.py: the scheduler *)

Module Scheduler.
Import PyStr.

(** The fields of a [datetime] that [matches_cron] reads;
    [weekday] is [dt.weekday()], Monday being 0. *)
Record datetime : Type := mkDatetime {
  minute : Z;
  hour : Z;
  day : Z;
  month : Z;
  weekday : Z
}.

(** The dictionary [parse_cron] returns, with its five keys. *)
Record cron_fields : Type := mkFields {
  f_minute : string;
  f_hour : string;
  f_day : string;
  f_month : string;
  f_dow : string
}.

(** The task dictionaries.  Their ['interpreter'] entry is the one
    interpreter the scheduler serves, so it is left implicit. *)
Record after_task : Type := mkAfter {
  a_time : float;
  a_body : list stmt
}.

Record every_task : Type := mkEvery {
  e_interval : float;
  e_body : list stmt;
  e_last_run : float
}.

Record cron_task : Type := mkCron {
  c_schedule : string;
  c_fields : cron_fields;
  c_body : list stmt
}.

(** A [Scheduler] object.  [jobs] is a [dict], kept in insertion
    order. *)
Record t : Type := mk {
  virtual_time : bool;
  current_time : float;
  jobs : list (string * every_task);
  after_tasks : list after_task;
  every_tasks : list every_task;
  cron_tasks : list cron_task;
  running : bool
}.

(** [Scheduler(virtual_time)] *)
Definition init (virtual_time : bool) : t :=
  {| virtual_time := virtual_time; current_time := 0%float; jobs := [];
     after_tasks := []; every_tasks := []; cron_tasks := [];
     running := false |}.

Definition with_time (now : float) (s : t) : t :=
  {| virtual_time := virtual_time s; current_time := now; jobs := jobs s;
     after_tasks := after_tasks s; every_tasks := every_tasks s;
     cron_tasks := cron_tasks s; running := running s |}.

(** [a >= b] on floats *)
Definition geb (a b : float) : bool := PrimFloat.leb b a.

(** [wait]; outside virtual time it sleeps on the wall clock. *)
Definition wait (seconds : float) (s : t) : outcome t :=
  if virtual_time s
  then Ok (with_time (PrimFloat.add (current_time s) seconds) s)
  else Unmodelled "wall clock".

(** [after]; outside virtual time it reads the wall clock. *)
Definition after (seconds : float) (body : list stmt) (s : t) : outcome t :=
  if virtual_time s then
    let run_time := PrimFloat.add (current_time s) seconds in
    Ok {| virtual_time := virtual_time s; current_time := current_time s;
          jobs := jobs s;
          after_tasks := after_tasks s ++ [mkAfter run_time body];
          every_tasks := every_tasks s; cron_tasks := cron_tasks s;
          running := running s |}
  else Unmodelled "wall clock".

Definition every (seconds : float) (body : list stmt) (s : t) : outcome t :=
  if virtual_time s then
    let last_run := current_time s in
    Ok {| virtual_time := virtual_time s; current_time := current_time s;
          jobs := jobs s; after_tasks := after_tasks s;
          every_tasks := every_tasks s ++ [mkEvery seconds body last_run];
          cron_tasks := cron_tasks s; running := running s |}
  else Unmodelled "wall clock".

(** [d[name] = task] on an insertion-ordered dictionary. *)
Fixpoint dict_set (name : string) (task : every_task)
    (d : list (string * every_task)) : list (string * every_task) :=
  match d with
  | [] => [(name, task)]
  | (k, x) :: d' =>
      if String.eqb k name then (k, task) :: d'
      else (k, x) :: dict_set name task d'
  end.

Definition job (name : string) (seconds : float) (body : list stmt) (s : t)
  : outcome t :=
  if virtual_time s then
    let last_run := current_time s in
    Ok {| virtual_time := virtual_time s; current_time := current_time s;
          jobs := dict_set name (mkEvery seconds body last_run) (jobs s);
          after_tasks := after_tasks s; every_tasks := every_tasks s;
          cron_tasks := cron_tasks s; running := running s |}
  else Unmodelled "wall clock".

Definition stop_job (name : string) (s : t) : t :=
  {| virtual_time := virtual_time s; current_time := current_time s;
     jobs := filter (fun kv => negb (String.eqb (fst kv) name)) (jobs s);
     after_tasks := after_tasks s; every_tasks := every_tasks s;
     cron_tasks := cron_tasks s; running := running s |}.

Definition is_decimal (c : ascii) : bool := between 48 57 c.

(** The regular expression [(\d{1,2}):(\d{2})] matched at the start of
    [s]: the two groups. *)
Definition hh_mm (s : string) : option (string * string) :=
  let minutes (h rest : string) :=
    match rest with
    | String m1 (String m2 _) =>
        if is_decimal m1 && is_decimal m2
        then Some (h, String m1 (String m2 EmptyString)) else None
    | _ => None
    end in
  match s with
  | String h1 (String h2 (String ":" rest)) =>
      if is_decimal h1 && is_decimal h2
      then minutes (String h1 (String h2 EmptyString)) rest else None
  | String h1 (String ":" rest) =>
      if is_decimal h1 then minutes (String h1 EmptyString) rest else None
  | _ => None
  end.

(** [s] without [prefix], when it starts with it. *)
Fixpoint strip_prefix (prefix s : string) : option string :=
  match prefix, s with
  | EmptyString, _ => Some s
  | String a p', String b s' =>
      if Ascii.eqb a b then strip_prefix p' s' else None
  | _, _ => None
  end.

Definition weekdays : list string :=
  ["monday"; "tuesday"; "wednesday"; "thursday"; "friday"; "saturday";
   "sunday"].

(** The fourth friendly pattern, tried on the weekdays from [index] on. *)
Fixpoint weekday_at (index : nat) (days : list string) (s : string)
  : option cron_fields :=
  match days with
  | [] => None
  | d :: days' =>
      match strip_prefix (d +:+ " at ") s with
      | Some rest =>
          match hh_mm rest with
          | Some (h, m) => Some (mkFields m h "*" "*" (pretty index))
          | None => weekday_at (S index) days' s
          end
      | None => weekday_at (S index) days' s
      end
  end.

(** [parse_cron]: the friendly patterns are tried with [re.match] on the
    lowered schedule, in the order of the dictionary; then the five
    fields of a classic line. *)
Definition parse_cron (schedule : string) : outcome cron_fields :=
  let low := lower schedule in
  if startswith low "every minute" then Ok (mkFields "*" "*" "*" "*" "*")
  else if startswith low "every hour" then Ok (mkFields "0" "*" "*" "*" "*")
  else
    match
      match strip_prefix "every day at " low with
      | Some rest =>
          match hh_mm rest with
          | Some (h, m) => Some (mkFields m h "*" "*" "*")
          | None => None
          end
      | None => None
      end
    with
    | Some fields => Ok fields
    | None =>
        match
          match strip_prefix "every " low with
          | Some rest => weekday_at 0 weekdays rest
          | None => None
          end
        with
        | Some fields => Ok fields
        | None =>
            match words schedule with
            | [a; b; c; d; e] => Ok (mkFields a b c d e)
            | _ => Raise ValueError
            end
        end
    end.

(** [cron] *)
Definition cron (schedule : string) (body : list stmt) (s : t) : outcome t :=
  fields ← parse_cron schedule;
  Ok {| virtual_time := virtual_time s; current_time := current_time s;
        jobs := jobs s; after_tasks := after_tasks s;
        every_tasks := every_tasks s;
        cron_tasks := cron_tasks s ++ [mkCron schedule fields body];
        running := running s |}.

(** The inner [matches] of [matches_cron]. *)
Definition matches (v : Z) (field : string) : bool :=
  if String.eqb field "*" then true
  else match to_int field with
       | Some n => n =? v
       | None => false
       end.

Definition matches_cron (dt : datetime) (fields : cron_fields) : bool :=
  matches (minute dt) (f_minute fields)
  && matches (hour dt) (f_hour fields)
  && matches (day dt) (f_day fields)
  && matches (month dt) (f_month fields)
  && matches (weekday dt) (f_dow fields).

Section WithStack.
Context {stack : Runtime.Stack}.

(** [try: for stmt in body: interpreter.execute(stmt)
     except Exception: pass] *)
Definition run_body (fuel : nat) (body : list stmt) : Interp.M unit :=
  Interp.try_except (Interp.execute_block fuel body) (fun _ => mret tt).

(** The [after] loop of [step]: the tasks that are due run and are
    removed; the answer is the list that stays. *)
Fixpoint step_after (fuel : nat) (now : float) (tasks : list after_task)
  : Interp.M (list after_task) :=
  match tasks with
  | [] => mret []
  | task :: tasks' =>
      if geb now (a_time task) then
        _ ← run_body fuel (a_body task); step_after fuel now tasks'
      else
        rest ← step_after fuel now tasks'; mret (task :: rest)
  end.

(** [if now >= task['last_run'] + task['interval']: ...;
     task['last_run'] = now] *)
Definition step_periodic (fuel : nat) (now : float) (task : every_task)
  : Interp.M every_task :=
  if geb now (PrimFloat.add (e_last_run task) (e_interval task)) then
    _ ← run_body fuel (e_body task);
    mret (mkEvery (e_interval task) (e_body task) now)
  else mret task.

Fixpoint step_every (fuel : nat) (now : float) (tasks : list every_task)
  : Interp.M (list every_task) :=
  match tasks with
  | [] => mret []
  | task :: tasks' =>
      task' ← step_periodic fuel now task;
      rest ← step_every fuel now tasks';
      mret (task' :: rest)
  end.

Fixpoint step_jobs (fuel : nat) (now : float)
    (tasks : list (string * every_task))
  : Interp.M (list (string * every_task)) :=
  match tasks with
  | [] => mret []
  | (name, task) :: tasks' =>
      task' ← step_periodic fuel now task;
      rest ← step_jobs fuel now tasks';
      mret ((name, task') :: rest)
  end.

Fixpoint step_cron (fuel : nat) (now : datetime) (tasks : list cron_task)
  : Interp.M unit :=
  match tasks with
  | [] => mret tt
  | task :: tasks' =>
      _ ← (if matches_cron now (c_fields task)
           then run_body fuel (c_body task) else mret tt);
      step_cron fuel now tasks'
  end.

End WithStack.

(** The scheduler together with the interpreter its tasks call back
    into. *)
Record world : Type := mkWorld {
  scheduler : t;
  interpreter : Interp.t
}.

(** A computation on both. *)
Definition W (A : Type) : Type := world -> outcome A * world.

Global Instance W_ret : MRet W := fun A a w => (Ok a, w).

Global Instance W_bind : MBind W := fun A B k m w =>
  match m w with
  | (Ok a, w') => k a w'
  | (Raise e, w') => (Raise e, w')
  | (Unmodelled what, w') => (Unmodelled what, w')
  | (OutOfFuel, w') => (OutOfFuel, w')
  end.

(** A computation of the interpreter, run on [task['interpreter']]. *)
Definition call_back {A} (m : Interp.M A) : W A := fun w =>
  let '(r, i) := m (interpreter w) in (r, mkWorld (scheduler w) i).

Definition self : W t := fun w => (Ok (scheduler w), w).

Definition update (change : t -> t) : W unit := fun w =>
  (Ok tt, mkWorld (change (scheduler w)) (interpreter w)).

Definition lift {A} (o : outcome A) : W A := fun w => (o, w).

Definition with_tasks (after' : list after_task) (every' : list every_task)
    (jobs' : list (string * every_task)) (s : t) : t :=
  {| virtual_time := virtual_time s; current_time := current_time s;
     jobs := jobs'; after_tasks := after'; every_tasks := every';
     cron_tasks := cron_tasks s; running := running s |}.

Section WithLocalTime.
Context {stack : Runtime.Stack}.
(** [datetime.fromtimestamp], which depends on the local time zone
    and raises on instants it cannot represent. *)
Variable fromtimestamp : float -> outcome datetime.

(** [step(dt)] *)
Definition step (fuel : nat) (dt : float) : W unit :=
  s ← self;
  if negb (virtual_time s) then mret tt
  else
    let now := PrimFloat.add (current_time s) dt in
    _ ← update (with_time now);
    after' ← call_back (step_after fuel now (after_tasks s));
    _ ← update (fun s' => with_tasks after' (every_tasks s') (jobs s') s');
    every' ← call_back (step_every fuel now (every_tasks s));
    _ ← update (fun s' => with_tasks (after_tasks s') every' (jobs s') s');
    jobs' ← call_back (step_jobs fuel now (jobs s));
    _ ← update (fun s' => with_tasks (after_tasks s') (every_tasks s') jobs' s');
    dt_now ← lift (fromtimestamp now);
    call_back (step_cron fuel dt_now (cron_tasks s)).


End WithLocalTime.

(** [datetime.fromtimestamp] where the local time is UTC, for the
    instants up to 59 s after the epoch: they fall on Thursday
    1 January 1970, 00:00.  Later instants are not needed. *)
Definition utc_first_minute (ts : float) : outcome datetime :=
  if PrimFloat.leb 0 ts && PrimFloat.leb ts 59
  then Ok (mkDatetime 0 0 1 1 3)
  else Unmodelled "instant after the first minute".


End Scheduler.

(** ** gopa.py *)

Module Gopa.

(** The core of [run_file] and [run_tests]: lex, parse, then execute
    the statements in order. *)
Definition run_source {stack : Runtime.Stack} (fuel : nat) (source : string)
  : Interp.M unit :=
  ast ← Interp.lift (tokens ← Lexer.tokenize source; Parser.parse tokens fuel);
  Interp.run fuel ast.

End Gopa.

(** ** The programs and states the theorems below run *)

Module Examples.

(** A stack with room for every copy: the function tables of the
    programs of this file reach a handful of numbers and strings, and
    Python completes their copy.  The runs on given programs and states
    (the examples here and the witnesses and counterexamples of the
    theorems) are on this stack. *)
Definition ample : Runtime.Stack := fun _ _ => None.
#[local] Existing Instance ample.

Definition newline : string := String "010"%char EmptyString.

(** Joins the lines of a source file. *)
Definition source (lines : list string) : string := String.concat newline lines.



(** The right operand of [and] is a call that writes a line. *)
Definition noisy_and_source : string :=
  source [ "define noisy with a";
           "  say 'evaluated'";
           "  return true";
           "end";
           "say false and noisy 1" ].

(** Scenario 2 of the specification. *)
Definition arithmetic_source : string :=
  source [ "x is 2 plus 3 times 4"; "say x" ].

(** The tokens of [arithmetic_source] (see [tokenize_arithmetic]). *)
Definition arithmetic_tokens : list Token :=
  [ mkToken IDENTIFIER (PStr "x") 1 1; mkToken IS PNone 1 3;
    mkToken NUMBER (PInt 2) 1 6; mkToken PLUS PNone 1 8;
    mkToken NUMBER (PInt 3) 1 13; mkToken TIMES PNone 1 15;
    mkToken NUMBER (PInt 4) 1 21; mkToken NEWLINE PNone 1 22;
    mkToken SAY PNone 2 1; mkToken IDENTIFIER (PStr "x") 2 5;
    mkToken EOF PNone 2 6 ].

(** The same sum with a variable on the left of [times]. *)
Definition arithmetic_variable_source : string :=
  source [ "y is 3"; "x is 2 plus y times 4"; "say x" ].


Definition tick : list stmt := [SayStatement [StringLiteral "tick"]].


Definition undefined_variable_source : string :=
  source [ "say y"; "say 'after'" ].

Definition undefined_function_source : string :=
  source [ "f 1"; "say 'after'" ].

Definition string_index_source : string :=
  source [ "s is 'abc'"; "say s[1]" ].

(** A list of three elements and an index of 4933 digits. *)
Definition far_index_source : string :=
  source [ "l is [1, 2, 3]";
           "n is 2";
           "repeat 14 times";
           "  n is n times n";
           "end";
           "l[n] is 9";
           "say 'after'" ].

(** The interpreter after [l is [1, 2, 3]]. *)
Definition with_list : Interp.t :=
  snd (Interp.run 20
         [Assignment (Identifier "l")
            (ListLiteral [NumberLiteral 1; NumberLiteral 2; NumberLiteral 3])]
         (Interp.init false)).

(** [item] is bound to Nothing, then a filter runs over one element.
    (The lexer makes [item] a keyword, so the programs are given as
    syntax trees.) *)
Definition item_is_nothing : Program :=
  [Assignment (Identifier "item") NothingLiteral].

Definition filter_after_item_is_nothing : Program :=
  item_is_nothing ++
  [Assignment (Identifier "kept")
     (FilterExpression (ListLiteral [NumberLiteral 1]) (BooleanLiteral true))].

Definition map_after_item_is_nothing : Program :=
  item_is_nothing ++
  [Assignment (Identifier "mapped")
     (MapExpression (ListLiteral [NumberLiteral 1]) (Identifier "item"))].

(** [item] of the current scope after a program has run. *)
Definition item_after (program : Program) : option value :=
  Runtime.variables (Interp.runtime (snd (Interp.run 20 program (Interp.init false))))
    !! "item".

End Examples.

(** ** Token kinds and invariants the theorems name *)

Module Grammar.

(** [ty in kinds] *)
Definition kind_in (ty : TokenType) (kinds : list TokenType) : bool :=
  existsb (TokenType_eqb ty) kinds.

(** Token kinds the parser tests for that no branch of the lexer
    builds. *)
Definition never_lexed : list TokenType :=
  [DOES_NOT_EQUAL; IS_AT_MOST; WITH_JOIN; TO_FILE].

(** What [Token.value] holds for each kind the lexer builds: the [int]
    of a number, the text of a string, the word of an identifier, which
    is in lower case and no keyword, and [None] otherwise. *)
Definition payload_ok (tok : Token) : bool :=
  match type tok with
  | NUMBER => match tvalue tok with PInt _ => true | _ => false end
  | STRING => match tvalue tok with PStr _ => true | _ => false end
  | IDENTIFIER =>
      match tvalue tok with
      | PStr word =>
          String.eqb (PyStr.lower word) word &&
          negb (String.eqb word "times") &&
          match Lexer.lookup_keyword word Lexer.keyword_map with
          | None => true
          | Some _ => false
          end
      | _ => false
      end
  | _ => match tvalue tok with PNone => true | _ => false end
  end.

(** A token [tokenize] may append inside its loop. *)
Definition lexed (tok : Token) : bool :=
  negb (kind_in (type tok) (EOF :: never_lexed)) && payload_ok tok.

(** The token kinds [parse_statement] has a branch for. *)
Definition statement_starts : list TokenType :=
  [SAY; PRINT; CLEAR; SHOW; ASK; IF; REPEAT; DO; BREAK; CONTINUE; STOP;
   DEFINE; RETURN; MATCH; ADD; REMOVE; SORT; REVERSE; SHUFFLE; WRITE; DRAW;
   WHEN; WAIT; AFTER; EVERY; USE; INSTALL; SERVER; JOB; CRON; IDENTIFIER].

(** The token kinds [parse_not] and [parse_factor] have a branch for. *)
Definition expression_starts : list TokenType :=
  [NOT; NUMBER; STRING; TRUE; FALSE; NOTHING; PI; IDENTIFIER; LBRACKET;
   DICTIONARY; OBJECT; FIND; FILTER; MAP; SPLIT; JOIN; REPLACE; GET; READ;
   CREATE; PYTHON].

End Grammar.

Module Invariant.

(** A computation that leaves [self.debug] as it found it. *)
Definition keeps_debug {A} (m : Interp.M A) : Prop :=
  forall st, Interp.debug (snd (m st)) = Interp.debug st.

(** With debug off before and after, [m] ends in something else than a
    [RuntimeError]. *)
Definition contained {A} (m : Interp.M A) (st : Interp.t) : Prop :=
  exists r st', m st = (r, st') /\ Interp.debug st' = false /\
                forall msg, r <> Raise (RuntimeError msg).

(** The interpreter [st] once a list holding [acc] has been allocated
    after its heap. *)
Definition grown (st : Interp.t) (acc : list value) : Interp.t :=
  Interp.with_heap (Interp.heap st ++ [acc]) st.

(** The ways [tokenize] ends: the tokens, [int] refusing a digit that
    is no decimal or a number of too many digits, a backslash as the
    last character of the text, or a number with a dot. *)
Definition settled {A} (r : outcome A) : Prop :=
  match r with
  | Ok _ => True
  | Raise e => e = ValueError \/ e = TypeError
  | Unmodelled w => w = "float literal"
  | OutOfFuel => False
  end.

(** An outcome that is no raised exception. *)
Definition no_raise {A} (r : outcome A) : Prop :=
  match r with Raise _ => False | _ => True end.

(** A periodic task after the [every] or the [jobs] loop of [step] at
    [now]: one that is due has run and restarts its interval at [now]. *)
Definition refreshed (now : float) (task : Scheduler.every_task)
  : Scheduler.every_task :=
  if Scheduler.geb now
       (PrimFloat.add (Scheduler.e_last_run task) (Scheduler.e_interval task))
  then Scheduler.mkEvery (Scheduler.e_interval task) (Scheduler.e_body task) now
  else task.

(** The characters [int] accepts in a [str]. *)
Definition int_char (c : ascii) : bool :=
  PyStr.between 48 57 c || Ascii.eqb c "_" || Ascii.eqb c "+"
  || Ascii.eqb c "-" || PyStr.int_space c.

End Invariant.

(** ** Further programs and states *)

Module Samples.
#[local] Existing Instance Examples.ample.

(** The interpreter after [define g with / say y / end]: the body reads
    a variable nobody defines. *)
Definition with_broken_function : Interp.t :=
  snd (Interp.run 20 [FunctionDef "g" [] [SayStatement [Identifier "y"]]]
         (Interp.init false)).

(** [item is_greater_than 1], the condition of a filter. *)
Definition above_one : expr :=
  BinaryOp (Identifier "item") "is_greater_than" (NumberLiteral 1).

(** [item plus 1], the transform of a map. *)
Definition successor : expr :=
  BinaryOp (Identifier "item") "plus" (NumberLiteral 1).

(** The tokens of [n is at most 3]. *)
Definition at_most_tokens : list Token :=
  [ mkToken IDENTIFIER (PStr "n") 1 1; mkToken IS PNone 1 3;
    mkToken AT PNone 1 6; mkToken IDENTIFIER (PStr "most") 1 9;
    mkToken NUMBER (PInt 3) 1 14; mkToken EOF PNone 1 15 ].

(** The tokens of [say 'a' and 'b']. *)
Definition say_and_tokens : list Token :=
  [ mkToken SAY PNone 1 1; mkToken STRING (PStr "a") 1 5;
    mkToken AND PNone 1 9; mkToken STRING (PStr "b") 1 13;
    mkToken EOF PNone 1 16 ].

(** An [if] that no [end] closes. *)
Definition unclosed_if_source : string :=
  Examples.source [ "if true then"; "  say 1" ].

Definition unclosed_if_tokens : list Token :=
  [ mkToken IF PNone 1 1; mkToken TRUE PNone 1 4; mkToken THEN PNone 1 9;
    mkToken NEWLINE PNone 1 13; mkToken SAY PNone 2 3;
    mkToken NUMBER (PInt 1) 2 7; mkToken EOF PNone 2 8 ].

(** A filter whose condition names [item]. *)
Definition filter_item_source : string := "kept is filter l where item".

Definition filter_item_tokens : list Token :=
  [ mkToken IDENTIFIER (PStr "kept") 1 1; mkToken IS PNone 1 6;
    mkToken FILTER PNone 1 9; mkToken IDENTIFIER (PStr "l") 1 16;
    mkToken WHERE PNone 1 18; mkToken ITEM PNone 1 24;
    mkToken EOF PNone 1 28 ].

(** A scheduler in virtual time at 0 with one task of each kind but
    cron: two one-shot tasks for the times 1 and 5, a periodic task
    every second and a job every three seconds. *)
Definition busy : Scheduler.t :=
  {| Scheduler.virtual_time := true; Scheduler.current_time := 0%float;
     Scheduler.jobs := [("j", Scheduler.mkEvery 3%float Examples.tick 0%float)];
     Scheduler.after_tasks :=
       [Scheduler.mkAfter 1%float Examples.tick;
        Scheduler.mkAfter 5%float Examples.tick];
     Scheduler.every_tasks :=
       [Scheduler.mkEvery 1%float Examples.tick 0%float];
     Scheduler.cron_tasks := [];
     Scheduler.running := false |}.

End Samples.

(** * Theorems *)

(** A statement about every run binds the stack it runs on (in its
    header or in its section); a run on a given program and state is on
    [Examples.ample]. *)
#[local] Existing Instance Examples.ample.

(** ** Permissions *)

Section PermissionFacts.
Import PyStr Permissions.

Lemma contains_spec (x : string) (l : list string) :
  contains x l = true <-> In x l.
Proof.
  induction l as [|y l IH]; simpl.
  - split; [discriminate | tauto].
  - rewrite orb_true_iff, IH, String.eqb_eq. split; intros [H|H]; auto.
Qed.

Lemma contains_perms_of (cap perm_string : string) :
  contains cap (perms_of perm_string) = true <-> listed cap perm_string.
Proof.
  unfold perms_of, listed. rewrite contains_spec, in_map_iff.
  split; intros [e [H1 H2]]; exists e; auto.
Qed.

End PermissionFacts.

(** C9.  [check_timers] returns normally exactly when the timers or the
    graphics capability is granted, [check_cron] exactly when the cron or
    the timers capability is granted; otherwise each raises its
    permission-denied [RuntimeError]. *)
Theorem check_timers_check_cron_spec (p : Permissions.t) :
  (Permissions.check_timers p = Ok tt <->
     Permissions.timers p = true \/ Permissions.graphics p = true) /\
  (Permissions.check_timers p = Ok tt \/
     Permissions.check_timers p = Raise (RuntimeError "Timer access not allowed")) /\
  (Permissions.check_cron p = Ok tt <->
     Permissions.cron p = true \/ Permissions.timers p = true) /\
  (Permissions.check_cron p = Ok tt \/
     Permissions.check_cron p = Raise (RuntimeError "Cron access not allowed")).
Proof.
  unfold Permissions.check_timers, Permissions.check_cron.
  destruct (Permissions.timers p), (Permissions.graphics p), (Permissions.cron p);
    simpl; repeat split; intros; auto; try discriminate;
    repeat match goal with H : _ \/ _ |- _ => destruct H end; try discriminate.
Qed.

(** The defaults, [packages] on and nothing else, are what the empty
    string gives. *)
Lemma init_empty_is_defaults :
  Permissions.init EmptyString = Permissions.defaults /\
  Permissions.packages Permissions.defaults = true.
Proof. split; reflexivity. Qed.

(** C10.  Built from a non-empty permission string, every capability,
    [packages] included, is granted exactly when its name is an entry of
    the comma-separated list ([python] and [python_ffi] both grant the
    Python capability); nothing is granted by default. *)
Theorem init_nonempty_grants_exactly_listed (s : string) (Hs : s <> EmptyString) :
  let p := Permissions.init s in
  (Permissions.network p = true <-> Permissions.listed "network" s) /\
  (Permissions.files p = true <-> Permissions.listed "files" s) /\
  (Permissions.graphics p = true <-> Permissions.listed "graphics" s) /\
  (Permissions.sound p = true <-> Permissions.listed "sound" s) /\
  (Permissions.packages p = true <-> Permissions.listed "packages" s) /\
  (Permissions.python_ffi p = true <-> Permissions.listed "python" s \/ Permissions.listed "python_ffi" s) /\
  (Permissions.server p = true <-> Permissions.listed "server" s) /\
  (Permissions.timers p = true <-> Permissions.listed "timers" s) /\
  (Permissions.cron p = true <-> Permissions.listed "cron" s) /\
  (Permissions.state p = true <-> Permissions.listed "state" s).
Proof.
  destruct s as [|c s]; [congruence|].
  cbv zeta. unfold Permissions.init.
  cbn [Permissions.network Permissions.files Permissions.graphics
       Permissions.sound Permissions.packages Permissions.python_ffi
       Permissions.server Permissions.timers Permissions.cron Permissions.state].
  rewrite orb_true_iff, !contains_perms_of. tauto.
Qed.

(** The string ["network, Timers"]: two entries, the second with a blank
    and a capital. *)
Lemma init_nonempty_grants_exactly_listed_witness :
  "network, Timers" <> EmptyString /\
  let p := Permissions.init "network, Timers" in
  (Permissions.network p = true <-> Permissions.listed "network" "network, Timers") /\
  (Permissions.files p = true <-> Permissions.listed "files" "network, Timers") /\
  (Permissions.graphics p = true <-> Permissions.listed "graphics" "network, Timers") /\
  (Permissions.sound p = true <-> Permissions.listed "sound" "network, Timers") /\
  (Permissions.packages p = true <-> Permissions.listed "packages" "network, Timers") /\
  (Permissions.python_ffi p = true <->
     Permissions.listed "python" "network, Timers" \/
     Permissions.listed "python_ffi" "network, Timers") /\
  (Permissions.server p = true <-> Permissions.listed "server" "network, Timers") /\
  (Permissions.timers p = true <-> Permissions.listed "timers" "network, Timers") /\
  (Permissions.cron p = true <-> Permissions.listed "cron" "network, Timers") /\
  (Permissions.state p = true <-> Permissions.listed "state" "network, Timers").
Proof.
  split; [discriminate|].
  apply (init_nonempty_grants_exactly_listed "network, Timers"). discriminate.
Defined.

(** There [network] and [timers] are granted and [packages], which the
    string omits, is denied. *)
Lemma packages_denied_when_omitted :
  Permissions.init "network, Timers" =
  {| Permissions.network := true; Permissions.files := false;
     Permissions.graphics := false; Permissions.sound := false;
     Permissions.packages := false; Permissions.python_ffi := false;
     Permissions.server := false; Permissions.timers := true;
     Permissions.cron := false; Permissions.state := false |}.
Proof. reflexivity. Qed.

(** ** The interpreter *)

Section InterpFacts.
Import Interp.
Context {stack : Runtime.Stack}.

Lemma bind_ok {A B} (m : M A) (k : A -> M B) (st st' : t) (a : A) :
  m st = (Ok a, st') -> (x ← m; k x) st = k a st'.
Proof. intros H. unfold mbind, M_bind. rewrite H. reflexivity. Qed.

Lemma evaluate_binary_eq (f : nat) (l : expr) (op : string) (r : expr) :
  evaluate (S (S f)) (BinaryOp l op r) =
  try_except (lhs ← evaluate f l; rhs ← evaluate f r; binary f op lhs rhs)
             (on_runtime_error VNone).
Proof. reflexivity. Qed.

Lemma evaluate_index_eq (f : nat) (obj index : expr) :
  evaluate (S f) (IndexAccess obj index) =
  try_except
    (o ← evaluate f obj;
     i ← evaluate f index;
     match o with
     | VList l => xs ← deref l; mret (list_item xs i)
     | _ => raise (RuntimeError ("Cannot index " +:+ type_repr o))
     end)
    (on_runtime_error VNone).
Proof. reflexivity. Qed.

Lemma set_target_index_eq (f : nat) (obj index : expr) (v : value) :
  set_target (S f) (IndexAccess obj index) v =
  (o ← evaluate f obj;
   i ← evaluate f index;
   match o with
   | VList l =>
       xs ← deref l;
       if in_bounds xs i
       then store l (<[Z.to_nat (default 0 (as_int i)) := v]> xs)
       else s ← str i;
            raise (RuntimeError ("Index " +:+ s +:+ " out of range"))
   | _ => raise (RuntimeError ("Cannot index " +:+ type_repr o))
   end).
Proof. reflexivity. Qed.


Lemma call_eq (f : nat) (name : string) (args : list expr) :
  PyStr.contains name BUILTINS = false ->
  evaluate_function_call (S f) name args =
  try_except
    (st0 ← read;
     func ← lift (Runtime.get_function (runtime st0) name);
     args ← evaluate_all f args;
     st1 ← read;
     func_runtime ← lift (Runtime.child_scope (heap st1) (runtime st1));
     let old_runtime := runtime st1 in
     _ ← set_runtime (bind_params (Runtime.params func) args func_runtime);
     try_finally
       (try_except
          (_ ← execute_block f (Runtime.body func); mret VNone)
          (fun e => match e with
                    | ReturnSignal v => mret v
                    | _ => raise e
                    end))
       (set_runtime old_runtime))
    (fun e => match e with
              | NameError _ =>
                  raise (RuntimeError ("Function '" +:+ name +:+ "' not defined"))
              | _ => raise e
              end).
Proof. intros H. cbn [evaluate_function_call]. rewrite H. reflexivity. Qed.

End InterpFacts.




(** C2, as the code has it.  For [and] and [or] both operands are
    evaluated, the left one first, whatever the left value is; the result
    is the left value when its truth settles the result and the right
    value otherwise. *)
Theorem and_or_evaluate_both_operands {stack : Runtime.Stack}
    (f : nat) (l r : expr) (op : string) (st st1 st2 : Interp.t)
    (lv rv : value) :
  op = "and" \/ op = "or" ->
  Interp.evaluate f l st = (Ok lv, st1) ->
  Interp.evaluate f r st1 = (Ok rv, st2) ->
  Interp.evaluate (S (S f)) (BinaryOp l op r) st =
    (Ok (Interp.and_or op (Interp.heap st2) lv rv), st2).
Proof.
  intros Hop Hl Hr. rewrite evaluate_binary_eq. unfold Interp.try_except.
  rewrite (bind_ok _ _ _ _ _ Hl), (bind_ok _ _ _ _ _ Hr).
  destruct Hop as [-> | ->]; reflexivity.
Qed.

(** [false and 7]: both literals are evaluated, the result is [false]. *)
Lemma and_or_evaluate_both_operands_witness :
  Interp.evaluate 3 (BinaryOp (BooleanLiteral false) "and" (NumberLiteral 7))
    (Interp.init false) =
  (Ok (VBool false), Interp.init false).
Proof.
  apply (and_or_evaluate_both_operands 1 (BooleanLiteral false) (NumberLiteral 7)
           "and" (Interp.init false) (Interp.init false) (Interp.init false)
           (VBool false) (VInt 7)).
  - left; reflexivity.
  - reflexivity.
  - reflexivity.
Defined.

(** C2, as the claim states it, fails: the left operand [false] settles
    the [and], yet the call on the right runs and writes its line before
    the result, [False], is printed. *)
Lemma and_runs_right_operand :
  let r := Gopa.run_source 60 Examples.noisy_and_source (Interp.init false) in
  fst r = Ok tt /\ Interp.output_stream (snd r) = ["evaluated"; "False"].
Proof. vm_compute. split; reflexivity. Qed.

(** ** Lexer and parser *)

Lemma tokenize_arithmetic :
  Lexer.tokenize Examples.arithmetic_source = Ok Examples.arithmetic_tokens.
Proof. vm_compute. reflexivity. Qed.

(** At the token [TIMES] no branch of [parse_statement] applies: it
    returns no statement and leaves the cursor where it was. *)
Lemma parse_statement_at_times (fuel : nat) :
  Parser.parse_statement Examples.arithmetic_tokens (S fuel) 5 = Ok (None, 5%nat).
Proof. reflexivity. Qed.

(** From there the statement loop of [parse] makes no progress. *)
Lemma parse_block_stuck_at_times (fuel : nat) (body : list stmt) :
  Parser.parse_block Examples.arithmetic_tokens fuel [EOF] body 5 = OutOfFuel.
Proof.
  revert body. induction fuel as [|fuel IH]; intros body; [reflexivity|].
  cbn [Parser.parse_block].
  change (Parser.match_ Examples.arithmetic_tokens 5 [EOF]) with false. cbv iota.
  destruct fuel as [|fuel']; [reflexivity|].
  rewrite parse_statement_at_times.
  change (Parser.skip_newlines Examples.arithmetic_tokens 5) with 5%nat in *.
  cbn [mbind outcome_bind]. apply IH.
Qed.

Lemma parse_statement_first (fuel : nat) :
  Parser.parse_statement Examples.arithmetic_tokens fuel 0 = OutOfFuel \/
  Parser.parse_statement Examples.arithmetic_tokens fuel 0 =
    Ok (Some (Assignment (Identifier "x")
                (BinaryOp (NumberLiteral 2) "plus" (NumberLiteral 3))), 5%nat).
Proof.
  do 12 (destruct fuel as [|fuel];
         [first [left; reflexivity | right; reflexivity]|]).
  right. reflexivity.
Qed.

Lemma parse_never_returns (fuel : nat) :
  Parser.parse Examples.arithmetic_tokens fuel = OutOfFuel.
Proof.
  unfold Parser.parse.
  change (Parser.skip_newlines Examples.arithmetic_tokens 0) with 0%nat.
  destruct fuel as [|fuel]; [reflexivity|].
  cbn [Parser.parse_block].
  change (Parser.match_ Examples.arithmetic_tokens 0 [EOF]) with false. cbv iota.
  destruct (parse_statement_first fuel) as [-> | ->]; [reflexivity|].
  cbn [mbind outcome_bind].
  change (Parser.skip_newlines Examples.arithmetic_tokens 5) with 5%nat.
  rewrite parse_block_stuck_at_times. reflexivity.
Qed.

(** C3 fails on the code.  In [x is 2 plus 3 times 4] the word [times]
    follows a digit, so the lexer emits the loop keyword [TIMES] (the
    sixth token) and not [TIMES_OP]; the parser reads [x is 2 plus 3] and
    then never gets past [TIMES]: whatever the fuel, the program is not
    parsed, so nothing runs and nothing is printed.  With a variable on
    the left of [times] the same sum does print 14. *)
Theorem times_after_digit_is_loop_keyword {stack : Runtime.Stack}
    (fuel : nat) (st : Interp.t) :
  (type <$> Examples.arithmetic_tokens !! 5%nat) = Some TIMES /\
  Gopa.run_source fuel Examples.arithmetic_source st = (OutOfFuel, st) /\
  (let r := Gopa.run_source 60 Examples.arithmetic_variable_source
              (Interp.init false) in
   fst r = Ok tt /\ Interp.output_stream (snd r) = ["14"]).
Proof.
  split; [reflexivity|]. split.
  - unfold Gopa.run_source. rewrite tokenize_arithmetic.
    unfold mbind at 1, Interp.M_bind, Interp.lift.
    cbn [mbind outcome_bind]. rewrite parse_never_returns. reflexivity.
  - vm_compute. split; reflexivity.
Qed.

(** ** The scheduler *)




(** ** Errors and control signals *)

(** C5 fails on the code.  With debug off, the undefined variable of
    [say y] raises [NameError], which is no [RuntimeError]: [execute]
    lets it through, nothing is printed and the statement after it does
    not run.  An undefined function, whose [NameError] the call turns
    into a [RuntimeError], is reported and the next statement runs.  The
    control signals do leave [execute] as they were raised. *)
Theorem undefined_variable_escapes_execute {stack : Runtime.Stack}
    (f : nat) (st : Interp.t) :
  Gopa.run_source 60 Examples.undefined_variable_source (Interp.init false) =
    (Raise (NameError "Variable 'y' not defined"), Interp.init false) /\
  (let r := Gopa.run_source 60 Examples.undefined_function_source
              (Interp.init false) in
   fst r = Ok tt /\
   Interp.output_stream (snd r) = ["Function 'f' not defined"; "after"]) /\
  Interp.execute (S f) BreakStatement st = (Raise BreakSignal, st) /\
  Interp.execute (S f) ContinueStatement st = (Raise ContinueSignal, st) /\
  Interp.execute (S f) StopStatement st = (Raise StopSignal, st) /\
  Interp.execute (S f) (ReturnStatement None) st = (Raise (ReturnSignal VNone), st).
Proof.
  split; [vm_compute; reflexivity|].
  split; [vm_compute; split; reflexivity|].
  repeat split; reflexivity.
Qed.

(** ** Index access *)

(** C6, as the code has it.  Reading an index of a String raises the
    runtime error [Cannot index <class 'str'>] whatever the index is:
    with debug on the error propagates, with debug off its message is
    printed and the read yields Nothing. *)
Theorem index_on_string_raises {stack : Runtime.Stack}
    (f : nat) (obj index : expr) (st st1 st2 : Interp.t) (s : string)
    (i : value) :
  Interp.evaluate f obj st = (Ok (VStr s), st1) ->
  Interp.evaluate f index st1 = (Ok i, st2) ->
  Interp.evaluate (S f) (IndexAccess obj index) st =
    if Interp.debug st2
    then (Raise (RuntimeError "Cannot index <class 'str'>"), st2)
    else (Ok VNone, Interp.emit "Cannot index <class 'str'>" st2).
Proof.
  intros Ho Hi. rewrite evaluate_index_eq. unfold Interp.try_except.
  rewrite (bind_ok _ _ _ _ _ Ho), (bind_ok _ _ _ _ _ Hi).
  cbn. unfold mbind, Interp.M_bind, Interp.read. cbn.
  destruct (Interp.debug st2); reflexivity.
Qed.

(** ["abc"[1]] with debug off. *)
Lemma index_on_string_raises_witness :
  Interp.evaluate 2 (IndexAccess (StringLiteral "abc") (NumberLiteral 1))
    (Interp.init false) =
  (Ok VNone, Interp.emit "Cannot index <class 'str'>" (Interp.init false)).
Proof.
  apply (index_on_string_raises 1 (StringLiteral "abc") (NumberLiteral 1)
           (Interp.init false) (Interp.init false) (Interp.init false)
           "abc" (VInt 1)); reflexivity.
Defined.

(** C6, as the claim states it, fails: index 1 is within ["abc"], yet
    [say s[1]] prints the error and then [None], not [b]. *)
Lemma string_index_in_range_yields_nothing :
  let r := Gopa.run_source 60 Examples.string_index_source (Interp.init false) in
  fst r = Ok tt /\
  Interp.output_stream (snd r) = ["Cannot index <class 'str'>"; "None"].
Proof. vm_compute. split; reflexivity. Qed.

(** C7 fails on the code for an index of more than 4300 digits.  For a
    List and an integer index [i] outside its bounds, assigning through
    the index target changes nothing (the list holds what it held) and
    raises the runtime error [Index i out of range] when [i] has at most
    4300 digits, that is below [PyStr.int_str_bound] = 10 ^ 4300 in
    absolute value; for a larger [i] the message cannot be formatted and
    the assignment raises [ValueError], which no handler of the
    interpreter catches.  Reading the same index yields Nothing and
    raises nothing, whatever [i] is. *)
Theorem list_index_out_of_range {stack : Runtime.Stack}
    (f : nat) (obj index : expr) (st st1 st2 : Interp.t)
    (l : loc) (xs : list value) (i : Z) (v : value) :
  Interp.evaluate f obj st = (Ok (VList l), st1) ->
  Interp.evaluate f index st1 = (Ok (VInt i), st2) ->
  Interp.heap st2 !! l = Some xs ->
  i < 0 \/ Z.of_nat (length xs) <= i ->
  Interp.set_target (S f) (IndexAccess obj index) v st =
    (Raise (if PyStr.int_str_bound <=? Z.abs i then ValueError
            else RuntimeError ("Index " +:+ pretty i +:+ " out of range")),
     st2) /\
  Interp.heap (snd (Interp.set_target (S f) (IndexAccess obj index) v st)) !! l =
    Some xs /\
  Interp.evaluate (S f) (IndexAccess obj index) st = (Ok VNone, st2).
Proof.
  intros Ho Hi Hl Hrange.
  assert (Hb : Interp.in_bounds xs (VInt i) = false).
  { unfold Interp.in_bounds. cbn. apply andb_false_iff.
    destruct Hrange; [left; apply Z.leb_gt; lia | right; apply Z.ltb_ge; lia]. }
  assert (Hset : Interp.set_target (S f) (IndexAccess obj index) v st =
    (Raise (if PyStr.int_str_bound <=? Z.abs i then ValueError
            else RuntimeError ("Index " +:+ pretty i +:+ " out of range")),
     st2)).
  { rewrite set_target_index_eq.
    rewrite (bind_ok _ _ _ _ _ Ho), (bind_ok _ _ _ _ _ Hi).
    unfold mbind, Interp.M_bind, Interp.deref. rewrite Hl, Hb.
    unfold Interp.str.
    destruct (PyStr.int_str_bound <=? Z.abs i); reflexivity. }
  split; [exact Hset|]. split; [rewrite Hset; exact Hl|].
  rewrite evaluate_index_eq. unfold Interp.try_except.
  rewrite (bind_ok _ _ _ _ _ Ho), (bind_ok _ _ _ _ _ Hi).
  unfold mbind, Interp.M_bind, Interp.deref, Interp.list_item. rewrite Hl, Hb.
  reflexivity.
Qed.

(** Index 5 of the three-element list [l], and the index 10 ^ 4300. *)
Lemma list_index_out_of_range_witness :
  let st := Examples.with_list in
  let target := IndexAccess (Identifier "l") (NumberLiteral 5) in
  let far := IndexAccess (Identifier "l") (NumberLiteral PyStr.int_str_bound) in
  (Interp.set_target 2 target (VInt 9) st =
     (Raise (RuntimeError "Index 5 out of range"), st) /\
   Interp.heap (snd (Interp.set_target 2 target (VInt 9) st)) !! 0%nat =
     Some [VInt 1; VInt 2; VInt 3] /\
   Interp.evaluate 2 target st = (Ok VNone, st)) /\
  (Interp.set_target 2 far (VInt 9) st = (Raise ValueError, st) /\
   Interp.heap (snd (Interp.set_target 2 far (VInt 9) st)) !! 0%nat =
     Some [VInt 1; VInt 2; VInt 3] /\
   Interp.evaluate 2 far st = (Ok VNone, st)).
Proof.
  intros st target far. split.
  - apply (list_index_out_of_range 1 (Identifier "l") (NumberLiteral 5) st st st
             0%nat [VInt 1; VInt 2; VInt 3] 5 (VInt 9)).
    + vm_compute. reflexivity.
    + vm_compute. reflexivity.
    + vm_compute. reflexivity.
    + right. vm_compute. discriminate.
  - apply (list_index_out_of_range 1 (Identifier "l")
             (NumberLiteral PyStr.int_str_bound) st st st
             0%nat [VInt 1; VInt 2; VInt 3] PyStr.int_str_bound (VInt 9)).
    + vm_compute. reflexivity.
    + vm_compute. reflexivity.
    + vm_compute. reflexivity.
    + right. vm_compute. discriminate.
Defined.

(** The same from a source text: [n] is 2 squared 14 times, a number
    of 4933 digits.  The [ValueError] leaves [execute], so the run ends
    there, with nothing printed, the list as it was, and the statement
    after the assignment not run. *)
Lemma index_of_many_digits_ends_the_run :
  let r := Gopa.run_source 60 Examples.far_index_source (Interp.init false) in
  fst r = Raise ValueError /\
  Interp.output_stream (snd r) = [] /\
  Interp.heap (snd r) = [[VInt 1; VInt 2; VInt 3]].
Proof. vm_compute. repeat split; reflexivity. Qed.

(** ** Filter and map *)

(** C8 fails on the code.  [item] is bound to Nothing in the current
    scope; after a filter, or a map, over a one-element list the binding
    is gone: the loop restores the old value only when it is not [None]
    and pops [item] otherwise. *)
Theorem filter_map_drop_item_bound_to_nothing :
  Examples.item_after Examples.item_is_nothing = Some VNone /\
  Examples.item_after Examples.filter_after_item_is_nothing = None /\
  Examples.item_after Examples.map_after_item_is_nothing = None.
Proof. vm_compute. repeat split; reflexivity. Qed.

(** ** Scopes *)

(** X1.  An assignment writes to the current scope only: the name then
    reads as the value assigned, every other name reads as before, and
    the parent scope and the functions are untouched.  A child scope,
    once [child_scope] has made it, reads every variable and function
    through to its parent, and a variable assigned in the child shadows
    the parent's, which stays the child's parent as it was. *)
Theorem assignment_is_local_to_its_scope {stack : Runtime.Stack}
    (r : Runtime.t) (x y : string) (v : value) :
  Runtime.get (Runtime.set r x v) x = Ok v /\
  (y <> x -> Runtime.get (Runtime.set r x v) y = Runtime.get r y) /\
  Runtime.parent (Runtime.set r x v) = Runtime.parent r /\
  Runtime.functions (Runtime.set r x v) = Runtime.functions r /\
  (forall heap child,
     Runtime.child_scope heap r = Ok child ->
     Runtime.get child y = Runtime.get r y /\
     Runtime.get_function child y = Runtime.get_function r y /\
     Runtime.get (Runtime.set child x v) x = Ok v /\
     Runtime.parent (Runtime.set child x v) = Some r).
Proof.
  destruct r as [vars funcs parent]. cbn.
  split; [rewrite lookup_insert_eq; reflexivity|].
  split; [intros Hne; rewrite lookup_insert_ne by congruence; reflexivity|].
  split; [reflexivity|]. split; [reflexivity|].
  intros heap child. unfold Runtime.child_scope, Runtime.deepcopy. cbn.
  destruct (Runtime.recursion_error heap funcs); [discriminate|].
  cbn. intros [= <-]. cbn. repeat split.
  - destruct (funcs !! y); reflexivity.
  - rewrite lookup_insert_eq. reflexivity.
Qed.

(** X2.  [has] and [get] agree on every chain of scopes: either [has]
    answers true and [get] returns a value, or [has] answers false and
    [get] raises the [NameError] that names the variable. *)
Theorem has_agrees_with_get (r : Runtime.t) (x : string) :
  (Runtime.has r x = true /\ exists v, Runtime.get r x = Ok v) \/
  (Runtime.has r x = false /\
   Runtime.get r x = Raise (NameError ("Variable '" +:+ x +:+ "' not defined"))).
Proof.
  revert r. fix IH 1. intros [vars funcs parent]. cbn.
  destruct (vars !! x) as [v|].
  - left. split; [reflexivity | exists v; reflexivity].
  - destruct parent as [p|]; [apply IH|].
    right. split; reflexivity.
Qed.

(** ** Calls *)

Lemma variables_bind_params_other (ps : list string) (vs : list value)
    (r : Runtime.t) (x : string) :
  x ∉ ps ->
  Runtime.variables (Interp.bind_params ps vs r) !! x = Runtime.variables r !! x.
Proof.
  revert vs r. induction ps as [|p ps IH]; intros vs r Hx; [reflexivity|].
  apply not_elem_of_cons in Hx as [Hne Hx].
  destruct vs as [|v vs]; cbn [Interp.bind_params]; rewrite IH by exact Hx;
    destruct r; cbn; apply lookup_insert_ne; congruence.
Qed.

Lemma get_of_variables (r : Runtime.t) (x : string) (v : value) :
  Runtime.variables r !! x = Some v -> Runtime.get r x = Ok v.
Proof. destruct r as [vars funcs parent]. cbn. intros ->. reflexivity. Qed.

(** X3.  The parameters of a call are bound by position: the i-th
    parameter reads as the i-th argument, or as Nothing when the call
    gives fewer arguments; arguments beyond the parameters are dropped,
    and no other name is bound in the callee's scope. *)
Theorem bind_params_positional
    (ps : list string) (vs : list value) (r : Runtime.t) (i : nat)
    (p x : string) :
  NoDup ps -> ps !! i = Some p -> x ∉ ps ->
  Runtime.get (Interp.bind_params ps vs r) p = Ok (default VNone (vs !! i)) /\
  Runtime.variables (Interp.bind_params ps vs r) !! x = Runtime.variables r !! x.
Proof.
  intros Hnd Hi Hx. split; [|apply variables_bind_params_other; exact Hx].
  apply get_of_variables.
  revert vs r i Hnd Hi. clear Hx.
  induction ps as [|q ps IH]; intros vs r i Hnd Hi; [discriminate|].
  apply NoDup_cons in Hnd as [Hq Hnd].
  destruct i as [|i]; cbn in Hi.
  - injection Hi as ->.
    destruct vs as [|v vs]; cbn [Interp.bind_params];
      rewrite variables_bind_params_other by exact Hq;
      destruct r; cbn; apply lookup_insert_eq.
  - destruct vs as [|v vs]; cbn [Interp.bind_params].
    + rewrite (IH [] _ i Hnd Hi). destruct i; reflexivity.
    + rewrite (IH vs _ i Hnd Hi). reflexivity.
Qed.

(** Three parameters, two arguments: the third parameter is Nothing. *)
Lemma bind_params_positional_witness :
  Runtime.get (Interp.bind_params ["a"; "b"; "c"] [VInt 1; VInt 2]
                 (Runtime.new (Some (Runtime.new None)))) "c" = Ok VNone /\
  Runtime.variables (Interp.bind_params ["a"; "b"; "c"] [VInt 1; VInt 2]
                       (Runtime.new (Some (Runtime.new None)))) !! "d" = None.
Proof.
  apply (bind_params_positional ["a"; "b"; "c"] [VInt 1; VInt 2]
           (Runtime.new (Some (Runtime.new None))) 2 "c" "d").
  - compute_done.
  - reflexivity.
  - compute_done.
Defined.

(** X4.  Once [child_scope] has made the callee's scope, whatever way
    the body of a user-defined function ends, the caller's scope is
    current again after the call.  A body that falls off its end yields
    Nothing and a [Return] its value; a [NameError] raised in the body,
    an undefined variable included, leaves the call as the runtime error
    [Function 'name' not defined]; every other exception, [Break],
    [Continue] and [Stop] included, leaves the call as it was raised. *)
Theorem call_outcome_follows_body {stack : Runtime.Stack}
    (f : nat) (name : string) (args : list expr) (st st1 st2 : Interp.t)
    (func : Runtime.function) (vs : list value) (child : Runtime.t)
    (r : outcome unit) :
  PyStr.contains name Interp.BUILTINS = false ->
  Runtime.get_function (Interp.runtime st) name = Ok func ->
  Interp.evaluate_all f args st = (Ok vs, st1) ->
  Runtime.child_scope (Interp.heap st1) (Interp.runtime st1) = Ok child ->
  Interp.execute_block f (Runtime.body func)
    (Interp.with_runtime
       (Interp.bind_params (Runtime.params func) vs child) st1) = (r, st2) ->
  Interp.evaluate_function_call (S f) name args st =
    (match r with
     | Ok _ => Ok VNone
     | Raise (ReturnSignal v) => Ok v
     | Raise (NameError _) =>
         Raise (RuntimeError ("Function '" +:+ name +:+ "' not defined"))
     | Raise e => Raise e
     | Unmodelled w => Unmodelled w
     | OutOfFuel => OutOfFuel
     end,
     Interp.with_runtime (Interp.runtime st1) st2).
Proof.
  intros Hb Hf Ha Hchild Hbody.
  rewrite (call_eq f name args Hb).
  unfold Interp.try_except at 1.
  unfold mbind at 1, Interp.M_bind at 1, Interp.read at 1.
  unfold mbind at 1, Interp.M_bind at 1, Interp.lift at 1. rewrite Hf.
  unfold mbind at 1, Interp.M_bind at 1. rewrite Ha.
  unfold mbind at 1, Interp.M_bind at 1, Interp.read at 1.
  unfold mbind at 1, Interp.M_bind at 1, Interp.lift at 1. rewrite Hchild.
  cbv zeta.
  unfold mbind at 1, Interp.M_bind at 1, Interp.set_runtime at 1.
  unfold Interp.try_finally, Interp.try_except, mbind, Interp.M_bind.
  rewrite Hbody.
  destruct r as [[]|e| |]; try reflexivity.
  destruct e; reflexivity.
Qed.

(** The body of [g] reads the undefined [y]: the call reports that [g]
    is not defined. *)
Lemma call_outcome_follows_body_witness :
  Interp.evaluate_function_call 6 "g" [] Samples.with_broken_function =
  (Raise (RuntimeError "Function 'g' not defined"),
   Samples.with_broken_function).
Proof.
  exact (call_outcome_follows_body 5 "g" [] Samples.with_broken_function
           Samples.with_broken_function
           (Interp.with_runtime
              (Runtime.mk ∅
                 (Runtime.functions (Interp.runtime Samples.with_broken_function))
                 (Some (Interp.runtime Samples.with_broken_function)))
              Samples.with_broken_function)
           (Runtime.mkFunction "g" [] [SayStatement [Identifier "y"]] ∅) []
           (Runtime.mk ∅
              (Runtime.functions (Interp.runtime Samples.with_broken_function))
              (Some (Interp.runtime Samples.with_broken_function)))
           (Raise (NameError "Variable 'y' not defined"))
           ltac:(reflexivity) ltac:(vm_compute; reflexivity)
           ltac:(reflexivity) ltac:(reflexivity)
           ltac:(vm_compute; reflexivity)).
Defined.

(** ** Arithmetic *)

Lemma py_eq_zero (f : nat) (h : list (list value)) (v : value) :
  Interp.as_int v = Some 0 -> Interp.py_eq (S f) h v (VInt 0) = Some true.
Proof. destruct v as [|[]|n| |]; cbn; intros [=]; subst; reflexivity. Qed.

(** X5.  Dividing by a right operand that equals zero, [0] or [false],
    is the runtime error [Division by zero] whatever the left operand
    is, a string included: with debug on it propagates, with debug off
    it is printed and the division yields Nothing. *)
Theorem division_by_zero_is_reported {stack : Runtime.Stack}
    (f : nat) (l r : expr) (st st1 st2 : Interp.t) (lv rv : value) :
  Interp.evaluate (S f) l st = (Ok lv, st1) ->
  Interp.evaluate (S f) r st1 = (Ok rv, st2) ->
  Interp.as_int rv = Some 0 ->
  Interp.evaluate (S (S (S f))) (BinaryOp l "divided_by" r) st =
    if Interp.debug st2
    then (Raise (RuntimeError "Division by zero"), st2)
    else (Ok VNone, Interp.emit "Division by zero" st2).
Proof.
  intros Hl Hr Hz. rewrite evaluate_binary_eq. unfold Interp.try_except.
  rewrite (bind_ok _ _ _ _ _ Hl), (bind_ok _ _ _ _ _ Hr).
  unfold Interp.binary. cbn [String.eqb Ascii.eqb Bool.eqb].
  unfold mbind at 1, Interp.M_bind at 1, Interp.equal.
  rewrite (py_eq_zero f _ _ Hz).
  cbn. unfold mbind, Interp.M_bind, Interp.read. cbn.
  destruct (Interp.debug st2); reflexivity.
Qed.

(** ["a" divided by false] with debug off. *)
Lemma division_by_zero_is_reported_witness :
  Interp.evaluate 3
    (BinaryOp (StringLiteral "a") "divided_by" (BooleanLiteral false))
    (Interp.init false) =
  (Ok VNone, Interp.emit "Division by zero" (Interp.init false)).
Proof.
  apply (division_by_zero_is_reported 0 (StringLiteral "a")
           (BooleanLiteral false) (Interp.init false) (Interp.init false)
           (Interp.init false) (VStr "a") (VBool false)); reflexivity.
Defined.

(** X6.  [plus] on a string and a number raises Python's [TypeError],
    which is no [RuntimeError]: neither [evaluate] nor [execute] catches
    it, so it ends the statement and everything around it, debug on or
    off. *)
Theorem plus_on_string_and_number_raises {stack : Runtime.Stack}
    (f : nat) (l r : expr) (st st1 st2 : Interp.t) (s : string) (rv : value)
    (n : Z) :
  Interp.evaluate f l st = (Ok (VStr s), st1) ->
  Interp.evaluate f r st1 = (Ok rv, st2) ->
  Interp.as_int rv = Some n ->
  Interp.evaluate (S (S f)) (BinaryOp l "plus" r) st = (Raise TypeError, st2) /\
  Interp.execute (S (S (S f))) (PrintStatement (BinaryOp l "plus" r)) st =
    (Raise TypeError, st2).
Proof.
  intros Hl Hr Hn.
  assert (He : Interp.evaluate (S (S f)) (BinaryOp l "plus" r) st =
               (Raise TypeError, st2)).
  { rewrite evaluate_binary_eq. unfold Interp.try_except.
    rewrite (bind_ok _ _ _ _ _ Hl), (bind_ok _ _ _ _ _ Hr).
    unfold Interp.binary. cbn [String.eqb Ascii.eqb Bool.eqb].
    unfold Interp.add. rewrite Hn. cbn [Interp.as_int].
    destruct rv; try discriminate; reflexivity. }
  split; [exact He|].
  cbn [Interp.execute]. unfold Interp.try_except at 1.
  unfold mbind at 1, Interp.M_bind at 1. rewrite He. reflexivity.
Qed.

(** ["Total: " plus 5] *)
Lemma plus_on_string_and_number_raises_witness :
  Interp.evaluate 3
    (BinaryOp (StringLiteral "Total: ") "plus" (NumberLiteral 5))
    (Interp.init false) = (Raise TypeError, Interp.init false) /\
  Interp.execute 4
    (PrintStatement
       (BinaryOp (StringLiteral "Total: ") "plus" (NumberLiteral 5)))
    (Interp.init false) = (Raise TypeError, Interp.init false).
Proof.
  apply (plus_on_string_and_number_raises 1 (StringLiteral "Total: ")
           (NumberLiteral 5) (Interp.init false) (Interp.init false)
           (Interp.init false) "Total: " (VInt 5) 5); reflexivity.
Defined.

(** ** Lists *)

Lemma evaluate_identifier {stack : Runtime.Stack}
    (f : nat) (x : string) (v : value) (st : Interp.t) :
  Runtime.get (Interp.runtime st) x = Ok v ->
  Interp.evaluate (S f) (Identifier x) st = (Ok v, st).
Proof.
  intros H. cbn [Interp.evaluate].
  unfold Interp.try_except, mbind, Interp.M_bind, Interp.read, Interp.lift.
  rewrite H. reflexivity.
Qed.

Lemma in_bounds_inside (xs : list value) (i : Z) :
  0 <= i < Z.of_nat (length xs) -> Interp.in_bounds xs (VInt i) = true.
Proof.
  intros Hi. unfold Interp.in_bounds. cbn [Interp.as_int].
  apply andb_true_iff. split; [apply Z.leb_le | apply Z.ltb_lt]; lia.
Qed.

(** X7.  Assigning through an index within the bounds of a list
    replaces that one element of the list object: reading the index
    back, through the same variable or any other variable bound to the
    same list, yields the value assigned, and every other index reads
    as before. *)
Theorem index_assignment_round_trip {stack : Runtime.Stack}
    (f : nat) (x y : string) (st : Interp.t) (l : loc) (xs : list value)
    (i j : Z) (v : value) :
  Runtime.get (Interp.runtime st) x = Ok (VList l) ->
  Runtime.get (Interp.runtime st) y = Ok (VList l) ->
  Interp.heap st !! l = Some xs ->
  0 <= i < Z.of_nat (length xs) ->
  let st' :=
    Interp.with_heap (<[l := <[Z.to_nat i := v]> xs]> (Interp.heap st)) st in
  Interp.set_target (S (S f)) (IndexAccess (Identifier x) (NumberLiteral i)) v st =
    (Ok tt, st') /\
  Interp.evaluate (S (S f)) (IndexAccess (Identifier y) (NumberLiteral j)) st' =
    (Ok (if j =? i then v else Interp.list_item xs (VInt j)), st').
Proof.
  intros Hx Hy Hl Hi st'. split.
  - rewrite set_target_index_eq.
    rewrite (bind_ok _ _ _ _ _ (evaluate_identifier f x _ st Hx)).
    rewrite (bind_ok _ (fun i0 => _) st st (VInt i)) by reflexivity.
    unfold mbind, Interp.M_bind, Interp.deref. rewrite Hl.
    rewrite (in_bounds_inside xs i Hi). reflexivity.
  - rewrite evaluate_index_eq. unfold Interp.try_except.
    rewrite (bind_ok _ _ _ _ _ (evaluate_identifier f y _ st' Hy)).
    rewrite (bind_ok _ (fun i0 => _) st' st' (VInt j)) by reflexivity.
    unfold mbind, Interp.M_bind, Interp.deref. subst st'.
    cbn [Interp.heap Interp.with_heap].
    rewrite list_lookup_insert_eq by (apply lookup_lt_Some in Hl; exact Hl).
    unfold Interp.list_item, Interp.in_bounds. cbn [Interp.as_int default].
    rewrite length_insert. unfold id.
    destruct (Z.eqb_spec j i) as [->|Hne].
    + replace ((0 <=? i) && (i <? Z.of_nat (length xs))) with true
        by (symmetry; apply andb_true_iff; split;
            [apply Z.leb_le | apply Z.ltb_lt]; lia).
      rewrite list_lookup_insert_eq by lia. reflexivity.
    + destruct ((0 <=? j) && (j <? Z.of_nat (length xs))) eqn:Hb;
        [|reflexivity].
      apply andb_true_iff in Hb as [H0 H1].
      apply Z.leb_le in H0. apply Z.ltb_lt in H1.
      rewrite list_lookup_insert_ne by lia. reflexivity.
Qed.

(** [l[1]] of the three-element list [l] becomes 9. *)
Lemma index_assignment_round_trip_witness :
  Interp.set_target 2 (IndexAccess (Identifier "l") (NumberLiteral 1)) (VInt 9)
    Examples.with_list =
    (Ok tt, Interp.with_heap [[VInt 1; VInt 9; VInt 3]] Examples.with_list) /\
  Interp.evaluate 2 (IndexAccess (Identifier "l") (NumberLiteral 1))
    (Interp.with_heap [[VInt 1; VInt 9; VInt 3]] Examples.with_list) =
    (Ok (VInt 9), Interp.with_heap [[VInt 1; VInt 9; VInt 3]] Examples.with_list).
Proof.
  apply (index_assignment_round_trip 0 "l" "l" Examples.with_list 0%nat
           [VInt 1; VInt 2; VInt 3] 1 1 (VInt 9)).
  - vm_compute. reflexivity.
  - vm_compute. reflexivity.
  - vm_compute. reflexivity.
  - cbn. lia.
Defined.
(** ** Filter and map over a list *)

Section LoopFacts.
Context {stack : Runtime.Stack}.
Import Interp Invariant.

(** What the loops of [evaluate_filter] and [evaluate_map] do to the
    binding of [item] around one round: it is as it was, unless it was
    bound to [None]. *)
Lemma item_restored (r : Runtime.t) (x : value) :
  Runtime.variables r !! "item" <> Some VNone ->
  match Runtime.variables r !! "item" with
  | Some VNone | None => Runtime.pop (Runtime.set r "item" x) "item"
  | Some old => Runtime.set (Runtime.set r "item" x) "item" old
  end = r.
Proof.
  destruct r as [vars funcs parent]. cbn. intros Hitem.
  destruct (vars !! "item") as [old|] eqn:E.
  - assert (Runtime.set (Runtime.set (Runtime.mk vars funcs parent) "item" x)
              "item" old = Runtime.mk vars funcs parent) as Hset.
    { unfold Runtime.set. cbn. f_equal.
      rewrite insert_insert_eq. apply insert_id. exact E. }
    destruct old; try exact Hset. congruence.
  - unfold Runtime.pop, Runtime.set. cbn. f_equal.
    rewrite delete_insert_eq. apply delete_id. exact E.
Qed.

Lemma deref_grown (st : t) (l : loc) (xs acc : list value) :
  heap st !! l = Some xs -> deref l (grown st acc) = (Ok xs, grown st acc).
Proof.
  intros Hl. unfold deref, grown. cbn [heap with_heap].
  rewrite lookup_app_l by (apply lookup_lt_Some in Hl; exact Hl).
  unfold loc in *. rewrite Hl. reflexivity.
Qed.

Lemma deref_result (st : t) (acc : list value) :
  deref (length (heap st)) (grown st acc) = (Ok acc, grown st acc).
Proof.
  unfold deref, grown. cbn [heap with_heap].
  rewrite lookup_app_r by lia. rewrite Nat.sub_diag. reflexivity.
Qed.

Lemma store_result (st : t) (acc ys : list value) :
  store (length (heap st)) ys (grown st acc) = (Ok tt, grown st ys).
Proof.
  unfold store, grown. destruct st as [r h o d]. cbn.
  rewrite insert_app_r_alt by lia. rewrite Nat.sub_diag. reflexivity.
Qed.

(** One round of the loops seen from the state [grown st acc]: binding
    [item], evaluating [e] without a change of state and restoring
    [item] leads back to [grown st acc]. *)
Lemma round_restores {B} (st : t) (acc : list value) (x c : value) (e : expr)
    (f : nat) (k : value -> M B) :
  Runtime.variables (runtime st) !! "item" <> Some VNone ->
  (let s := with_runtime (Runtime.set (runtime st) "item" x) (grown st acc) in
   evaluate f e s = (Ok c, s)) ->
  (s ← read;
   let old_item := Runtime.variables (runtime s) !! "item" in
   _ ← set_runtime (Runtime.set (runtime s) "item" x);
   c ← evaluate f e;
   s' ← read;
   _ ← match old_item with
       | Some VNone | None => set_runtime (Runtime.pop (runtime s') "item")
       | Some old => set_runtime (Runtime.set (runtime s') "item" old)
       end;
   k c) (grown st acc) = k c (grown st acc).
Proof.
  intros Hitem Hev. cbv zeta in Hev.
  unfold mbind at 1, M_bind at 1, read at 1. cbv zeta.
  unfold mbind at 1, M_bind at 1, set_runtime at 1.
  change (runtime (grown st acc)) with (runtime st).
  unfold mbind at 1, M_bind at 1. rewrite Hev.
  unfold mbind at 1, M_bind at 1, read at 1.
  pose proof (item_restored (runtime st) x Hitem) as Hr.
  unfold grown in *. destruct st as [r0 h0 o0 d0]. cbn in *.
  destruct (Runtime.variables r0 !! "item") as [[]|];
    unfold mbind, M_bind, set_runtime, with_runtime; cbn; rewrite Hr;
    reflexivity.
Qed.

Lemma drop_nil_ge {A} (xs : list A) (i : nat) :
  drop i xs = [] -> (length xs <= i)%nat.
Proof.
  intros H. pose proof (length_drop xs i) as E. rewrite H in E. cbn in E. lia.
Qed.

Lemma drop_cons_lookup {A} (xs rest : list A) (x : A) (i : nat) :
  drop i xs = x :: rest -> xs !! i = Some x /\ drop (S i) xs = rest.
Proof.
  intros H. split.
  - rewrite <- (Nat.add_0_r i), <- lookup_drop, H. reflexivity.
  - replace (S i) with (i + 1)%nat by lia.
    rewrite <- (drop_drop xs 1 i), H. reflexivity.
Qed.

Section Loops.
Variables (b : nat) (st1 : t) (l : loc) (xs : list value).
Hypothesis Hl : heap st1 !! l = Some xs.
Hypothesis Hitem : Runtime.variables (runtime st1) !! "item" <> Some VNone.

Lemma filter_loop_spec (condition : expr) (p : value -> bool) :
  (forall k s x, (b <= k)%nat -> x ∈ xs ->
     runtime s = Runtime.set (runtime st1) "item" x ->
     exists c, evaluate k condition s = (Ok c, s) /\
               truthy (heap s) c = p x) ->
  forall (rest : list value) (i : nat) (acc : list value) (fuel : nat),
    drop i xs = rest ->
    (b + length rest < fuel)%nat ->
    filter_loop fuel l i condition (VList (length (heap st1))) (grown st1 acc) =
      (Ok (VList (length (heap st1))), grown st1 (acc ++ List.filter p rest)).
Proof.
  intros Hc rest. induction rest as [|x rest IH]; intros i acc fuel Hdrop Hfuel;
    (destruct fuel as [|fuel]; [cbn in Hfuel; lia|]); cbn [filter_loop].
  - rewrite (bind_ok _ _ _ _ _ (deref_grown st1 l xs acc Hl)).
    rewrite (lookup_ge_None_2 xs i) by (apply drop_nil_ge; exact Hdrop).
    cbn [List.filter]. rewrite app_nil_r. reflexivity.
  - destruct (drop_cons_lookup xs rest x i Hdrop) as [Hx Hrest].
    rewrite (bind_ok _ _ _ _ _ (deref_grown st1 l xs acc Hl)). rewrite Hx.
    destruct (Hc fuel (with_runtime (Runtime.set (runtime st1) "item" x)
                         (grown st1 acc)) x)
      as [c [Hev Ht]];
      [cbn in Hfuel; lia | apply (list_elem_of_lookup_2 _ i); exact Hx
      | reflexivity |].
    rewrite (round_restores st1 acc x c condition fuel _ Hitem Hev).
    unfold mbind at 1, M_bind at 1, truth at 1.
    change (heap (grown st1 acc))
      with (heap (with_runtime (Runtime.set (runtime st1) "item" x)
                    (grown st1 acc))).
    rewrite Ht. cbn [List.filter]. destruct (p x).
    + unfold mbind at 1, M_bind at 1.
      rewrite (bind_ok _ _ _ _ _ (deref_result st1 acc)).
      rewrite store_result.
      rewrite (IH (S i) (acc ++ [x]) fuel Hrest) by (cbn in Hfuel; lia).
      rewrite <- app_assoc. reflexivity.
    + unfold mbind at 1, M_bind at 1, mret at 1, M_ret at 1.
      rewrite (IH (S i) acc fuel Hrest) by (cbn in Hfuel; lia). reflexivity.
Qed.

Lemma map_loop_spec (transform : expr) (g : value -> value) :
  (forall k s x, (b <= k)%nat -> x ∈ xs ->
     runtime s = Runtime.set (runtime st1) "item" x ->
     evaluate k transform s = (Ok (g x), s)) ->
  forall (rest : list value) (i : nat) (acc : list value) (fuel : nat),
    drop i xs = rest ->
    (b + length rest < fuel)%nat ->
    map_loop fuel l i transform (VList (length (heap st1))) (grown st1 acc) =
      (Ok (VList (length (heap st1))), grown st1 (acc ++ List.map g rest)).
Proof.
  intros Hc rest. induction rest as [|x rest IH]; intros i acc fuel Hdrop Hfuel;
    (destruct fuel as [|fuel]; [cbn in Hfuel; lia|]); cbn [map_loop].
  - rewrite (bind_ok _ _ _ _ _ (deref_grown st1 l xs acc Hl)).
    rewrite (lookup_ge_None_2 xs i) by (apply drop_nil_ge; exact Hdrop).
    cbn [List.map]. rewrite app_nil_r. reflexivity.
  - destruct (drop_cons_lookup xs rest x i Hdrop) as [Hx Hrest].
    rewrite (bind_ok _ _ _ _ _ (deref_grown st1 l xs acc Hl)). rewrite Hx.
    assert (Hev : evaluate fuel transform
                    (with_runtime (Runtime.set (runtime st1) "item" x)
                       (grown st1 acc)) =
                  (Ok (g x), with_runtime (Runtime.set (runtime st1) "item" x)
                               (grown st1 acc))).
    { apply Hc; [cbn in Hfuel; lia | apply (list_elem_of_lookup_2 _ i); exact Hx
                | reflexivity]. }
    rewrite (round_restores st1 acc x (g x) transform fuel _ Hitem Hev).
    unfold mbind at 1, M_bind at 1.
    rewrite (bind_ok _ _ _ _ _ (deref_result st1 acc)).
    rewrite store_result.
    rewrite (IH (S i) (acc ++ [g x]) fuel Hrest) by (cbn in Hfuel; lia).
    rewrite <- app_assoc. reflexivity.
Qed.

End Loops.

End LoopFacts.

(** X8.  A filter over a list whose condition, for every item bound to
    [item], evaluates without changing the state yields a new list
    object holding, in their order, exactly the items for which the
    condition is true; the list filtered and the variables are as
    before, provided [item] was not bound to Nothing. *)
Theorem filter_keeps_the_items_that_pass {stack : Runtime.Stack}
    (b f : nat) (list_expr condition : expr) (p : value -> bool)
    (st st1 : Interp.t) (l : loc) (xs : list value) :
  Interp.evaluate f list_expr st = (Ok (VList l), st1) ->
  Interp.heap st1 !! l = Some xs ->
  Runtime.variables (Interp.runtime st1) !! "item" <> Some VNone ->
  (forall k s x, (b <= k)%nat -> x ∈ xs ->
     Interp.runtime s = Runtime.set (Interp.runtime st1) "item" x ->
     exists c, Interp.evaluate k condition s = (Ok c, s) /\
               Interp.truthy (Interp.heap s) c = p x) ->
  (b + length xs < f)%nat ->
  Interp.evaluate (S (S f)) (FilterExpression list_expr condition) st =
    (Ok (VList (length (Interp.heap st1))),
     Interp.with_heap (Interp.heap st1 ++ [List.filter p xs]) st1).
Proof.
  intros Hle Hl Hitem Hc Hfuel.
  cbn [Interp.evaluate Interp.evaluate_filter]. unfold Interp.try_except.
  rewrite (bind_ok _ _ _ _ _ Hle).
  unfold mbind at 1, Interp.M_bind at 1, Interp.alloc at 1.
  change (Interp.with_heap (Interp.heap st1 ++ [[]]) st1)
    with (Invariant.grown st1 []).
  rewrite (filter_loop_spec b st1 l xs Hl Hitem condition p Hc xs 0 [] f)
    by (reflexivity || exact Hfuel).
  reflexivity.
Qed.

(** The items of [[1, 2, 3]] above 1. *)
Lemma filter_keeps_the_items_that_pass_witness :
  Interp.evaluate 12 (FilterExpression (Identifier "l") Samples.above_one)
    Examples.with_list =
  (Ok (VList 1%nat),
   Interp.with_heap [[VInt 1; VInt 2; VInt 3]; [VInt 2; VInt 3]]
     Examples.with_list).
Proof.
  apply (filter_keeps_the_items_that_pass 3 10 (Identifier "l")
           Samples.above_one
           (fun x => match x with VInt n => 1 <? n | _ => false end)
           Examples.with_list Examples.with_list 0%nat
           [VInt 1; VInt 2; VInt 3]).
  - vm_compute. reflexivity.
  - vm_compute. reflexivity.
  - vm_compute. discriminate.
  - intros k s x Hk Hx Hr.
    do 3 (destruct k as [|k]; [lia|]).
    destruct s as [r h o d]. cbn in Hr. subst r.
    exists (VBool (match x with VInt n => 1 <? n | _ => false end)).
    apply list_elem_of_In in Hx.
    destruct Hx as [<-|[<-|[<-|[]]]]; split; vm_compute; reflexivity.
  - cbn. lia.
Defined.

(** X9.  A map over a list whose transform, for every item bound to
    [item], evaluates without changing the state yields a new list
    object holding the transformed items in order; the list mapped and
    the variables are as before, provided [item] was not bound to
    Nothing. *)
Theorem map_transforms_every_item {stack : Runtime.Stack}
    (b f : nat) (list_expr transform : expr) (g : value -> value)
    (st st1 : Interp.t) (l : loc) (xs : list value) :
  Interp.evaluate f list_expr st = (Ok (VList l), st1) ->
  Interp.heap st1 !! l = Some xs ->
  Runtime.variables (Interp.runtime st1) !! "item" <> Some VNone ->
  (forall k s x, (b <= k)%nat -> x ∈ xs ->
     Interp.runtime s = Runtime.set (Interp.runtime st1) "item" x ->
     Interp.evaluate k transform s = (Ok (g x), s)) ->
  (b + length xs < f)%nat ->
  Interp.evaluate (S (S f)) (MapExpression list_expr transform) st =
    (Ok (VList (length (Interp.heap st1))),
     Interp.with_heap (Interp.heap st1 ++ [List.map g xs]) st1).
Proof.
  intros Hle Hl Hitem Hc Hfuel.
  cbn [Interp.evaluate Interp.evaluate_map]. unfold Interp.try_except.
  rewrite (bind_ok _ _ _ _ _ Hle).
  unfold mbind at 1, Interp.M_bind at 1, Interp.alloc at 1.
  change (Interp.with_heap (Interp.heap st1 ++ [[]]) st1)
    with (Invariant.grown st1 []).
  rewrite (map_loop_spec b st1 l xs Hl Hitem transform g Hc xs 0 [] f)
    by (reflexivity || exact Hfuel).
  reflexivity.
Qed.

(** The successors of [[1, 2, 3]]. *)
Lemma map_transforms_every_item_witness :
  Interp.evaluate 12 (MapExpression (Identifier "l") Samples.successor)
    Examples.with_list =
  (Ok (VList 1%nat),
   Interp.with_heap [[VInt 1; VInt 2; VInt 3]; [VInt 2; VInt 3; VInt 4]]
     Examples.with_list).
Proof.
  apply (map_transforms_every_item 3 10 (Identifier "l") Samples.successor
           (fun x => match x with VInt n => VInt (n + 1) | _ => VNone end)
           Examples.with_list Examples.with_list 0%nat
           [VInt 1; VInt 2; VInt 3]).
  - vm_compute. reflexivity.
  - vm_compute. reflexivity.
  - vm_compute. discriminate.
  - intros k s x Hk Hx Hr.
    do 3 (destruct k as [|k]; [lia|]).
    destruct s as [r h o d]. cbn in Hr. subst r.
    apply list_elem_of_In in Hx.
    destruct Hx as [<-|[<-|[<-|[]]]]; vm_compute; reflexivity.
  - cbn. lia.
Defined.

(** ** Loops *)

Lemma repeat_times_iter {stack : Runtime.Stack}
    (b : nat) (body : list stmt) (g : Interp.t -> Interp.t) :
  (forall k s, (b <= k)%nat -> Interp.execute_block k body s = (Ok tt, g s)) ->
  forall (n fuel : nat) (st : Interp.t),
    (b + n < fuel)%nat ->
    Interp.execute_repeat_times fuel n body st = (Ok tt, Nat.iter n g st).
Proof.
  intros Hbody n. induction n as [|n IH]; intros fuel st Hfuel.
  - destruct fuel as [|fuel]; [lia|]. reflexivity.
  - destruct fuel as [|fuel]; [lia|]. cbn [Interp.execute_repeat_times].
    unfold Interp.try_except, mbind, Interp.M_bind. rewrite Hbody by lia.
    cbn.
    change (Interp.execute_repeat_times fuel n body (g st) =
            (Ok tt, g (Nat.iter n g st))).
    rewrite IH by lia. rewrite <- Nat.iter_succ, Nat.iter_succ_r. reflexivity.
Qed.

(** X10.  [repeat count times] evaluates the count once, converts it
    with [int], and runs the body that many times, not at all when the
    count is zero or negative: for a body that always completes and
    changes the state by [g], the state after the loop is [g] iterated
    that many times on the state the count left. *)
Theorem repeat_times_runs_body_count_times {stack : Runtime.Stack}
    (b f : nat) (count : expr) (body : list stmt) (g : Interp.t -> Interp.t)
    (st st1 : Interp.t) (c : value) (n : Z) :
  Interp.evaluate f count st = (Ok c, st1) ->
  Interp.int c st1 = (Ok n, st1) ->
  (forall k s, (b <= k)%nat -> Interp.execute_block k body s = (Ok tt, g s)) ->
  (b + Z.to_nat n < f)%nat ->
  Interp.execute (S f) (RepeatTimes count body) st =
    (Ok tt, Nat.iter (Z.to_nat n) g st1).
Proof.
  intros Hc Hn Hbody Hfuel. cbn [Interp.execute]. unfold Interp.try_except.
  rewrite (bind_ok _ _ _ _ _ Hc), (bind_ok _ _ _ _ _ Hn).
  rewrite (repeat_times_iter b body g Hbody) by exact Hfuel. reflexivity.
Qed.

(** [repeat "3" times / say "tick" / end]: the count is a string that
    [int] reads as 3. *)
Lemma repeat_times_runs_body_count_times_witness :
  Interp.execute 10 (RepeatTimes (StringLiteral "3") Examples.tick)
    (Interp.init false) =
  (Ok tt,
   Interp.emit "tick" (Interp.emit "tick" (Interp.emit "tick" (Interp.init false)))).
Proof.
  apply (repeat_times_runs_body_count_times 4 9 (StringLiteral "3")
           Examples.tick (Interp.emit "tick") (Interp.init false)
           (Interp.init false) (VStr "3") 3).
  - reflexivity.
  - reflexivity.
  - intros k s Hk. do 4 (destruct k as [|k]; [lia|]). reflexivity.
  - vm_compute. lia.
Defined.

(** X11.  In [do ... until], a [continue] starts the body again without
    the condition being tested: when the body ends in [continue] from
    every state, the loop never ends, whatever the condition is. *)
Theorem do_until_continue_never_tests_condition {stack : Runtime.Stack}
    (body : list stmt) (condition : expr) :
  (forall k s, exists s',
      Interp.execute_block k body s = (Raise ContinueSignal, s') \/
      Interp.execute_block k body s = (OutOfFuel, s')) ->
  forall fuel st, exists st',
    Interp.execute_do_until fuel body condition st = (OutOfFuel, st').
Proof.
  intros Hbody fuel. induction fuel as [|fuel IH]; intros st.
  - exists st. reflexivity.
  - cbn [Interp.execute_do_until].
    unfold Interp.try_except, mbind, Interp.M_bind.
    destruct (Hbody fuel st) as [s' [H | H]]; rewrite H; cbn.
    + apply IH.
    + exists s'. reflexivity.
Qed.

(** [do / continue / until true] *)
Lemma do_until_continue_never_tests_condition_witness :
  exists st',
    Interp.execute_do_until 100 [ContinueStatement] (BooleanLiteral true)
      (Interp.init false) = (OutOfFuel, st').
Proof.
  apply (do_until_continue_never_tests_condition [ContinueStatement]
           (BooleanLiteral true)).
  intros k s. exists s.
  destruct k as [|[|k]]; [right | right | left]; reflexivity.
Defined.

(** ** Runtime errors with debug off *)

Section DebugFacts.
Context {stack : Runtime.Stack}.
Import Interp Invariant.

Lemma kd_ret {A} (a : A) : keeps_debug (mret a).
Proof. intros st. reflexivity. Qed.

Lemma kd_bind {A B} (m : M A) (k : A -> M B) :
  keeps_debug m -> (forall a, keeps_debug (k a)) -> keeps_debug (m ≫= k).
Proof.
  intros Hm Hk st. unfold mbind, M_bind. specialize (Hm st).
  destruct (m st) as [[a|e|w|] st']; cbn in *; try exact Hm.
  rewrite Hk. exact Hm.
Qed.

Lemma kd_try_except {A} (m : M A) (h : exn -> M A) :
  keeps_debug m -> (forall e, keeps_debug (h e)) -> keeps_debug (try_except m h).
Proof.
  intros Hm Hh st. unfold try_except. specialize (Hm st).
  destruct (m st) as [[a|e|w|] st']; cbn in *; try exact Hm.
  rewrite Hh. exact Hm.
Qed.

Lemma kd_try_finally {A} (m : M A) (c : M unit) :
  keeps_debug m -> keeps_debug c -> keeps_debug (try_finally m c).
Proof.
  intros Hm Hc st. unfold try_finally. specialize (Hm st).
  destruct (m st) as [r st']. specialize (Hc st').
  destruct (c st') as [[[]|e|w|] st'']; cbn in *; congruence.
Qed.

Lemma kd_raise {A} (e : exn) : keeps_debug (@raise A e).
Proof. intros st. reflexivity. Qed.

Lemma kd_unmodelled {A} (w : string) : keeps_debug (@unmodelled A w).
Proof. intros st. reflexivity. Qed.

Lemma kd_out_of_fuel {A} : keeps_debug (@out_of_fuel A).
Proof. intros st. reflexivity. Qed.

Lemma kd_lift {A} (o : outcome A) : keeps_debug (lift o).
Proof. intros st. reflexivity. Qed.

Lemma kd_read : keeps_debug read.
Proof. intros st. reflexivity. Qed.

Lemma kd_set_runtime (r : Runtime.t) : keeps_debug (set_runtime r).
Proof. intros st. reflexivity. Qed.

Lemma kd_print (s : string) : keeps_debug (print s).
Proof. intros st. reflexivity. Qed.

Lemma kd_alloc (xs : list value) : keeps_debug (alloc xs).
Proof. intros st. reflexivity. Qed.

Lemma kd_deref (l : loc) : keeps_debug (deref l).
Proof. intros st. unfold deref. destruct (heap st !! l); reflexivity. Qed.

Lemma kd_store (l : loc) (xs : list value) : keeps_debug (store l xs).
Proof. intros st. reflexivity. Qed.

Lemma kd_truth (v : value) : keeps_debug (truth v).
Proof. intros st. reflexivity. Qed.

Lemma kd_equal (f : nat) (a b : value) : keeps_debug (equal f a b).
Proof. intros st. unfold equal. destruct (py_eq f (heap st) a b); reflexivity. Qed.

Create HintDb kd discriminated.
#[local] Hint Resolve @kd_ret @kd_raise @kd_unmodelled @kd_out_of_fuel @kd_lift
  kd_read kd_set_runtime kd_print kd_alloc kd_deref kd_store kd_truth
  kd_equal : kd.

Ltac kd_step :=
  first
    [ assumption
    | solve [auto with kd nocore]
    | apply kd_bind; [|intros ?]
    | apply kd_try_except; [|intros ?]
    | apply kd_try_finally
    | match goal with
      | |- keeps_debug (match ?x with _ => _ end) => destruct x
      | |- keeps_debug (if ?x then _ else _) => destruct x
      end
    | match goal with
      | H : forall x, keeps_debug _ |- keeps_debug _ => apply H
      | H : forall x y, keeps_debug _ |- keeps_debug _ => apply H
      | H : forall x y z, keeps_debug _ |- keeps_debug _ => apply H
      | H : forall x y z u, keeps_debug _ |- keeps_debug _ => apply H
      end ].

Ltac kd := repeat kd_step.

Lemma kd_str (v : value) : keeps_debug (str v).
Proof. unfold str. kd. Qed.

Lemma kd_int (v : value) : keeps_debug (int v).
Proof. unfold int. kd. Qed.

Lemma kd_add (a b : value) : keeps_debug (add a b).
Proof. unfold add. kd. Qed.

Lemma kd_sub (a b : value) : keeps_debug (sub a b).
Proof. unfold sub. kd. Qed.

Lemma kd_mul (a b : value) : keeps_debug (mul a b).
Proof. unfold mul. kd. Qed.

Lemma kd_truediv (a b : value) : keeps_debug (truediv a b).
Proof. unfold truediv. kd. Qed.

Lemma kd_compare_with (p : Z -> Z -> bool) (q : string -> string -> bool)
    (a b : value) : keeps_debug (compare_with p q a b).
Proof. unfold compare_with. kd. Qed.

#[local] Hint Resolve kd_str kd_int kd_add kd_sub kd_mul kd_truediv
  kd_compare_with : kd.

Lemma kd_binary (f : nat) (op : string) (a b : value) :
  keeps_debug (binary f op a b).
Proof. unfold binary. kd. Qed.

Lemma kd_on_runtime_error {A} (d : A) (e : exn) :
  keeps_debug (on_runtime_error d e).
Proof. unfold on_runtime_error. kd. Qed.

Lemma kd_execute_function_def (name : string) (params : list string)
    (body : list stmt) : keeps_debug (execute_function_def name params body).
Proof. unfold execute_function_def. kd. Qed.

#[local] Hint Resolve kd_binary @kd_on_runtime_error kd_execute_function_def : kd.

(** Nothing the interpreter runs changes its debug flag. *)
Lemma keeps_debug_all (fuel : nat) :
  (forall node, keeps_debug (evaluate fuel node)) /\
  (forall nodes, keeps_debug (evaluate_all fuel nodes)) /\
  (forall l op r, keeps_debug (evaluate_binary_op fuel l op r)) /\
  (forall op operand, keeps_debug (evaluate_unary_op fuel op operand)) /\
  (forall name args, keeps_debug (evaluate_function_call fuel name args)) /\
  (forall le c, keeps_debug (evaluate_filter fuel le c)) /\
  (forall l i c r, keeps_debug (filter_loop fuel l i c r)) /\
  (forall le tr, keeps_debug (evaluate_map fuel le tr)) /\
  (forall l i tr r, keeps_debug (map_loop fuel l i tr r)) /\
  (forall node, keeps_debug (execute fuel node)) /\
  (forall block, keeps_debug (execute_block fuel block)) /\
  (forall parts, keeps_debug (say_parts fuel parts)) /\
  (forall target op value, keeps_debug (execute_mutation fuel target op value)) /\
  (forall target, keeps_debug (get_target fuel target)) /\
  (forall target v, keeps_debug (set_target fuel target v)) /\
  (forall body, keeps_debug (execute_repeat_forever fuel body)) /\
  (forall count body, keeps_debug (execute_repeat_times fuel count body)) /\
  (forall c body, keeps_debug (execute_repeat_until fuel c body)) /\
  (forall body c, keeps_debug (execute_do_until fuel body c)).
Proof.
  induction fuel as [|f IH].
  - repeat split; intros; apply kd_out_of_fuel.
  - destruct IH as (H1 & H2 & H3 & H4 & H5 & H6 & H7 & H8 & H9 & H10 & H11 &
                    H12 & H13 & H14 & H15 & H16 & H17 & H18 & H19).
    repeat split; intros.
    + cbn [evaluate]. kd.
    + cbn [evaluate_all]. kd.
    + cbn [evaluate_binary_op]. kd.
    + cbn [evaluate_unary_op]. kd.
    + cbn [evaluate_function_call]. kd.
    + cbn [evaluate_filter]. kd.
    + cbn [filter_loop]. kd.
    + cbn [evaluate_map]. kd.
    + cbn [map_loop]. kd.
    + cbn [execute]. kd.
    + cbn [execute_block]. kd.
    + cbn [say_parts]. kd.
    + cbn [execute_mutation]. kd.
    + cbn [get_target]. kd.
    + cbn [set_target]. kd.
    + cbn [execute_repeat_forever]. kd.
    + cbn [execute_repeat_times]. kd.
    + cbn [execute_repeat_until]. kd.
    + cbn [execute_do_until]. kd.
Qed.

Lemma on_runtime_error_contained {A} (d : A) (e : exn) (st : t) :
  debug st = false -> contained (on_runtime_error d e) st.
Proof.
  intros Hd. unfold contained.
  destruct e; cbn; unfold mbind, M_bind, read, print; cbn; rewrite ?Hd; cbn;
    eexists _, _; (split; [reflexivity|]); (split; [exact Hd|]); discriminate.
Qed.

Lemma try_except_contained {A} (m : M A) (h : exn -> M A) (st : t) :
  keeps_debug m ->
  (forall e st', debug st' = false -> contained (h e) st') ->
  debug st = false -> contained (try_except m h) st.
Proof.
  intros Hm Hh Hd. unfold contained, try_except. specialize (Hm st).
  destruct (m st) as [[a|e|w|] st']; cbn in Hm; rewrite Hd in Hm.
  - exists (Ok a), st'. split; [reflexivity|]. split; [exact Hm | discriminate].
  - apply Hh. exact Hm.
  - exists (Unmodelled w), st'.
    split; [reflexivity|]. split; [exact Hm | discriminate].
  - exists OutOfFuel, st'.
    split; [reflexivity|]. split; [exact Hm | discriminate].
Qed.

(** X12.  With debug off, no [RuntimeError] leaves [evaluate] or
    [execute], whatever the expression or the statement is, and debug
    is still off afterwards: every one raised inside is printed there
    and replaced by Nothing. *)
Theorem runtime_errors_are_contained
    (fuel : nat) (e : expr) (s : stmt) (st : Interp.t) :
  Interp.debug st = false ->
  (exists r st', Interp.evaluate fuel e st = (r, st') /\
                 Interp.debug st' = false /\
                 forall msg, r <> Raise (RuntimeError msg)) /\
  (exists r st', Interp.execute fuel s st = (r, st') /\
                 Interp.debug st' = false /\
                 forall msg, r <> Raise (RuntimeError msg)).
Proof.
  intros Hd.
  change (contained (Interp.evaluate fuel e) st /\
          contained (Interp.execute fuel s) st).
  destruct fuel as [|f].
  - split; exists OutOfFuel, st;
      (split; [reflexivity|]); (split; [exact Hd | discriminate]).
  - destruct (keeps_debug_all f)
      as (H1 & H2 & H3 & H4 & H5 & H6 & H7 & H8 & H9 & H10 & H11 &
          H12 & H13 & H14 & H15 & H16 & H17 & H18 & H19).
    split.
    + cbn [Interp.evaluate]. apply try_except_contained; [kd | | exact Hd].
      intros x st' Hd'. apply on_runtime_error_contained. exact Hd'.
    + cbn [Interp.execute]. apply try_except_contained; [kd | | exact Hd].
      intros x st' Hd'.
      destruct x; try (apply on_runtime_error_contained; exact Hd');
        eexists _, _; (split; [reflexivity|]); (split; [exact Hd'|]); discriminate.
Qed.

End DebugFacts.

(** Indexing a string and adding to a number, both runtime errors. *)
Lemma runtime_errors_are_contained_witness :
  (exists r st',
     Interp.evaluate 3 (IndexAccess (StringLiteral "abc") (NumberLiteral 1))
       (Interp.init false) = (r, st') /\
     Interp.debug st' = false /\
     forall msg, r <> Raise (RuntimeError msg)) /\
  (exists r st',
     Interp.execute 3 (ListAdd (NumberLiteral 1) (NumberLiteral 2))
       (Interp.init false) = (r, st') /\
     Interp.debug st' = false /\
     forall msg, r <> Raise (RuntimeError msg)).
Proof.
  apply (runtime_errors_are_contained 3
           (IndexAccess (StringLiteral "abc") (NumberLiteral 1))
           (ListAdd (NumberLiteral 1) (NumberLiteral 2)) (Interp.init false)).
  reflexivity.
Defined.


(** ** What the lexer builds *)

Section LexerFacts.
Import PyStr Lexer Grammar Invariant.

Lemma length_lower (s : string) : String.length (lower s) = String.length s.
Proof. induction s as [|c s IH]; cbn; congruence. Qed.

Lemma length_substring_le (s : string) (a n : nat) :
  (String.length (String.substring a n s) <= n)%nat.
Proof.
  revert a n. induction s as [|c s IH]; intros a n.
  - destruct a, n; cbn; lia.
  - destruct a as [|a].
    + destruct n as [|n]; cbn; [lia|]. specialize (IH 0%nat n). lia.
    + cbn. apply IH.
Qed.

Lemma substring_get (s : string) (a n : nat) (c : ascii) :
  String.get a s = Some c ->
  String.substring a (S n) s = String c (String.substring (S a) n s).
Proof.
  revert a. induction s as [|d s IH]; intros a H.
  - destruct a; discriminate.
  - destruct a as [|a]; cbn in H.
    + injection H as ->. reflexivity.
    + cbn. apply IH. exact H.
Qed.

Lemma pos_advance (text : string) (lx : t) : pos (advance text lx) = S (pos lx).
Proof.
  unfold advance.
  repeat match goal with
         | |- context [match ?x with _ => _ end] => destruct x
         end; reflexivity.
Qed.

Lemma peek_get (text : string) (lx : t) (n : nat) (c : ascii) :
  peek text lx n = Some c -> String.get (pos lx + n) text = Some c.
Proof. unfold peek. destruct (_ <=? _)%nat; [discriminate | auto]. Qed.

(** [peek()] looks one character past the cursor, which stands on the
    blank after [does]: when it sees a blank, the three characters from
    there on start with that blank and are not [not].  The lookahead
    never gives a token; it restores the position and the column. *)
Lemma does_not_equal_none (text : string) (start_col : nat) (lx : t) :
  exists lx', does_not_equal text start_col lx = inr lx' /\
              pos lx' = pos lx /\ column lx' = column lx.
Proof.
  unfold does_not_equal.
  destruct (peek text lx 1) as [c|] eqn:E; [|exists lx; auto].
  apply peek_get in E.
  assert (Hnot : String.eqb (lower (slice text (pos (advance text lx))
                                      (pos (advance text lx) + 3))) "not" = true
                 -> c <> " "%char).
  { unfold slice. rewrite pos_advance.
    replace (S (pos lx) + 3 - S (pos lx))%nat with 3%nat by lia.
    replace (S (pos lx)) with (pos lx + 1)%nat by lia.
    rewrite (substring_get _ _ _ _ E). intros H ->. cbn in H. discriminate. }
  destruct (String.eqb (lower (slice text (pos (advance text lx))
                                 (pos (advance text lx) + 3))) "not").
  - specialize (Hnot eq_refl).
    destruct c as [[] [] [] [] [] [] [] []];
      try (exists lx; split; [reflexivity | auto]). congruence.
  - destruct c as [[] [] [] [] [] [] [] []];
      try (exists lx; split; [reflexivity | auto]).
    exists (restore lx (advance text lx)). auto.
Qed.

(** Four characters never equal the five of [" most"]. *)
Lemma not_at_most (text : string) (p : nat) :
  String.eqb (lower (slice text p (p + 4))) " most" = false.
Proof.
  apply String.eqb_neq. intros H.
  pose proof (length_lower (slice text p (p + 4))) as Hl.
  pose proof (length_substring_le text p (p + 4 - p)) as Hs.
  unfold slice in *. rewrite H in Hl. cbn in Hl. lia.
Qed.

Ltac break_ifs H :=
  repeat match type of H with
         | context [if ?x then _ else _] => destruct x
         | context [match ?x with _ => _ end] => destruct x
         end.

Lemma is_comparison_lexed (text : string) (start_col : nat) (lx lx' : t)
    (tok : Token) :
  is_comparison text start_col lx = Some (tok, lx') -> lexed tok = true.
Proof.
  unfold is_comparison. intros H.
  destruct (current_char text lx) as [c|]; [|discriminate].
  destruct (next_word_loop _ _ _ _) as [next_word lx2].
  rewrite not_at_most in H.
  break_ifs H; try discriminate; injection H as <- <-; reflexivity.
Qed.

Lemma divided_by_lexed (text : string) (start_col : nat) (lx lx' : t)
    (tok : Token) :
  divided_by text start_col lx = Some (tok, lx') -> lexed tok = true.
Proof.
  unfold divided_by. intros H.
  break_ifs H; try discriminate; injection H as <- <-; reflexivity.
Qed.

Lemma keyword_lexed (word : string) (ty : TokenType) (l c : nat) :
  lookup_keyword word keyword_map = Some ty ->
  lexed (mkToken ty PNone l c) = true.
Proof.
  assert (Hall : forallb (fun kv => lexed (mkToken (snd kv) PNone l c))
                   keyword_map = true) by reflexivity.
  revert Hall. generalize keyword_map.
  intros m. induction m as [|[k ty'] m IH]; cbn [forallb lookup_keyword snd];
    intros Hall H; [discriminate|].
  apply andb_true_iff in Hall as [H1 H2].
  destruct (String.eqb word k); [injection H as <-; exact H1 | auto].
Qed.

Lemma lower_char_lower_char (c : ascii) :
  lower_char (lower_char c) = lower_char c.
Proof. destruct c as [[] [] [] [] [] [] [] []]; reflexivity. Qed.

(** [s.lower().lower() == s.lower()] *)
Lemma lower_lower (s : string) : lower (lower s) = lower s.
Proof.
  induction s as [|c s IH]; [reflexivity|].
  cbn [lower]. rewrite lower_char_lower_char, IH. reflexivity.
Qed.

Lemma word_lexed (text : string) (word : string) (lx lx' : t) (col : nat)
    (tok : Token) :
  lower word = word ->
  String.eqb word "times" = false ->
  match lookup_keyword word keyword_map with
  | Some ty => (mkToken ty PNone (line lx) col, lx)
  | None => (mkToken IDENTIFIER (PStr word) (line lx) col, lx)
  end = (tok, lx') ->
  lexed tok = true.
Proof.
  intros Elow Etimes.
  destruct (lookup_keyword word keyword_map) as [ty|] eqn:Ek; intros [= <- <-].
  - eapply keyword_lexed, Ek.
  - unfold lexed, payload_ok. cbn [type tvalue].
    rewrite Elow, String.eqb_refl, Etimes, Ek. reflexivity.
Qed.

Lemma read_identifier_or_keyword_lexed (text : string) (lx lx' : t) (tok : Token) :
  read_identifier_or_keyword text lx = (tok, lx') -> lexed tok = true.
Proof.
  unfold read_identifier_or_keyword. cbv zeta.
  set (lx1 := advance_while _ _ _ _).
  set (word := lower _).
  destruct (String.eqb word "times") eqn:Etimes.
  - intros [= <- <-]. unfold times_token. cbv zeta.
    destruct (_ && _); reflexivity.
  - assert (Hd : exists lx2,
               (if String.eqb word "does"
                then does_not_equal text (column lx) lx1 else inr lx1)
               = inr lx2).
    { destruct (String.eqb word "does"); [|eauto].
      destruct (does_not_equal_none text (column lx) lx1) as (lx2 & -> & _).
      eauto. }
    destruct Hd as [lx2 ->].
    destruct (String.eqb word "is");
      [destruct (is_comparison text (column lx) lx2) as [[tok' lx'']|] eqn:Eis;
       [cbn [or_else]; intros [= <- <-]; eapply is_comparison_lexed, Eis|]|];
      cbn [or_else];
      (destruct (String.eqb word "divided");
       [destruct (divided_by text (column lx) lx2) as [[tok' lx'']|] eqn:Ed;
        [intros [= <- <-]; eapply divided_by_lexed, Ed|]|]);
      apply (word_lexed text word lx2 lx' (column lx) tok
               (lower_lower _) Etimes).
Qed.

Lemma read_number_lexed (text : string) (lx lx' : t) (tok : Token) :
  read_number text lx = Ok (tok, lx') -> lexed tok = true.
Proof.
  unfold read_number. cbv zeta.
  destruct (read_number_loop _ _ _ _) as [[] lx1]; [discriminate|].
  destruct (int_of_digits _); [|discriminate].
  intros [= <- <-]. reflexivity.
Qed.

Lemma read_string_lexed (text : string) (lx lx' : t) (tok : Token) :
  read_string text lx = Ok (tok, lx') -> lexed tok = true.
Proof.
  unfold read_string. cbv zeta.
  destruct (current_char text lx); [|discriminate].
  destruct (read_string_loop _ _ _ _ _) as [[v lx2]| | |]; try discriminate.
  intros [= <- <-]. reflexivity.
Qed.

Lemma punctuation_lexed (c : ascii) (ty : TokenType) (l col : nat) :
  punctuation c = Some ty -> lexed (mkToken ty PNone l col) = true.
Proof.
  unfold punctuation.
  repeat match goal with
         | |- context [if ?x then _ else _] => destruct x
         end; intros [= <-]; reflexivity.
Qed.

Lemma tokenize_loop_lexed (fuel : nat) (text : string) :
  forall (tokens tokens' : list Token) (lx lx' : t),
    forallb lexed tokens = true ->
    tokenize_loop fuel text tokens lx = Ok (tokens', lx') ->
    forallb lexed tokens' = true.
Proof.
  induction fuel as [|fuel IH]; intros tokens tokens' lx lx' Hall H;
    [discriminate|].
  assert (Hpush : forall tok, lexed tok = true ->
                    forallb lexed (tokens ++ [tok]) = true).
  { intros tok Ht. rewrite forallb_app, Hall. cbn. rewrite Ht. reflexivity. }
  cbn [tokenize_loop] in H. cbv zeta in H.
  destruct (_ <=? _)%nat; [injection H as <- <-; exact Hall|].
  destruct (current_char text (skip_whitespace text lx)) as [c|];
    [|injection H as <- <-; exact Hall].
  destruct (Ascii.eqb c "#"); [eapply IH, H; exact Hall|].
  destruct (Ascii.eqb c "010"); [eapply IH, H; apply Hpush; reflexivity|].
  destruct (isdigit c).
  { destruct (read_number _ _) as [[tok lx1]| | |] eqn:E; try discriminate.
    eapply IH, H. apply Hpush. eapply read_number_lexed, E. }
  destruct (_ || _).
  { destruct (read_string _ _) as [[tok lx1]| | |] eqn:E; try discriminate.
    eapply IH, H. apply Hpush. eapply read_string_lexed, E. }
  destruct (punctuation c) as [ty|] eqn:Ep.
  { eapply IH, H. apply Hpush. eapply punctuation_lexed, Ep. }
  destruct (Ascii.eqb c "="); [eapply IH, H; exact Hall|].
  destruct (_ || _); [|eapply IH, H; exact Hall].
  destruct (read_identifier_or_keyword _ _) as [tok lx1] eqn:E.
  eapply IH, H. apply Hpush. eapply read_identifier_or_keyword_lexed, E.
Qed.

(** Every loop of the lexer moves the cursor forward. *)
Local Open Scope nat_scope.

Lemma advance_while_ge (n : nat) (p : ascii -> bool) (text : string) (lx : t) :
  pos lx <= pos (advance_while n p text lx).
Proof.
  revert lx. induction n as [|n IH]; intros lx; cbn; [lia|].
  destruct (current_char text lx) as [c|]; [|lia].
  destruct (p c); [|lia].
  specialize (IH (advance text lx)). rewrite pos_advance in IH. lia.
Qed.

Lemma advance_while_gt (n : nat) (p : ascii -> bool) (text : string) (lx : t)
    (c : ascii) :
  current_char text lx = Some c -> p c = true ->
  pos lx < pos (advance_while (S n) p text lx).
Proof.
  intros Hc Hp. cbn. rewrite Hc, Hp.
  pose proof (advance_while_ge n p text (advance text lx)) as H.
  rewrite pos_advance in H. lia.
Qed.

Lemma read_number_loop_ge (n : nat) (text : string) (d : bool) (lx : t) :
  pos lx <= pos (snd (read_number_loop n text d lx)).
Proof.
  revert d lx. induction n as [|n IH]; intros d lx; cbn; [lia|].
  destruct (current_char text lx) as [c|]; [|cbn; lia].
  destruct (isdigit c).
  - specialize (IH d (advance text lx)). rewrite pos_advance in IH. lia.
  - destruct (Ascii.eqb c "."); [|cbn; lia].
    destruct d; [cbn; lia|].
    specialize (IH true (advance text lx)). rewrite pos_advance in IH. lia.
Qed.

Lemma read_number_progress (text : string) (lx : t) (c : ascii) :
  current_char text lx = Some c -> isdigit c = true ->
  match read_number text lx with
  | Ok (_, lx') => pos lx < pos lx'
  | Raise e => e = ValueError
  | Unmodelled w => w = "float literal"%string
  | OutOfFuel => False
  end.
Proof.
  intros Hc Hd. unfold read_number, remaining. cbv zeta.
  cbn [read_number_loop]. rewrite Hc, Hd.
  pose proof (read_number_loop_ge (String.length text - pos lx) text false
                (advance text lx)) as H.
  rewrite pos_advance in H.
  destruct (read_number_loop _ _ _ _) as [[] lx1]; [reflexivity|].
  destruct (int_of_digits _); [cbn in H; lia | reflexivity].
Qed.

Lemma read_string_loop_ge (n : nat) (text : string) (q : ascii) (v : string)
    (lx : t) :
  match read_string_loop n text q v lx with
  | Ok (_, lx') => pos lx <= pos lx'
  | Raise e => e = TypeError
  | _ => False
  end.
Proof.
  revert v lx. induction n as [|n IH]; intros v lx; cbn; [lia|].
  destruct (current_char text lx) as [c|]; [|lia].
  destruct (Ascii.eqb c q); [lia|].
  destruct (Ascii.eqb c "\").
  - destruct (current_char text (advance text lx)) as [e|]; [|reflexivity].
    match goal with
    | |- context [read_string_loop n text q ?v' ?lx'] =>
        specialize (IH v' lx')
    end.
    destruct (read_string_loop _ _ _ _ _) as [[v' lx']| | |]; try exact IH.
    rewrite !pos_advance in IH. lia.
  - match goal with
    | |- context [read_string_loop n text q ?v' ?lx'] =>
        specialize (IH v' lx')
    end.
    destruct (read_string_loop _ _ _ _ _) as [[v' lx']| | |]; try exact IH.
    rewrite !pos_advance in IH. lia.
Qed.

Lemma read_string_progress (text : string) (lx : t) (c : ascii) :
  current_char text lx = Some c ->
  match read_string text lx with
  | Ok (_, lx') => pos lx < pos lx'
  | Raise e => e = TypeError
  | _ => False
  end.
Proof.
  intros Hc. unfold read_string. cbv zeta. rewrite Hc.
  pose proof (read_string_loop_ge (remaining text (advance text lx)) text c
                EmptyString (advance text lx)) as H.
  destruct (read_string_loop _ _ _ _ _) as [[v lx2]| | |]; try exact H.
  rewrite pos_advance in H.
  destruct (current_char text lx2) as [c'|]; [|lia].
  destruct (Ascii.eqb c' c); [rewrite pos_advance|]; lia.
Qed.

Lemma next_word_loop_ge (n : nat) (text : string) (w : string) (lx : t) :
  pos lx <= pos (snd (next_word_loop n text w lx)).
Proof.
  revert w lx. induction n as [|n IH]; intros w lx; cbn; [lia|].
  destruct (current_char text lx) as [c|]; [|cbn; lia].
  destruct (_ || _); [|cbn; lia].
  destruct (Ascii.eqb c " ").
  - destruct w; [|cbn; lia].
    specialize (IH EmptyString (advance text lx)).
    rewrite pos_advance in IH. lia.
  - match goal with
    | |- context [next_word_loop n text ?w' ?lx'] => specialize (IH w' lx')
    end.
    rewrite pos_advance in IH. lia.
Qed.

Lemma is_comparison_ge (text : string) (col : nat) (lx lx' : t) (tok : Token) :
  is_comparison text col lx = Some (tok, lx') -> pos lx <= pos lx'.
Proof.
  unfold is_comparison. intros H.
  destruct (current_char text lx) as [c|]; [|discriminate].
  pose proof (next_word_loop_ge (remaining text (advance text lx)) text
                EmptyString (advance text lx)) as Hn.
  destruct (next_word_loop _ _ _ _) as [next_word lx2].
  rewrite pos_advance in Hn. cbn in Hn.
  break_ifs H; try discriminate; injection H as _ <-; cbn; lia.
Qed.

Lemma divided_by_ge (text : string) (col : nat) (lx lx' : t) (tok : Token) :
  divided_by text col lx = Some (tok, lx') -> pos lx <= pos lx'.
Proof.
  unfold divided_by. cbv zeta. intros H.
  break_ifs H; try discriminate.
  injection H as _ <-. cbn. rewrite pos_advance. lia.
Qed.

Lemma read_identifier_or_keyword_progress (text : string) (lx : t) (c : ascii) :
  current_char text lx = Some c -> isalpha c || Ascii.eqb c "_" = true ->
  pos lx < pos (snd (read_identifier_or_keyword text lx)).
Proof.
  intros Hc Hw.
  assert (Hword : is_word_char c = true).
  { unfold is_word_char, isalnum. apply orb_true_iff in Hw as [-> | ->];
      [reflexivity | apply orb_true_r]. }
  pose proof (advance_while_gt (String.length text - pos lx) is_word_char text
                lx c Hc Hword) as Hgt.
  unfold read_identifier_or_keyword. cbv zeta.
  change (S (String.length text - pos lx)) with (remaining text lx) in Hgt.
  set (lx1 := advance_while _ _ _ _) in *.
  destruct (String.eqb _ "times"); [exact Hgt|].
  match goal with
  | |- context [if ?b then does_not_equal ?t ?c ?l else _] =>
      assert (Hd : exists lx2,
                 (if b then does_not_equal t c l else inr l) = inr lx2 /\
                 pos lx2 = pos l)
        by (destruct b; [|eauto];
            destruct (does_not_equal_none t c l) as (lx2 & -> & ? & _); eauto)
  end.
  destruct Hd as (lx2 & -> & Hpos).
  match goal with
  | |- context [or_else ?b ?d] =>
      destruct b as [[tok2 l2]|] eqn:E2;
        [|destruct d as [[tok3 l3]|] eqn:E3]
  end; cbn [or_else snd].
  - destruct (String.eqb _ "is"); [|discriminate].
    apply is_comparison_ge in E2. lia.
  - destruct (String.eqb _ "divided"); [|discriminate].
    apply divided_by_ge in E3. lia.
  - destruct (lookup_keyword _ _); cbn [snd]; lia.
Qed.

Lemma skip_comment_progress (text : string) (lx : t) :
  current_char text lx = Some "#"%char -> pos lx < pos (skip_comment text lx).
Proof.
  intros Hc. unfold skip_comment. rewrite Hc.
  apply (advance_while_gt _ _ _ _ "#" Hc). reflexivity.
Qed.

Lemma tokenize_loop_settled (fuel : nat) (text : string) :
  forall (tokens : list Token) (lx : t),
    String.length text - pos lx < fuel ->
    settled (tokenize_loop fuel text tokens lx).
Proof.
  induction fuel as [|fuel IH]; intros tokens lx Hfuel; [lia|].
  cbn [tokenize_loop]. cbv zeta.
  destruct (Nat.leb_spec (String.length text) (pos lx)) as [Hend|Hin];
    [exact I|].
  pose proof (advance_while_ge (remaining text lx) is_blank text lx) as Hws.
  fold (skip_whitespace text lx) in Hws.
  set (lx1 := skip_whitespace text lx) in *.
  destruct (current_char text lx1) as [c|] eqn:Hc; [|exact I].
  assert (Hnext : forall toks lx', pos lx1 < pos lx' ->
                    settled (tokenize_loop fuel text toks lx')).
  { intros toks lx' Hlt. apply IH. lia. }
  destruct (Ascii.eqb c "#") eqn:Ehash.
  { apply Ascii.eqb_eq in Ehash as ->. apply Hnext, skip_comment_progress, Hc. }
  destruct (Ascii.eqb c "010");
    [apply Hnext; rewrite pos_advance; lia|].
  destruct (isdigit c) eqn:Ed.
  { pose proof (read_number_progress text lx1 c Hc Ed) as H.
    destruct (read_number text lx1) as [[tok lx2]|e|w|];
      [apply Hnext, H | left; exact H | exact H | exact H]. }
  destruct (_ || _).
  { pose proof (read_string_progress text lx1 c Hc) as H.
    destruct (read_string text lx1) as [[tok lx2]|e|w|];
      [apply Hnext, H | right; exact H | destruct H | exact H]. }
  destruct (punctuation c); [apply Hnext; rewrite pos_advance; lia|].
  destruct (Ascii.eqb c "="); [apply Hnext; rewrite pos_advance; lia|].
  destruct (isalpha c || Ascii.eqb c "_") eqn:Ew;
    [|apply Hnext; rewrite pos_advance; lia].
  pose proof (read_identifier_or_keyword_progress text lx1 c Hc Ew) as H.
  destruct (read_identifier_or_keyword text lx1) as [tok lx2].
  apply Hnext, H.
Qed.

End LexerFacts.

(** X13.  On every text without a float literal (a number with a dot,
    which the fragment leaves out), the tokens [tokenize] returns end
    in one [EOF] token and hold no other; none of them has a kind the
    lexer never builds, [DOES_NOT_EQUAL] and [IS_AT_MOST] among them,
    although the lexer has code for both; a number carries an [int], a
    string its text and an identifier a word in lower case that is no
    keyword, so that [item], [times] and [Say] are never identifiers. *)
Theorem tokenize_kinds_and_payloads (text : string) (tokens : list Token) :
  Lexer.tokenize text = Ok tokens ->
  exists (body : list Token) (last : Token),
    tokens = body ++ [last] /\
    type last = EOF /\ tvalue last = PNone /\
    Forall (fun tok =>
              Grammar.kind_in (type tok) (EOF :: Grammar.never_lexed) = false /\
              Grammar.payload_ok tok = true) body.
Proof.
  unfold Lexer.tokenize. intros H.
  destruct (Lexer.tokenize_loop _ _ _ _) as [[body lx]| | |] eqn:E;
    try discriminate.
  injection H as <-. eexists body, _. repeat split.
  apply (tokenize_loop_lexed _ _ [] body Lexer.start lx eq_refl) in E.
  apply Forall_forall. intros tok Hin.
  rewrite forallb_forall in E. specialize (E tok).
  unfold Grammar.lexed in E. rewrite andb_true_iff, negb_true_iff in E.
  apply E. apply list_elem_of_In. exact Hin.
Qed.

(** [n is at most 3]: the comparison is lexed word by word. *)
Lemma tokenize_kinds_and_payloads_witness :
  exists (body : list Token) (last : Token),
    Samples.at_most_tokens = body ++ [last] /\
    type last = EOF /\ tvalue last = PNone /\
    Forall (fun tok =>
              Grammar.kind_in (type tok) (EOF :: Grammar.never_lexed) = false /\
              Grammar.payload_ok tok = true) body.
Proof.
  apply (tokenize_kinds_and_payloads "n is at most 3" Samples.at_most_tokens).
  vm_compute. reflexivity.
Defined.

(** X14.  [tokenize] ends on every text, within the rounds its length
    allows: with the tokens, with the [ValueError] of [int] on a digit
    that is no decimal or on a number of more than 4300 digits, with
    the [TypeError] of a backslash that ends the text inside a string,
    or at a number with a dot, which the fragment leaves out. *)
Theorem tokenize_terminates (text : string) :
  (exists tokens, Lexer.tokenize text = Ok tokens) \/
  Lexer.tokenize text = Raise ValueError \/
  Lexer.tokenize text = Raise TypeError \/
  Lexer.tokenize text = Unmodelled "float literal".
Proof.
  pose proof (tokenize_loop_settled (S (String.length text)) text []
                Lexer.start) as H.
  unfold Lexer.tokenize.
  destruct (Lexer.tokenize_loop _ _ _ _) as [[tokens lx]|e|w|]; cbn in H.
  - left. eexists. reflexivity.
  - destruct H as [-> | ->]; [lia | |]; auto.
  - right. right. right. rewrite H; [reflexivity | lia].
  - exfalso. apply H. lia.
Qed.

(** ** What the parser accepts *)

Section ParserFacts.
Import Parser Grammar.
Variable tokens : list Token.

Lemma match_app (pos : nat) (xs ys : list TokenType) :
  match_ tokens pos (xs ++ ys) = match_ tokens pos xs || match_ tokens pos ys.
Proof.
  unfold match_. destruct (current_token tokens pos); [|reflexivity].
  apply existsb_app.
Qed.

Lemma match_false_incl (pos : nat) (big small : list TokenType) :
  match_ tokens pos big = false ->
  forallb (fun ty => existsb (TokenType_eqb ty) big) small = true ->
  match_ tokens pos small = false.
Proof.
  unfold match_. destruct (current_token tokens pos) as [tok|]; [|reflexivity].
  intros Hbig Hincl. apply not_true_is_false. intros Hsmall.
  apply existsb_exists in Hsmall as [x [Hx Hxe]].
  rewrite forallb_forall in Hincl. specialize (Hincl x Hx).
  apply existsb_exists in Hincl as [y [Hy Hye]].
  assert (existsb (TokenType_eqb (type tok)) big = true); [|congruence].
  apply existsb_exists. exists y. split; [exact Hy|].
  unfold TokenType_eqb in *. apply N.eqb_eq in Hxe, Hye. apply N.eqb_eq.
  congruence.
Qed.

Lemma skip_newlines_stays (pos : nat) :
  match_ tokens pos [NEWLINE] = false -> skip_newlines tokens pos = pos.
Proof.
  intros H. unfold skip_newlines.
  destruct (length tokens - pos)%nat; cbn; [|rewrite H]; reflexivity.
Qed.

Lemma parse_statement_none (fuel : nat) (pos : nat) :
  match_ tokens pos (NEWLINE :: statement_starts) = false ->
  parse_statement tokens (S fuel) pos = Ok (None, pos).
Proof.
  intros H. cbn [parse_statement]. cbv zeta.
  rewrite (skip_newlines_stays pos (match_false_incl _ _ [NEWLINE] H eq_refl)).
  repeat match goal with
         | |- context [match_ tokens ?p ?l] =>
             rewrite (match_false_incl p _ l H eq_refl)
         end.
  reflexivity.
Qed.

(** [parse_expression] stops in front of no [and]. *)
Lemma parse_and_loop_stop (fuel : nat) :
  forall (lhs e : expr) (pos p : nat),
    parse_and_loop tokens fuel lhs pos = Ok (e, p) ->
    match_ tokens p [AND] = false.
Proof.
  induction fuel as [|fuel IH]; intros lhs e pos p H; [discriminate|].
  cbn [parse_and_loop] in H.
  destruct (match_ tokens pos [AND]) eqn:E.
  - destruct (parse_not tokens fuel (advance tokens pos)) as [[rhs pos1]| | |];
      try discriminate.
    cbn [mbind outcome_bind] in H. eapply IH, H.
  - injection H as _ <-. exact E.
Qed.

Lemma parse_and_stop (fuel : nat) (e : expr) (pos p : nat) :
  parse_and tokens fuel pos = Ok (e, p) -> match_ tokens p [AND] = false.
Proof.
  destruct fuel as [|fuel]; [discriminate|]. cbn [parse_and].
  destruct (parse_not tokens fuel pos) as [[lhs pos1]| | |]; try discriminate.
  cbn [mbind outcome_bind]. apply parse_and_loop_stop.
Qed.

Lemma parse_or_loop_stop (fuel : nat) :
  forall (lhs e : expr) (pos p : nat),
    match_ tokens pos [AND] = false ->
    parse_or_loop tokens fuel lhs pos = Ok (e, p) ->
    match_ tokens p [AND] = false.
Proof.
  induction fuel as [|fuel IH]; intros lhs e pos p Hpos H; [discriminate|].
  cbn [parse_or_loop] in H.
  destruct (match_ tokens pos [OR]).
  - destruct (parse_and tokens fuel (advance tokens pos)) as [[rhs pos1]| | |]
      eqn:E; try discriminate.
    cbn [mbind outcome_bind] in H. eapply IH, H. eapply parse_and_stop, E.
  - injection H as _ <-. exact Hpos.
Qed.

Lemma parse_expression_stop (fuel : nat) (e : expr) (pos p : nat) :
  parse_expression tokens fuel pos = Ok (e, p) ->
  match_ tokens p [AND] = false.
Proof.
  destruct fuel as [|[|fuel]]; try discriminate.
  cbn [parse_expression parse_or].
  destruct (parse_and tokens fuel pos) as [[lhs pos1]| | |] eqn:E;
    try discriminate.
  cbn [mbind outcome_bind]. apply parse_or_loop_stop. eapply parse_and_stop, E.
Qed.

End ParserFacts.

(** X15.  The statement loop of [parse] and of every block makes no
    progress at a token that is neither a newline, nor one that ends the
    loop, nor one that starts a statement: [parse_statement] returns no
    statement and leaves the cursor there, so the loop never returns.
    The [EOF] token inside a block is such a token, so a block whose
    [end] is missing hangs the parser; so does a stray number, string or
    keyword between statements. *)
Theorem parse_block_never_returns_at_stray_token
    (tokens : list Token) (stops : list TokenType) (pos : nat) :
  Parser.match_ tokens pos (NEWLINE :: stops ++ Grammar.statement_starts) = false ->
  forall (fuel : nat) (body : list stmt),
    Parser.parse_block tokens fuel stops body pos = OutOfFuel.
Proof.
  intros H.
  change (NEWLINE :: stops ++ Grammar.statement_starts)
    with ([NEWLINE] ++ stops ++ Grammar.statement_starts) in H.
  rewrite !match_app in H.
  apply orb_false_iff in H as [Hnl H]. apply orb_false_iff in H as [Hstop Hst].
  assert (Hstart : Parser.match_ tokens pos (NEWLINE :: Grammar.statement_starts)
                   = false).
  { change (NEWLINE :: Grammar.statement_starts)
      with ([NEWLINE] ++ Grammar.statement_starts).
    rewrite match_app, Hnl, Hst. reflexivity. }
  induction fuel as [|fuel IH]; intros body; [reflexivity|].
  cbn [Parser.parse_block]. rewrite Hstop.
  destruct fuel as [|fuel']; [reflexivity|].
  rewrite (parse_statement_none tokens fuel' pos Hstart).
  cbn [mbind outcome_bind].
  rewrite (skip_newlines_stays tokens pos Hnl).
  apply IH.
Qed.

(** [if true then / say 1] without [end]: the block of the [if] is stuck
    at [EOF], and the program is not parsed. *)
Lemma parse_block_never_returns_at_stray_token_witness :
  Parser.parse_block Samples.unclosed_if_tokens 100 [OTHERWISE; END]
    [SayStatement [NumberLiteral 1]] 6 = OutOfFuel /\
  Lexer.tokenize Samples.unclosed_if_source = Ok Samples.unclosed_if_tokens /\
  Parser.parse Samples.unclosed_if_tokens 100 = OutOfFuel.
Proof.
  split; [|split; vm_compute; reflexivity].
  apply (parse_block_never_returns_at_stray_token Samples.unclosed_if_tokens
           [OTHERWISE; END] 6).
  reflexivity.
Defined.

(** X16.  A [say] statement always has exactly one part: the expression
    after [say] takes every [and] that follows as its own operator, so
    the loop that would add a part at each [and] never runs, and
    [say a and b] prints the value of [a and b], not [a] followed by
    [b]. *)
Theorem say_has_one_part
    (tokens : list Token) (fuel pos pos' : nat) (s : stmt) :
  Parser.parse_say tokens fuel pos = Ok (s, pos') ->
  exists e : expr, s = SayStatement [e].
Proof.
  destruct fuel as [|fuel]; [discriminate|]. cbn [Parser.parse_say].
  destruct (Parser.expect tokens SAY pos) as [[tok pos1]| | |]; try discriminate.
  cbn [mbind outcome_bind].
  destruct (Parser.parse_expression tokens fuel pos1) as [[e pos2]| | |] eqn:E;
    try discriminate.
  cbn [mbind outcome_bind].
  apply parse_expression_stop in E.
  destruct fuel as [|fuel']; [discriminate|].
  cbn [Parser.parse_say_parts]. rewrite E. cbn [mbind outcome_bind].
  intros [= <- _]. exists e. reflexivity.
Qed.

(** [say 'a' and 'b'] has the one part ['a' and 'b'], and
    [say 'Hello ' and 'World'] prints [World]. *)
Lemma say_has_one_part_witness :
  (exists e : expr,
     SayStatement [BinaryOp (StringLiteral "a") "and" (StringLiteral "b")] =
     SayStatement [e]) /\
  Interp.output_stream
    (snd (Gopa.run_source 60 "say 'Hello ' and 'World'" (Interp.init false))) =
  ["World"].
Proof.
  split; [|vm_compute; reflexivity].
  apply (say_has_one_part Samples.say_and_tokens 20 0 4).
  vm_compute. reflexivity.
Defined.

(** X17.  An expression must start with a token [parse_not] or
    [parse_factor] has a branch for; at any other token, or past the
    last one, [parse_expression] raises [SyntaxError].  The word [item]
    is lexed as the keyword [ITEM], which is no such token: the
    condition of a filter cannot name [item]. *)
Theorem expression_must_start_with_a_value
    (tokens : list Token) (fuel pos : nat) :
  Parser.match_ tokens pos Grammar.expression_starts = false ->
  Parser.parse_expression tokens (8 + fuel) pos = Raise SyntaxError.
Proof.
  intros H.
  cbn [Nat.add Parser.parse_expression Parser.parse_or Parser.parse_and
       Parser.parse_not Parser.parse_comparison Parser.parse_arithmetic
       Parser.parse_term Parser.parse_factor].
  rewrite (match_false_incl tokens pos _ [NOT] H eq_refl).
  destruct (Parser.current_token tokens pos) as [tok|] eqn:E; [|reflexivity].
  repeat match goal with
         | |- context [Parser.match_ tokens pos ?l] =>
             rewrite (match_false_incl tokens pos _ l H eq_refl)
         end.
  reflexivity.
Qed.

(** [kept is filter l where item] *)
Lemma expression_must_start_with_a_value_witness :
  Parser.parse_expression Samples.filter_item_tokens 8 5 = Raise SyntaxError /\
  Lexer.tokenize Samples.filter_item_source = Ok Samples.filter_item_tokens /\
  fst (Gopa.run_source 60 Samples.filter_item_source (Interp.init false)) =
    Raise SyntaxError.
Proof.
  split; [|split; vm_compute; reflexivity].
  apply (expression_must_start_with_a_value Samples.filter_item_tokens 0 5).
  reflexivity.
Defined.

(** ** One step of the scheduler *)

Section SchedulerFacts.
Context {stack : Runtime.Stack}.
Import Scheduler Invariant.

(** [except Exception: pass] *)
Lemma run_body_no_raise (fuel : nat) (body : list stmt) (i : Interp.t) :
  no_raise (fst (run_body fuel body i)).
Proof.
  unfold run_body, Interp.try_except.
  destruct (Interp.execute_block fuel body i) as [[[]|e|w|] i']; exact I.
Qed.

Lemma step_after_kept (fuel : nat) (now : float) (tasks : list after_task) :
  forall i : Interp.t,
    match fst (step_after fuel now tasks i) with
    | Ok rest =>
        rest = List.filter (fun task => negb (geb now (a_time task))) tasks
    | Raise _ => False
    | _ => True
    end.
Proof.
  induction tasks as [|task tasks IH]; intros i; [reflexivity|].
  cbn [step_after List.filter]. destruct (geb now (a_time task)); cbn [negb].
  - unfold mbind, Interp.M_bind.
    pose proof (run_body_no_raise fuel (a_body task) i) as Hb.
    destruct (run_body fuel (a_body task) i) as [[[]|e|w|] i']; cbn in Hb |- *;
      try exact I; [apply IH | destruct Hb].
  - unfold mbind, Interp.M_bind. specialize (IH i).
    destruct (step_after fuel now tasks i) as [[rest|e|w|] i']; cbn in IH |- *;
      try exact IH. rewrite IH. reflexivity.
Qed.

Lemma step_periodic_refreshed (fuel : nat) (now : float) (task : every_task)
    (i : Interp.t) :
  match fst (step_periodic fuel now task i) with
  | Ok task' => task' = refreshed now task
  | Raise _ => False
  | _ => True
  end.
Proof.
  unfold step_periodic, refreshed.
  destruct (geb now _); [|reflexivity].
  unfold mbind, Interp.M_bind.
  pose proof (run_body_no_raise fuel (e_body task) i) as Hb.
  destruct (run_body fuel (e_body task) i) as [[[]|e|w|] i']; cbn in Hb |- *;
    try exact I; [reflexivity | destruct Hb].
Qed.

Lemma step_every_refreshed (fuel : nat) (now : float) (tasks : list every_task) :
  forall i : Interp.t,
    match fst (step_every fuel now tasks i) with
    | Ok tasks' => tasks' = List.map (refreshed now) tasks
    | Raise _ => False
    | _ => True
    end.
Proof.
  induction tasks as [|task tasks IH]; intros i; [reflexivity|].
  cbn [step_every List.map]. unfold mbind at 1, Interp.M_bind at 1.
  pose proof (step_periodic_refreshed fuel now task i) as Hp.
  destruct (step_periodic fuel now task i) as [[task'|e|w|] i']; cbn in Hp |- *;
    try exact Hp. subst task'.
  unfold mbind, Interp.M_bind. specialize (IH i').
  destruct (step_every fuel now tasks i') as [[rest|e|w|] i'']; cbn in IH |- *;
    try exact IH. rewrite IH. reflexivity.
Qed.

Lemma step_jobs_refreshed (fuel : nat) (now : float)
    (tasks : list (string * every_task)) :
  forall i : Interp.t,
    match fst (step_jobs fuel now tasks i) with
    | Ok tasks' =>
        tasks' = List.map (fun kv => (fst kv, refreshed now (snd kv))) tasks
    | Raise _ => False
    | _ => True
    end.
Proof.
  induction tasks as [|[name task] tasks IH]; intros i; [reflexivity|].
  cbn [step_jobs List.map fst snd]. unfold mbind at 1, Interp.M_bind at 1.
  pose proof (step_periodic_refreshed fuel now task i) as Hp.
  destruct (step_periodic fuel now task i) as [[task'|e|w|] i']; cbn in Hp |- *;
    try exact Hp. subst task'.
  unfold mbind, Interp.M_bind. specialize (IH i').
  destruct (step_jobs fuel now tasks i') as [[rest|e|w|] i'']; cbn in IH |- *;
    try exact IH. rewrite IH. reflexivity.
Qed.

Lemma step_cron_no_raise (fuel : nat) (now : datetime) (tasks : list cron_task) :
  forall i : Interp.t, no_raise (fst (step_cron fuel now tasks i)).
Proof.
  induction tasks as [|task tasks IH]; intros i; [exact I|].
  cbn [step_cron]. unfold mbind, Interp.M_bind.
  destruct (matches_cron now (c_fields task)).
  - pose proof (run_body_no_raise fuel (c_body task) i) as Hb.
    destruct (run_body fuel (c_body task) i) as [[[]|e|w|] i']; cbn in Hb |- *;
      try exact I; [apply IH | destruct Hb].
  - apply IH.
Qed.

End SchedulerFacts.

(** X18.  One call of [step(dt)] in virtual time.  No exception of a
    task's body leaves [step]: it raises only what
    [datetime.fromtimestamp] raises on the new time.  When it
    completes, the clock has advanced by [dt]; the one-shot tasks that
    were due are gone and the others are kept in their order; every
    periodic task and every job that was due restarts its interval at
    the new time, the others are unchanged; the cron tasks are as they
    were. *)
Theorem step_outcome {stack : Runtime.Stack}
    (fromtimestamp : float -> outcome Scheduler.datetime)
    (fuel : nat) (dt : float) (s : Scheduler.t) (i : Interp.t)
    (r : outcome unit) (w' : Scheduler.world) :
  Scheduler.virtual_time s = true ->
  Scheduler.step fromtimestamp fuel dt (Scheduler.mkWorld s i) = (r, w') ->
  let now := PrimFloat.add (Scheduler.current_time s) dt in
  match r with
  | Ok _ =>
      Scheduler.scheduler w' =
      {| Scheduler.virtual_time := true;
         Scheduler.current_time := now;
         Scheduler.jobs :=
           List.map (fun kv => (fst kv, Invariant.refreshed now (snd kv)))
             (Scheduler.jobs s);
         Scheduler.after_tasks :=
           List.filter
             (fun task => negb (Scheduler.geb now (Scheduler.a_time task)))
             (Scheduler.after_tasks s);
         Scheduler.every_tasks :=
           List.map (Invariant.refreshed now) (Scheduler.every_tasks s);
         Scheduler.cron_tasks := Scheduler.cron_tasks s;
         Scheduler.running := Scheduler.running s |}
  | Raise e => fromtimestamp now = Raise e
  | _ => True
  end.
Proof.
  intros Hv Hstep now.
  assert (Hnow : PrimFloat.add (Scheduler.current_time s) dt = now)
    by reflexivity.
  clearbody now.
  unfold Scheduler.step, mbind, Scheduler.W_bind, Scheduler.self,
    Scheduler.update, Scheduler.call_back, Scheduler.lift in Hstep.
  cbn in Hstep.
  rewrite Hv in Hstep. cbn in Hstep. rewrite !Hnow in Hstep.
  pose proof (step_after_kept fuel now (Scheduler.after_tasks s) i) as Ha.
  destruct (Scheduler.step_after fuel now (Scheduler.after_tasks s) i)
    as [[after'|e|w|] i1]; cbn in Ha; cbn in Hstep;
    [|destruct Ha | injection Hstep as <- _; exact I
     | injection Hstep as <- _; exact I].
  pose proof (step_every_refreshed fuel now (Scheduler.every_tasks s) i1) as He.
  destruct (Scheduler.step_every fuel now (Scheduler.every_tasks s) i1)
    as [[every'|e|w|] i2]; cbn in He; cbn in Hstep;
    [|destruct He | injection Hstep as <- _; exact I
     | injection Hstep as <- _; exact I].
  pose proof (step_jobs_refreshed fuel now (Scheduler.jobs s) i2) as Hj.
  destruct (Scheduler.step_jobs fuel now (Scheduler.jobs s) i2)
    as [[jobs'|e|w|] i3]; cbn in Hj; cbn in Hstep;
    [|destruct Hj | injection Hstep as <- _; exact I
     | injection Hstep as <- _; exact I].
  destruct (fromtimestamp now) as [d|e|w|] eqn:Ed; cbn in Hstep;
    [| injection Hstep as <- _; reflexivity
     | injection Hstep as <- _; exact I
     | injection Hstep as <- _; exact I].
  pose proof (step_cron_no_raise fuel d (Scheduler.cron_tasks s) i3) as Hc.
  destruct (Scheduler.step_cron fuel d (Scheduler.cron_tasks s) i3)
    as [[[]|e|w|] i4]; cbn in Hc; cbn in Hstep;
    [|destruct Hc | injection Hstep as <- _; exact I
     | injection Hstep as <- _; exact I].
  injection Hstep as <- <-. subst.
  unfold Scheduler.with_tasks, Scheduler.with_time. cbn. rewrite Hv.
  reflexivity.
Qed.

(** [step(2)] at time 0: the task for time 1 runs and goes, the one for
    time 5 stays; the task of every second restarts at 2; the job of
    every three seconds waits. *)
Lemma step_outcome_witness :
  Scheduler.scheduler
    (snd (Scheduler.step Scheduler.utc_first_minute 10 2%float
            (Scheduler.mkWorld Samples.busy (Interp.init false)))) =
  {| Scheduler.virtual_time := true;
     Scheduler.current_time := 2%float;
     Scheduler.jobs := [("j", Scheduler.mkEvery 3%float Examples.tick 0%float)];
     Scheduler.after_tasks := [Scheduler.mkAfter 5%float Examples.tick];
     Scheduler.every_tasks := [Scheduler.mkEvery 1%float Examples.tick 2%float];
     Scheduler.cron_tasks := [];
     Scheduler.running := false |}.
Proof.
  exact (step_outcome Scheduler.utc_first_minute 10 2%float Samples.busy
           (Interp.init false) (Ok tt)
           (snd (Scheduler.step Scheduler.utc_first_minute 10 2%float
                   (Scheduler.mkWorld Samples.busy (Interp.init false))))
           ltac:(reflexivity) ltac:(vm_compute; reflexivity)).
Defined.

(** ** Cron fields *)

Section IntFacts.
Import PyStr Invariant.

Lemma int_digits_chars (s : string) :
  forall (acc : Z) (b : bool) (n : Z),
    int_digits acc b s = Some n ->
    forallb int_char (list_ascii_of_string s) = true.
Proof.
  induction s as [|c s IH]; intros acc b n H; [reflexivity|].
  cbn [int_digits] in H. cbn [list_ascii_of_string forallb].
  unfold int_char at 1.
  destruct (between 48 57 c); [cbn; eapply IH, H|].
  destruct (Ascii.eqb c "_"); [|discriminate].
  destruct b; [|discriminate]. cbn.
  destruct s as [|d s']; [discriminate|].
  destruct (between 48 57 d); [eapply IH, H | discriminate].
Qed.

Lemma int_lstrip_chars (s : string) :
  forallb int_char (list_ascii_of_string (int_lstrip s)) = true ->
  forallb int_char (list_ascii_of_string s) = true.
Proof.
  induction s as [|c s IH]; [reflexivity|]. cbn [int_lstrip].
  destruct (int_space c) eqn:E; [|auto].
  intros H. cbn [list_ascii_of_string forallb]. rewrite (IH H).
  unfold int_char. rewrite E, !orb_true_r. reflexivity.
Qed.

Lemma int_rstrip_empty_chars (s : string) :
  int_rstrip s = EmptyString -> forallb int_char (list_ascii_of_string s) = true.
Proof.
  induction s as [|c s IH]; [reflexivity|]. cbn [int_rstrip].
  destruct (int_rstrip s) as [|d r]; [|discriminate].
  destruct (int_space c) eqn:E; [|discriminate].
  intros _. cbn [list_ascii_of_string forallb]. rewrite (IH eq_refl).
  unfold int_char. rewrite E, !orb_true_r. reflexivity.
Qed.

Lemma int_rstrip_chars (s : string) :
  forallb int_char (list_ascii_of_string (int_rstrip s)) = true ->
  forallb int_char (list_ascii_of_string s) = true.
Proof.
  induction s as [|c s IH]; [reflexivity|]. cbn [int_rstrip].
  destruct (int_rstrip s) as [|d r] eqn:E.
  - intros H. cbn [list_ascii_of_string forallb].
    rewrite (int_rstrip_empty_chars s E), andb_true_r.
    destruct (int_space c) eqn:Ec.
    + unfold int_char. rewrite Ec, !orb_true_r. reflexivity.
    + cbn in H. rewrite andb_true_r in H. exact H.
  - cbn [list_ascii_of_string forallb]. intros H.
    apply andb_true_iff in H as [Hc Hr]. rewrite Hc. apply IH. exact Hr.
Qed.

(** [int] reads a string only when each of its characters is a decimal
    digit, an underscore, a sign or white space. *)
Lemma to_int_chars (s : string) (n : Z) :
  to_int s = Some n -> forallb int_char (list_ascii_of_string s) = true.
Proof.
  unfold to_int. cbv zeta. intros H.
  apply int_lstrip_chars, int_rstrip_chars.
  destruct (int_max_str_digits <? count_digits _)%nat; [discriminate|].
  destruct (int_rstrip (int_lstrip s)) as [|c r] eqn:E; [reflexivity|].
  assert (Hsign : forall o : option Z,
             o = Some n -> (o = int_digits 0 false r \/
                            o = option_map Z.opp (int_digits 0 false r)) ->
             forallb int_char (list_ascii_of_string r) = true).
  { intros o Ho [-> | ->].
    - eapply int_digits_chars, Ho.
    - destruct (int_digits 0 false r) eqn:Ed; [|discriminate].
      eapply int_digits_chars, Ed. }
  destruct (Ascii.eqb c "-") eqn:Em.
  { apply Ascii.eqb_eq in Em as ->. cbn [list_ascii_of_string forallb].
    rewrite (Hsign _ H); [reflexivity | right; reflexivity]. }
  destruct (Ascii.eqb c "+") eqn:Ep.
  { apply Ascii.eqb_eq in Ep as ->. cbn [list_ascii_of_string forallb].
    rewrite (Hsign _ H); [reflexivity | left; reflexivity]. }
  assert (H' : int_digits 0 false (String c r) = Some n).
  { destruct c as [[] [] [] [] [] [] [] []]; try exact H; discriminate. }
  eapply int_digits_chars, H'.
Qed.

End IntFacts.

(** X19.  A cron field matches a value only when it is the wildcard or
    a text [int] reads as that value.  A field that holds any other
    character, as the steps, ranges and lists of cron do, matches no
    value: [parse_cron] accepts such a line, and its task never
    fires. *)
Theorem cron_field_with_other_characters_never_matches
    (v : Z) (field : string) (c : ascii) :
  In c (list_ascii_of_string field) ->
  Invariant.int_char c = false ->
  field <> "*"%string ->
  Scheduler.matches v field = false.
Proof.
  intros Hin Hc Hstar. unfold Scheduler.matches.
  destruct (String.eqb_spec field "*") as [->|_]; [congruence|].
  destruct (PyStr.to_int field) as [n|] eqn:E; [|reflexivity].
  apply to_int_chars in E. rewrite forallb_forall in E.
  rewrite (E c Hin) in Hc. discriminate.
Qed.

(** The line [*/5 * * * *] is accepted, and its minute field matches
    minute 5 no more than any other. *)
Lemma cron_field_with_other_characters_never_matches_witness :
  Scheduler.matches 5 "*/5" = false /\
  Scheduler.parse_cron "*/5 * * * *" =
    Ok (Scheduler.mkFields "*/5" "*" "*" "*" "*").
Proof.
  split; [|vm_compute; reflexivity].
  apply (cron_field_with_other_characters_never_matches 5 "*/5" "/").
  - right. left. reflexivity.
  - reflexivity.
  - discriminate.
Defined.

(** ** Permission strings *)

Lemma contains_ext (x : string) (l l' : list string) :
  (forall y, In y l <-> In y l') -> PyStr.contains x l = PyStr.contains x l'.
Proof.
  intros H. destruct (PyStr.contains x l') eqn:E.
  - apply contains_spec. apply H. apply contains_spec. exact E.
  - apply not_true_is_false. intros E'.
    apply contains_spec, H, contains_spec in E'. congruence.
Qed.

(** X20.  The capabilities a non-empty permission string grants depend
    only on which names its entries give once trimmed and lowered: the
    order of the entries, their repetition, their case and the blanks
    around them do not matter. *)
Theorem permissions_depend_on_the_set_of_entries (s s' : string) :
  s <> EmptyString -> s' <> EmptyString ->
  (forall cap, In cap (Permissions.perms_of s) <->
               In cap (Permissions.perms_of s')) ->
  Permissions.init s = Permissions.init s'.
Proof.
  intros Hs Hs' H.
  destruct s as [|c s]; [congruence|]. destruct s' as [|c' s']; [congruence|].
  unfold Permissions.init.
  rewrite !(contains_ext _ _ _ H). reflexivity.
Qed.

Lemma permissions_depend_on_the_set_of_entries_witness :
  Permissions.init "timers,network,timers" = Permissions.init " Network , TIMERS".
Proof.
  apply permissions_depend_on_the_set_of_entries; [discriminate..|].
  intros cap. cbn. tauto.
Defined.

(** ** Builtins *)

Section BuiltinFacts.
Import Interp Builtins.

Lemma deref_fresh (st : t) (xs : list value) :
  deref (length (heap st)) (with_heap (heap st ++ [xs]) st) =
  (Ok xs, with_heap (heap st ++ [xs]) st).
Proof. apply (deref_result st xs). Qed.

Lemma sum_loop_numbers (xs : list value) :
  forall (acc : Z) (st : t),
    sum_loop (VInt acc) xs st =
    (match mapM as_int xs with
     | Some ns => Ok (VInt (acc + foldr Z.add 0 ns))
     | None => Raise TypeError
     end, st).
Proof.
  induction xs as [|x xs IH]; intros acc st.
  - cbn. rewrite Z.add_0_r. reflexivity.
  - cbn [sum_loop mapM]. unfold add. cbn [as_int].
    destruct (as_int x) as [n|] eqn:E.
    + unfold mbind at 1, M_bind at 1, mret at 1, M_ret at 1. rewrite IH.
      cbn. destruct (mapM as_int xs) as [ns|]; cbn; [|reflexivity].
      rewrite Z.add_assoc. reflexivity.
    + cbn. destruct x; try discriminate; reflexivity.
Qed.

Lemma max_loop_numbers (rest : list value) :
  forall (best : value) (b : Z) (st : t),
    as_int best = Some b ->
    Forall (fun x => is_Some (as_int x)) rest ->
    exists m, max_loop best rest st = (Ok m, st) /\
              m ∈ best :: rest /\
              exists k, as_int m = Some k /\ b <= k /\
                        Forall (fun x => forall n, as_int x = Some n -> n <= k) rest.
Proof.
  induction rest as [|x rest IH]; intros best b st Hb Hall.
  - exists best. split; [reflexivity|]. split; [left|].
    exists b. split; [exact Hb|]. split; [lia | constructor].
  - apply Forall_cons in Hall as [[n Hn] Hall].
    cbn [max_loop]. unfold compare_with. rewrite Hn, Hb.
    unfold mbind at 1, M_bind at 1, mret at 1, M_ret at 1.
    unfold mbind at 1, M_bind at 1, truth at 1. cbn [truthy].
    destruct (Z.gtb_spec n b) as [Hgt|Hle].
    + destruct (IH x n st Hn Hall) as (m & Hrun & Hin & k & Hk & Hnk & Hrest).
      exists m. split; [exact Hrun|]. split.
      { apply elem_of_cons in Hin as [->|Hin];
          [right; left | right; right; exact Hin]. }
      exists k. split; [exact Hk|]. split; [lia|].
      constructor; [|exact Hrest]. intros n' Hn'. rewrite Hn in Hn'.
      injection Hn' as <-. exact Hnk.
    + destruct (IH best b st Hb Hall) as (m & Hrun & Hin & k & Hk & Hbk & Hrest).
      exists m. split; [exact Hrun|]. split.
      { apply elem_of_cons in Hin as [->|Hin]; [left | right; right; exact Hin]. }
      exists k. split; [exact Hk|]. split; [lia|].
      constructor; [|exact Hrest]. intros n' Hn'. rewrite Hn in Hn'.
      injection Hn' as <-. lia.
Qed.

Lemma min_loop_numbers (rest : list value) :
  forall (best : value) (b : Z) (st : t),
    as_int best = Some b ->
    Forall (fun x => is_Some (as_int x)) rest ->
    exists m, min_loop best rest st = (Ok m, st) /\
              m ∈ best :: rest /\
              exists k, as_int m = Some k /\ k <= b /\
                        Forall (fun x => forall n, as_int x = Some n -> k <= n) rest.
Proof.
  induction rest as [|x rest IH]; intros best b st Hb Hall.
  - exists best. split; [reflexivity|]. split; [left|].
    exists b. split; [exact Hb|]. split; [lia | constructor].
  - apply Forall_cons in Hall as [[n Hn] Hall].
    cbn [min_loop]. unfold compare_with. rewrite Hn, Hb.
    unfold mbind at 1, M_bind at 1, mret at 1, M_ret at 1.
    unfold mbind at 1, M_bind at 1, truth at 1. cbn [truthy].
    destruct (Z.ltb_spec n b) as [Hlt|Hge].
    + destruct (IH x n st Hn Hall) as (m & Hrun & Hin & k & Hk & Hnk & Hrest).
      exists m. split; [exact Hrun|]. split.
      { apply elem_of_cons in Hin as [->|Hin];
          [right; left | right; right; exact Hin]. }
      exists k. split; [exact Hk|]. split; [lia|].
      constructor; [|exact Hrest]. intros n' Hn'. rewrite Hn in Hn'.
      injection Hn' as <-. exact Hnk.
    + destruct (IH best b st Hb Hall) as (m & Hrun & Hin & k & Hk & Hbk & Hrest).
      exists m. split; [exact Hrun|]. split.
      { apply elem_of_cons in Hin as [->|Hin]; [left | right; right; exact Hin]. }
      exists k. split; [exact Hk|]. split; [lia|].
      constructor; [|exact Hrest]. intros n' Hn'. rewrite Hn in Hn'.
      injection Hn' as <-. lia.
Qed.

Lemma builtin_max_cons (l : loc) (x : value) (rest : list value) (st : t) :
  heap st !! l = Some (x :: rest) ->
  builtin_max (VList l) st = max_loop x rest st.
Proof.
  intros Hl. unfold builtin_max, mbind, M_bind, truth, deref.
  cbn [truthy]. unfold loc in *. rewrite Hl. cbn [negb]. cbv beta iota.
  rewrite Hl. reflexivity.
Qed.

Lemma builtin_min_cons (l : loc) (x : value) (rest : list value) (st : t) :
  heap st !! l = Some (x :: rest) ->
  builtin_min (VList l) st = min_loop x rest st.
Proof.
  intros Hl. unfold builtin_min, mbind, M_bind, truth, deref.
  cbn [truthy]. unfold loc in *. rewrite Hl. cbn [negb]. cbv beta iota.
  rewrite Hl. reflexivity.
Qed.

End BuiltinFacts.

(** X21.  [range a b] builds a new list of the integers from [a] up to
    but not including [b], which is empty when [b] is not above [a];
    [len] of it is [max(0, b - a)], and its element at index [i] is
    [a + i]. *)
Theorem len_of_range (start stop : value) (a b : Z) (st : Interp.t) :
  Interp.as_int start = Some a ->
  Interp.as_int stop = Some b ->
  let numbers := VInt <$> seqZ a (b - a) in
  let st' := Interp.with_heap (Interp.heap st ++ [numbers]) st in
  Builtins.call "range" [start; stop] st =
    (Ok (VList (length (Interp.heap st))), st') /\
  Builtins.call "len" [VList (length (Interp.heap st))] st' =
    (Ok (VInt (Z.max 0 (b - a))), st') /\
  forall i, 0 <= i < b - a ->
    Interp.list_item numbers (VInt i) = VInt (a + i).
Proof.
  intros Ha Hb numbers st'. split; [|split].
  - cbn. unfold Builtins.builtin_range. rewrite Ha, Hb. reflexivity.
  - cbn. unfold Builtins.builtin_len.
    unfold st'. rewrite (bind_ok _ _ _ _ _ (deref_fresh st numbers)).
    unfold numbers. rewrite length_fmap, length_seqZ.
    replace (Z.of_nat (Z.to_nat (b - a))) with (Z.max 0 (b - a)) by lia.
    reflexivity.
  - intros i Hi. unfold Interp.list_item, Interp.in_bounds.
    cbn [Interp.as_int default]. unfold numbers.
    rewrite length_fmap, length_seqZ.
    replace ((0 <=? i) && (i <? Z.of_nat (Z.to_nat (b - a)))) with true
      by (symmetry; apply andb_true_iff; split;
          [apply Z.leb_le | apply Z.ltb_lt]; lia).
    unfold id. rewrite list_lookup_fmap.
    rewrite (lookup_seqZ_lt a (b - a) (Z.to_nat i)) by lia.
    cbn. f_equal. lia.
Qed.

(** [range 2 5] *)
Lemma len_of_range_witness :
  Builtins.call "range" [VInt 2; VInt 5] (Interp.init false) =
    (Ok (VList 0%nat),
     Interp.with_heap [[VInt 2; VInt 3; VInt 4]] (Interp.init false)) /\
  Builtins.call "len" [VList 0%nat]
    (Interp.with_heap [[VInt 2; VInt 3; VInt 4]] (Interp.init false)) =
    (Ok (VInt 3),
     Interp.with_heap [[VInt 2; VInt 3; VInt 4]] (Interp.init false)) /\
  forall i, 0 <= i < 5 - 2 ->
    Interp.list_item [VInt 2; VInt 3; VInt 4] (VInt i) = VInt (2 + i).
Proof.
  apply (len_of_range (VInt 2) (VInt 5) 2 5 (Interp.init false));
    reflexivity.
Defined.

(** X22.  On a list of numbers, [max] and [min] return elements of the
    list, no element being above the one or below the other, and change
    nothing; on the empty list both return Nothing. *)
Theorem max_and_min_of_numbers
    (l : loc) (xs : list value) (st : Interp.t) :
  Interp.heap st !! l = Some xs ->
  Forall (fun x => is_Some (Interp.as_int x)) xs ->
  match xs with
  | [] =>
      Builtins.builtin_max (VList l) st = (Ok VNone, st) /\
      Builtins.builtin_min (VList l) st = (Ok VNone, st)
  | _ =>
      exists hi lo khi klo,
        Builtins.builtin_max (VList l) st = (Ok hi, st) /\
        Builtins.builtin_min (VList l) st = (Ok lo, st) /\
        hi ∈ xs /\ lo ∈ xs /\
        Interp.as_int hi = Some khi /\ Interp.as_int lo = Some klo /\
        Forall (fun x => forall n, Interp.as_int x = Some n -> klo <= n <= khi) xs
  end.
Proof.
  intros Hl Hall.
  destruct xs as [|x rest].
  { unfold Builtins.builtin_max, Builtins.builtin_min, mbind, Interp.M_bind,
      Interp.truth.
    cbn [Interp.truthy]. unfold loc in *. rewrite Hl. split; reflexivity. }
  rewrite (builtin_max_cons l x rest st Hl), (builtin_min_cons l x rest st Hl).
  apply Forall_cons in Hall as [[n Hn] Hall].
  destruct (max_loop_numbers rest x n st Hn Hall)
    as (hi & Hmax & Hhi & khi & Hkhi & Hnhi & Hup).
  destruct (min_loop_numbers rest x n st Hn Hall)
    as (lo & Hmin & Hlo & klo & Hklo & Hnlo & Hdown).
  exists hi, lo, khi, klo. repeat split; try assumption.
  constructor.
  - intros n' Hn'. rewrite Hn in Hn'. injection Hn' as <-. lia.
  - rewrite Forall_forall in *. intros y Hy k Hk.
    specialize (Hup y Hy k Hk). specialize (Hdown y Hy k Hk). lia.
Qed.

(** The list [[1, 2, 3]]. *)
Lemma max_and_min_of_numbers_witness :
  exists hi lo khi klo,
    Builtins.builtin_max (VList 0%nat) Examples.with_list =
      (Ok hi, Examples.with_list) /\
    Builtins.builtin_min (VList 0%nat) Examples.with_list =
      (Ok lo, Examples.with_list) /\
    hi ∈ [VInt 1; VInt 2; VInt 3] /\ lo ∈ [VInt 1; VInt 2; VInt 3] /\
    Interp.as_int hi = Some khi /\ Interp.as_int lo = Some klo /\
    Forall (fun x => forall n, Interp.as_int x = Some n -> klo <= n <= khi)
      [VInt 1; VInt 2; VInt 3].
Proof.
  apply (max_and_min_of_numbers 0%nat [VInt 1; VInt 2; VInt 3]
           Examples.with_list).
  - vm_compute. reflexivity.
  - repeat constructor; eexists; reflexivity.
Defined.

(** X23.  [sum] of a list is the sum of its numbers, booleans counting
    as 1 and 0, and 0 for the empty list; a list holding anything else,
    a string or Nothing, raises [TypeError].  Nothing is changed. *)
Theorem sum_of_a_list (l : loc) (xs : list value) (st : Interp.t) :
  Interp.heap st !! l = Some xs ->
  Builtins.builtin_sum (VList l) st =
    (match mapM Interp.as_int xs with
     | Some ns => Ok (VInt (foldr Z.add 0 ns))
     | None => Raise TypeError
     end, st).
Proof.
  intros Hl. unfold Builtins.builtin_sum.
  unfold mbind, Interp.M_bind, Interp.deref. unfold loc in *. rewrite Hl.
  rewrite sum_loop_numbers. reflexivity.
Qed.

(** The list [[1, 2, 3]]. *)
Lemma sum_of_a_list_witness :
  Builtins.builtin_sum (VList 0%nat) Examples.with_list =
    (Ok (VInt 6), Examples.with_list).
Proof.
  apply (sum_of_a_list 0%nat [VInt 1; VInt 2; VInt 3] Examples.with_list).
  vm_compute. reflexivity.
Defined.

(** ** From the source text to the output *)

Section StringLiteral.
Import PyStr Lexer.
Local Open Scope nat_scope.

Lemma string_get_app_r (pre rest : string) (i : nat) :
  String.get (String.length pre + i) (pre +:+ rest) = String.get i rest.
Proof. induction pre as [|c pre IH]; [reflexivity | exact IH]. Qed.

Lemma string_length_app (a b : string) :
  String.length (a +:+ b) = String.length a + String.length b.
Proof. induction a as [|c a IH]; [reflexivity | simpl; congruence]. Qed.

Lemma string_app_assoc (a b c : string) : (a +:+ b) +:+ c = a +:+ (b +:+ c).
Proof.
  induction a as [|x a IH]; [reflexivity|].
  change (String x ((a +:+ b) +:+ c) = String x (a +:+ (b +:+ c))).
  rewrite IH. reflexivity.
Qed.

Lemma string_app_empty_r (a : string) : a +:+ EmptyString = a.
Proof.
  induction a as [|x a IH]; [reflexivity|].
  change (String x (a +:+ EmptyString) = String x a). rewrite IH. reflexivity.
Qed.

Lemma string_app_cons (c : ascii) (a b : string) :
  String c a +:+ b = String c (a +:+ b).
Proof. reflexivity. Qed.

Lemma string_app_empty_l (b : string) : EmptyString +:+ b = b.
Proof. reflexivity. Qed.

(** The loop of [read_string] over a run of characters that holds
    neither the quote nor a backslash: it gathers the run and stops at
    the quote that follows. *)
Lemma read_string_loop_plain (q : ascii) (s : string) :
  forallb (fun c => negb (Ascii.eqb c q) && negb (Ascii.eqb c "\"))
    (list_ascii_of_string s) = true ->
  forall (pre post v : string) (lx : t) (n : nat),
    pos lx = String.length pre ->
    String.length s < n ->
    exists lx',
      read_string_loop n (pre +:+ s +:+ String q post) q v lx =
        Ok (v +:+ s, lx') /\
      pos lx' = String.length pre + String.length s.
Proof.
  induction s as [|c s IH]; intros Hs pre post v lx n Hpos Hn.
  - destruct n as [|n]; [cbn in Hn; lia|]. exists lx.
    cbn [read_string_loop]. unfold current_char. rewrite Hpos.
    rewrite <- (Nat.add_0_r (String.length pre)), string_get_app_r.
    rewrite string_app_empty_l. cbn [String.get]. rewrite Ascii.eqb_refl.
    split; [|cbn [String.length]; lia]. rewrite string_app_empty_r. reflexivity.
  - cbn [list_ascii_of_string forallb] in Hs.
    apply andb_true_iff in Hs as [Hc Hs]. apply andb_true_iff in Hc as [Hq Hb].
    apply negb_true_iff in Hq, Hb.
    destruct n as [|n]; [cbn in Hn; lia|].
    cbn [read_string_loop]. unfold current_char at 1. rewrite Hpos.
    replace (String.get (String.length pre)
               (pre +:+ String c s +:+ String q post))
      with (Some c)
      by (rewrite <- (Nat.add_0_r (String.length pre)), string_get_app_r;
          reflexivity).
    rewrite Hq, Hb.
    assert (Htext : (pre +:+ String c EmptyString) +:+ s +:+ String q post =
                    pre +:+ String c s +:+ String q post)
      by (rewrite string_app_assoc; reflexivity).
    destruct (IH Hs (pre +:+ String c EmptyString) post
                (v +:+ String c EmptyString)
                (advance (pre +:+ String c s +:+ String q post) lx) n)
      as [lx' [Hrun Hpos']].
    + rewrite pos_advance, Hpos, string_length_app. cbn. lia.
    + cbn in Hn. lia.
    + exists lx'. split.
      * rewrite Htext in Hrun. rewrite Hrun.
        rewrite string_app_assoc. reflexivity.
      * rewrite Hpos', string_length_app. cbn. lia.
Qed.


(** One round of the loop of [tokenize] at a word, at a string literal
    and at the end of the text. *)
Lemma tokenize_loop_word (fuel : nat) (text : string) (tokens : list Token)
    (lx lx' : t) (c : ascii) (tok : Token) :
  (String.length text <=? pos lx) = false ->
  current_char text (skip_whitespace text lx) = Some c ->
  isalpha c = true ->
  read_identifier_or_keyword text (skip_whitespace text lx) = (tok, lx') ->
  tokenize_loop (S fuel) text tokens lx =
  tokenize_loop fuel text (tokens ++ [tok]) lx'.
Proof.
  intros Hin Hc Ha Hread. cbn [tokenize_loop]. rewrite Hin, Hc. cbv zeta.
  rewrite Hread.
  assert (Hnot : Ascii.eqb c "#" = false /\ Ascii.eqb c "010" = false /\
                 isdigit c = false /\
                 Ascii.eqb c "034" || Ascii.eqb c "'" = false /\
                 punctuation c = None /\ Ascii.eqb c "=" = false).
  { destruct c as [[] [] [] [] [] [] [] []]; try discriminate Ha;
      repeat split; reflexivity. }
  destruct Hnot as (-> & -> & -> & -> & -> & ->). rewrite Ha. reflexivity.
Qed.

Lemma tokenize_loop_string (fuel : nat) (text : string) (tokens : list Token)
    (lx lx' : t) (tok : Token) :
  (String.length text <=? pos lx) = false ->
  current_char text (skip_whitespace text lx) = Some "'"%char ->
  read_string text (skip_whitespace text lx) = Ok (tok, lx') ->
  tokenize_loop (S fuel) text tokens lx =
  tokenize_loop fuel text (tokens ++ [tok]) lx'.
Proof.
  intros Hin Hc Hread. cbn [tokenize_loop]. rewrite Hin, Hc. cbv zeta.
  rewrite Hread. reflexivity.
Qed.

Lemma tokenize_loop_end (fuel : nat) (text : string) (tokens : list Token)
    (lx : t) :
  (String.length text <=? pos lx) = true ->
  tokenize_loop (S fuel) text tokens lx = Ok (tokens, lx).
Proof. intros Hend. cbn [tokenize_loop]. rewrite Hend. reflexivity. Qed.

(** The tokens of [say '<s>'] for a text [s] that holds neither the
    quote nor a backslash. *)
Lemma tokenize_say_literal (s : string) :
  forallb (fun c => negb (Ascii.eqb c "'") && negb (Ascii.eqb c "\"))
    (list_ascii_of_string s) = true ->
  exists l1 l2 c2 : nat,
    tokenize ("say '" +:+ s +:+ "'") =
    Ok [mkToken SAY PNone 1 1; mkToken STRING (PStr s) l1 5;
        mkToken EOF PNone l2 c2].
Proof.
  intros Hs.
  set (text := "say '" +:+ s +:+ "'").
  set (lxA := {| pos := 3; line := 1; column := 4 |}).
  set (lxB := {| pos := 4; line := 1; column := 5 |}).
  assert (Hlen : String.length text = 6 + String.length s).
  { unfold text. rewrite !string_length_app. cbn. lia. }
  assert (E0 : (String.length text <=? pos start) = false) by reflexivity.
  assert (E1 : skip_whitespace text start = start) by reflexivity.
  assert (E2 : current_char text start = Some "s"%char) by reflexivity.
  assert (E3 : read_identifier_or_keyword text start =
               (mkToken SAY PNone 1 1, lxA)) by reflexivity.
  assert (E4 : (String.length text <=? pos lxA) = false) by reflexivity.
  assert (E5 : skip_whitespace text lxA = lxB) by reflexivity.
  assert (E6 : current_char text lxB = Some "'"%char) by reflexivity.
  assert (E7 : exists lxC,
             read_string text lxB = Ok (mkToken STRING (PStr s) (line lxC) 5, lxC) /\
             pos lxC = 6 + String.length s).
  { unfold read_string. rewrite E6. cbv zeta.
    destruct (read_string_loop_plain "'" s Hs "say '" EmptyString EmptyString
                (advance text lxB) (remaining text (advance text lxB)))
      as [lx2 [Hrun Hpos]].
    - reflexivity.
    - unfold remaining. rewrite pos_advance, Hlen. cbn. lia.
    - fold text in Hrun. rewrite Hrun. rewrite string_app_empty_l.
      assert (Hq : current_char text lx2 = Some "'"%char).
      { unfold current_char. rewrite Hpos.
        change (String.length "say '" + String.length s)
          with (5 + String.length s).
        replace (5 + String.length s)
          with (String.length ("say '" +:+ s) + 0)
          by (rewrite string_length_app; cbn; lia).
        unfold text. rewrite <- string_app_assoc. rewrite string_get_app_r.
        reflexivity. }
      rewrite Hq. cbn [Ascii.eqb Bool.eqb].
      eexists. split; [reflexivity|].
      rewrite pos_advance, Hpos. cbn. lia. }
  destruct E7 as [lxC [E7 HposC]].
  assert (E8 : (String.length text <=? pos lxC) = true).
  { apply Nat.leb_le. lia. }
  unfold tokenize. rewrite Hlen.
  change (S (6 + String.length s))
    with (S (S (S (4 + String.length s)))).
  clearbody text.
  rewrite (tokenize_loop_word _ text [] start lxA "s"
             (mkToken SAY PNone 1 1) E0)
    by (rewrite ?E1; (exact E2 || exact E3 || reflexivity)).
  rewrite <- E5 in E6, E7.
  rewrite (tokenize_loop_string _ text _ lxA lxC _ E4 E6 E7).
  rewrite (tokenize_loop_end _ text _ lxC E8).
  eexists _, _, _. reflexivity.
Qed.

End StringLiteral.

(** X24.  For every text [s] that holds neither the single quote nor a
    backslash, the one-line program [say '<s>'] is lexed, parsed and
    run to the end, and prints exactly [s] and nothing else, debug on
    or off. *)
Theorem say_prints_the_string_literal {stack : Runtime.Stack}
    (fuel : nat) (s : string) (d : bool) :
  (forall c, In c (list_ascii_of_string s) -> c <> "'"%char /\ c <> "\"%char) ->
  Gopa.run_source (11 + fuel) ("say '" +:+ s +:+ "'") (Interp.init d) =
    (Ok tt, Interp.emit s (Interp.init d)).
Proof.
  intros Hs.
  assert (Hplain : forallb (fun c => negb (Ascii.eqb c "'") &&
                                     negb (Ascii.eqb c "\"))
                     (list_ascii_of_string s) = true).
  { apply forallb_forall. intros c Hc. destruct (Hs c Hc) as [Hq Hb].
    apply andb_true_iff. split; apply negb_true_iff, Ascii.eqb_neq; assumption. }
  destruct (tokenize_say_literal s Hplain) as (l1 & l2 & c2 & Htok).
  unfold Gopa.run_source. rewrite Htok.
  vm_compute. reflexivity.
Qed.

(** [say 'Hello, World!'] *)
Lemma say_prints_the_string_literal_witness :
  Gopa.run_source 11 "say 'Hello, World!'" (Interp.init false) =
    (Ok tt, Interp.emit "Hello, World!" (Interp.init false)).
Proof.
  apply (say_prints_the_string_literal 0 "Hello, World!" false).
  intros c Hc. cbn in Hc.
  repeat (destruct Hc as [<-|Hc]; [split; discriminate|]). destruct Hc.
Defined.
